(** * AutoCSV Cleaner: issue detection and cleaning engine

    A shallow embedding of [detectIssues], [quantile], [median] and
    [cleanData] of the AutoCleanCSV component, followed by the properties
    of the engine.

    Modelling conventions.
    - A JavaScript string is a [string] whose characters are UTF-16 code
      units in the range U+0000..U+00FF; the non-breaking space U+00A0 is
      the character of code 160.
    - A cell ([any] in the source) is a [value]: a string, a number, or
      the object [Object.prototype], which is what a row object gives for
      the key [__proto__] when it has no property of that name.
      [undefined] is the [None] of an [option value].
    - A JavaScript number is an IEEE 754 binary64 value: the primitive
      [float], with its rounding, its infinities, its signed zeros and
      [NaN].  The [undefined] a numeric function may return is the [None]
      of an [option].
    - The host functions [parseFloat] and [Number.prototype.toString] are
      parameters of the development ([Section Engine]); [Host] implements
      them for the examples.
    - A JavaScript object used as a record is an insertion-ordered
      association list of its own properties, with unique keys; [ownKeys]
      gives the enumeration order of [Object.keys] and [JSON.stringify].
      An assignment [o[k] = v] is [assign]: it creates no property for the
      key [__proto__].  A read [row[k]] of a row object is [property]: the
      own property, or [Object.prototype] for [__proto__].  The methods
      that an object inherits from [Object.prototype] ([constructor],
      [toString], ...) are not modelled: a row is read at the header
      names, which are its own properties, and at the keys of the report,
      which [detectIssues] takes from the headers.
    - Arrays that the component stores in its React state live in an
      explicit [heap], so that sharing and in-place updates are visible. *)

From Stdlib Require Import List String Ascii Bool Arith ZArith Lia.
From Stdlib Require Import Permutation Sorted.
From Stdlib Require Floats.
Import PrimFloat.PrimFloatNotations.
Import ListNotations.
Local Open Scope string_scope.
Local Open Scope list_scope.
Local Open Scope nat_scope.

(** ** Strings *)

Module JsString.

Definition code (c : ascii) : nat := nat_of_ascii c.

(** The characters that [String.prototype.trim] removes (WhiteSpace and
    LineTerminator), restricted to the code units below 256. *)
Definition isWhiteSpace (c : ascii) : bool :=
  let n := code c in
  (n =? 9) || (n =? 10) || (n =? 11) || (n =? 12) || (n =? 13)
  || (n =? 32) || (n =? 160).

Definition nbsp : ascii := ascii_of_nat 160.
Definition space : ascii := ascii_of_nat 32.
Definition zero : ascii := ascii_of_nat 48.

Fixpoint trimStart (s : string) : string :=
  match s with
  | EmptyString => EmptyString
  | String c r => if isWhiteSpace c then trimStart r else s
  end.

(** [trimEnd] drops the trailing white space: a character is kept when
    it is not white space or when something is kept after it. *)
Fixpoint trimEnd (s : string) : string :=
  match s with
  | EmptyString => EmptyString
  | String c r =>
      match trimEnd r with
      | EmptyString => if isWhiteSpace c then EmptyString else String c EmptyString
      | r' => String c r'
      end
  end.

Definition trim (s : string) : string := trimEnd (trimStart s).

(** [s.replace(/\u00a0/g, ' ')] *)
Fixpoint replaceNbsp (s : string) : string :=
  match s with
  | EmptyString => EmptyString
  | String c r =>
      String (if Ascii.eqb c nbsp then space else c) (replaceNbsp r)
  end.

(** [s.includes('\u00a0')] *)
Fixpoint includesNbsp (s : string) : bool :=
  match s with
  | EmptyString => false
  | String c r => Ascii.eqb c nbsp || includesNbsp r
  end.

Fixpoint repeat (c : ascii) (n : nat) : string :=
  match n with
  | O => EmptyString
  | S k => String c (repeat c k)
  end.

(** [s.padStart(maxLength, '0')] *)
Definition padStart (maxLength : nat) (s : string) : string :=
  String.append (repeat zero (maxLength - String.length s)) s.

Definition isDigit (c : ascii) : bool :=
  (48 <=? code c) && (code c <=? 57).

Fixpoint allDigits (s : string) : bool :=
  match s with
  | EmptyString => true
  | String c r => isDigit c && allDigits r
  end.

(** [/^\d+$/.test(s)] *)
Definition isDigitString (s : string) : bool :=
  match s with
  | EmptyString => false
  | _ => allDigits s
  end.

(** [s.startsWith('0')] *)
Definition startsWithZero (s : string) : bool :=
  match s with
  | String c _ => Ascii.eqb c zero
  | EmptyString => false
  end.

Definition isEmpty (s : string) : bool :=
  match s with
  | EmptyString => true
  | _ => false
  end.

(** Every character is white space. *)
Fixpoint allWhiteSpace (s : string) : bool :=
  match s with
  | EmptyString => true
  | String c r => isWhiteSpace c && allWhiteSpace r
  end.

(** The first, respectively the last, character is white space. *)
Definition startsWithWhiteSpace (s : string) : bool :=
  match s with
  | String c _ => isWhiteSpace c
  | EmptyString => false
  end.

Fixpoint endsWithWhiteSpace (s : string) : bool :=
  match s with
  | EmptyString => false
  | String c EmptyString => isWhiteSpace c
  | String _ r => endsWithWhiteSpace r
  end.

End JsString.

(** ** Numbers *)

Module JsNumber.
Import PrimFloat FloatOps SpecFloat.

(** The type of numbers. *)
Abbreviation number := float.

(** The literals [3], [0.25] and [0.75] of the source. *)
Definition three : number := 3%float.
Definition quarter : number := 0.25%float.
Definition threeQuarters : number := 0.75%float.

(** The number of an integer, rounded to nearest; exact below 2^53, as
    for the length of an array. *)
Definition ofZ (z : Z) : number :=
  SF2Prim (binary_normalize prec emax z 0 false).

Definition ofNat (n : nat) : number := ofZ (Z.of_nat n).



(** [Math.floor(x)]: [NaN], the infinities, the zeros and the integers
    are returned as they are, a number between 0 and 1 gives [+0]. *)
Definition floor (x : number) : number :=
  match Prim2SF x with
  | S754_finite s m (Zneg p) =>
      let z := (cond_Zopp s (Zpos m) / Z.pow_pos 2 p)%Z in
      if (z =? 0)%Z then zero else ofZ z
  | _ => x
  end.

(** The integer a number denotes when it is used as a property key of an
    array: [ToString] of an integral number is its decimal numeral, and
    [-0] has the key [0]; any other number is the key of no element. *)
Definition toIndex (x : number) : option Z :=
  match Prim2SF x with
  | S754_zero _ => Some 0%Z
  | S754_finite s m e =>
      match e with
      | Zneg p =>
          if (Zpos m mod Z.pow_pos 2 p =? 0)%Z
          then Some (cond_Zopp s (Zpos m) / Z.pow_pos 2 p)%Z
          else None
      | _ => Some (cond_Zopp s (Zpos m) * 2 ^ e)%Z
      end
  | _ => None
  end.

(** A number above zero, in the format that specifies the operations:
    a positive finite number or [+Infinity]. *)
Definition aboveZero (x : spec_float) : bool := SFltb (S754_zero false) x.

(** ToNumber of an optional number: [undefined] is [NaN]. *)
Definition toNumber (x : option number) : number :=
  match x with
  | Some y => y
  | None => nan
  end.

(** Two numbers have the same JSON text: [JSON.stringify] writes [null]
    for [NaN] and the infinities and [Number.prototype.toString] for the
    finite numbers, which prints equal numbers alike ([0] for both zeros)
    and different numbers differently. *)
Definition sameJson (x y : number) : bool :=
  (x =? y)%float || (negb (is_finite x) && negb (is_finite y)).

End JsNumber.

(** ** Cells *)

Inductive value : Type :=
| VStr (s : string)
| VNum (x : JsNumber.number)
| VProto.

(** ToBoolean: the empty string, the zeros and [NaN] are falsy. *)
Definition truthy (v : value) : bool :=
  match v with
  | VStr s => negb (JsString.isEmpty s)
  | VNum x => negb (PrimFloat.is_zero x || PrimFloat.is_nan x)
  | VProto => true
  end.

(** [a || b] on cells. *)
Definition orElse (a : option value) (b : value) : value :=
  match a with
  | Some v => if truthy v then v else b
  | None => b
  end.

(** Two cells have the same JSON text; [Object.prototype] has no
    enumerable property and is written [{}]. *)
Definition value_eqb (a b : value) : bool :=
  match a, b with
  | VStr s, VStr t => String.eqb s t
  | VNum x, VNum y => JsNumber.sameJson x y
  | VProto, VProto => true
  | _, _ => false
  end.

(** ** Objects *)

Module JsObject.

Section Obj.
Context {V : Type}.

Definition t : Type := list (string * V).

(** The own property [k] of [o]. *)
Fixpoint get (k : string) (o : t) : option V :=
  match o with
  | [] => None
  | (k', v) :: r => if String.eqb k k' then Some v else get k r
  end.

(** The own property [k] of [o] is defined as [v], as by a computed key
    in an object literal: an existing property keeps its place. *)
Fixpoint set (k : string) (v : V) (o : t) : t :=
  match o with
  | [] => [(k, v)]
  | (k', v') :: r =>
      if String.eqb k k' then (k', v) :: r else (k', v') :: set k v r
  end.

Definition has (k : string) (o : t) : bool :=
  match get k o with
  | Some _ => true
  | None => false
  end.

(** [o[k] = v] for a value [v] that is a string, a number or
    [Object.prototype]: for the key [__proto__] of an object without such
    a property the assignment calls the setter inherited from
    [Object.prototype], which ignores a primitive value and leaves the
    prototype as it is when given [Object.prototype]; no property is
    created. *)
Definition assign (k : string) (v : V) (o : t) : t :=
  if String.eqb k "__proto__" && negb (has k o) then o else set k v o.
End Obj.

Arguments t V : clear implicits.

(** Array indices: the canonical decimal numerals below 2^32 - 1. *)
Fixpoint digitsValue (acc : N) (s : string) : N :=
  match s with
  | EmptyString => acc
  | String c r =>
      digitsValue (acc * 10 + N.of_nat (JsString.code c - 48)) r
  end.

Definition arrayIndex (k : string) : option N :=
  if JsString.isDigitString k
     && (negb (JsString.startsWithZero k) || (String.length k =? 1))
     && (String.length k <=? 10)
  then
    let n := digitsValue 0 k in
    if (n <? 4294967295)%N then Some n else None
  else None.

Fixpoint insertIndex (x : N * string) (l : list (N * string))
  : list (N * string) :=
  match l with
  | [] => [x]
  | y :: r => if (fst x <=? fst y)%N then x :: l else y :: insertIndex x r
  end.

Fixpoint indexKeys (ks : list string) : list (N * string) :=
  match ks with
  | [] => []
  | k :: r =>
      match arrayIndex k with
      | Some n => insertIndex (n, k) (indexKeys r)
      | None => indexKeys r
      end
  end.

Definition isIndexKey (k : string) : bool :=
  match arrayIndex k with
  | Some _ => true
  | None => false
  end.

(** OrdinaryOwnPropertyKeys: array indices in ascending order, then the
    other keys in insertion order. *)
Definition orderKeys (ks : list string) : list string :=
  map snd (indexKeys ks) ++ filter (fun k => negb (isIndexKey k)) ks.

(** [Object.keys(o)] *)
Definition ownKeys {V : Type} (o : t V) : list string :=
  orderKeys (map fst o).

(** The entries [JSON.stringify(o)] writes, in the order it writes them. *)
Definition entries {V : Type} (o : t V) : list (string * option V) :=
  map (fun k => (k, get k o)) (ownKeys o).

End JsObject.

(** ** The statistics helpers *)

Module Stats.
Import PrimFloat.
Local Open Scope float_scope.

(** [[...arr].sort((a, b) => a - b)]: an element is moved behind another
    one only when the comparator returns a positive number for the pair
    ([NaN] counts as [+0]), and [Array.prototype.sort] is stable, so for
    numbers other than [NaN] the result is the one of a stable insertion
    sort. *)
Fixpoint insert (x : float) (l : list float) : list float :=
  match l with
  | [] => [x]
  | y :: r => if 0 <? x - y then y :: insert x r else x :: l
  end.

Fixpoint sort (l : list float) : list float :=
  match l with
  | [] => []
  | x :: r => insert x (sort r)
  end.

(** [sorted[i]] for a number [i]; [None] is [undefined]. *)
Definition at_index (l : list float) (i : float) : option float :=
  match JsNumber.toIndex i with
  | Some z =>
      if (0 <=? z)%Z && (z <? Z.of_nat (List.length l))%Z
      then nth_error l (Z.to_nat z)
      else None
  | None => None
  end.

Definition quantile (arr : list float) (q : float) : option float :=
  match arr with
  | [] => Some 0
  | _ =>
      let sorted := sort arr in
      let pos := (JsNumber.ofNat (List.length sorted) - 1) * q in
      let base := JsNumber.floor pos in
      let rest := pos - base in
      match at_index sorted (base + 1) with
      | Some next =>
          let cur := JsNumber.toNumber (at_index sorted base) in
          Some (cur + rest * (next - cur))
      | None => at_index sorted base
      end
  end.

(** [Math.floor(sorted.length / 2)] and [sorted.length % 2] are those of
    the natural number [sorted.length].  The two indices [median] reads
    are inside [sorted] whenever the input is not empty (lemma
    [median_indices]); the default of [nth] is never returned. *)
Definition median (values : list float) : float :=
  match values with
  | [] => 0
  | _ =>
      let sorted := sort values in
      let mid := Nat.div (List.length sorted) 2 in
      if Nat.eqb (Nat.modulo (List.length sorted) 2) 0
      then (nth (mid - 1) sorted nan + nth mid sorted nan) / 2
      else nth mid sorted nan
  end.




Definition centralValue (sorted : list float) : float :=
  let n := List.length sorted in
  if Nat.eqb n 0 then 0
  else if Nat.even n
       then (nth (Nat.div n 2 - 1) sorted nan + nth (Nat.div n 2) sorted nan) / 2
       else nth (Nat.div n 2) sorted nan.

(** The comparator puts [a] before [b], or leaves them as they are. *)
Definition inOrder (a b : float) : Prop := (0 <? a - b) = false.

End Stats.

(** ** Lodash helpers *)

Module Lodash.

Section UniqBy.
Context {A K : Type}.
Variable iteratee : A -> K.
Variable sameKey : K -> K -> bool.

(** [_.uniqBy(array, iteratee)]: the first element of each key, in
    the order of the array. *)
Fixpoint uniqFrom (seen : list K) (array : list A) : list A :=
  match array with
  | [] => []
  | x :: r =>
      if existsb (sameKey (iteratee x)) seen
      then uniqFrom seen r
      else x :: uniqFrom (iteratee x :: seen) r
  end.

Definition uniqBy (array : list A) : list A := uniqFrom [] array.
End UniqBy.

(** [_.countBy(collection)]: an object keyed by the values, in the
    order of their first occurrence. *)
Fixpoint countFrom (counts : JsObject.t nat) (collection : list string)
  : JsObject.t nat :=
  match collection with
  | [] => counts
  | k :: r =>
      countFrom
        (JsObject.set k (match JsObject.get k counts with
                         | Some n => S n
                         | None => 1
                         end) counts) r
  end.

Definition countBy (collection : list string) : JsObject.t nat :=
  countFrom [] collection.

(** [_.maxBy(array, iteratee)] (lodash's [baseExtremum] with [>]): an
    element replaces the current result only when its computed value is
    strictly greater; [None] is [undefined]. *)
Fixpoint extremum {A : Type} (iteratee : A -> option nat)
         (computed : option nat) (result : option A) (array : list A)
  : option A :=
  match array with
  | [] => result
  | value :: r =>
      match iteratee value, computed with
      | Some current, None =>
          extremum iteratee (Some current) (Some value) r
      | Some current, Some c =>
          if c <? current
          then extremum iteratee (Some current) (Some value) r
          else extremum iteratee computed result r
      | None, _ => extremum iteratee computed result r
      end
  end.

Definition maxBy {A : Type} (iteratee : A -> option nat) (array : list A)
  : option A :=
  extremum iteratee None None array.

(** [_.min(array)] and [_.max(array)] on numbers ([baseExtremum] with
    the identity and [<], respectively [>]): the first element that is
    not [NaN] starts the comparison; [None] is [undefined]. *)
Fixpoint extremumOf (better : JsNumber.number -> JsNumber.number -> bool)
         (computed : option JsNumber.number) (array : list JsNumber.number)
  : option JsNumber.number :=
  match array with
  | [] => computed
  | current :: r =>
      match computed with
      | None =>
          if PrimFloat.is_nan current
          then extremumOf better None r
          else extremumOf better (Some current) r
      | Some c =>
          if better current c
          then extremumOf better (Some current) r
          else extremumOf better computed r
      end
  end.

Definition lt (a b : JsNumber.number) : bool := PrimFloat.ltb a b.
Definition gt (a b : JsNumber.number) : bool := PrimFloat.ltb b a.

Definition min (array : list JsNumber.number) : option JsNumber.number :=
  extremumOf lt None array.
Definition max (array : list JsNumber.number) : option JsNumber.number :=
  extremumOf gt None array.

(** [baseSum] with the identity: the samples added from left to right. *)
Definition sum (array : list JsNumber.number) : option JsNumber.number :=
  fold_left (fun acc current =>
               match acc with
               | None => Some current
               | Some a => Some (PrimFloat.add a current)
               end) array None.

(** [_.mean(array)]: [NaN] for the empty array. *)
Definition mean (array : list JsNumber.number) : JsNumber.number :=
  match array with
  | [] => PrimFloat.nan
  | _ =>
      PrimFloat.div (JsNumber.toNumber (sum array))
                    (JsNumber.ofNat (List.length array))
  end.

End Lodash.

(** ** Data model *)

(** A cell of a parsed table; [None] is [undefined]. *)
Definition cell : Type := option value.

(** A row object of [objectData]: one property per column name. *)
Definition rowObject : Type := JsObject.t value.

Record Structure : Type := {
  columns : nat;
  rowCount : nat
}.

Record Issues : Type := {
  missing : JsObject.t nat;
  duplicates : nat;
  whitespace : JsObject.t string;
  leadingZeros : JsObject.t string;
  outliers : JsObject.t nat;
  dataTypes : JsObject.t string;
  structure : Structure
}.

Inductive severity : Type := success | info | warning | error.

(** The message templates of [cleanData], with the values they
    interpolate. *)
Inductive message : Type :=
| RemovedDuplicateRows (removed : nat)
| FixedWhitespace (column : string)
| RestoredLeadingZeros (column : string)
| FilledMissingValues (count : option nat) (column : string)
| CleaningComplete.

Record CleaningLog : Type := {
  text : message;
  type : severity
}.

(** [row[index]] on an array of cells. *)
Definition cellAt (row : list cell) (index : nat) : cell :=
  match nth_error row index with
  | Some c => c
  | None => None
  end.

(** The two rows have the same [JSON.stringify] text: the same keys in
    the same enumeration order, with the same values. *)
Definition entry_eqb (a b : string * option value) : bool :=
  String.eqb (fst a) (fst b)
  && match snd a, snd b with
     | Some x, Some y => value_eqb x y
     | None, None => true
     | _, _ => false
     end.

Fixpoint entries_eqb (a b : list (string * option value)) : bool :=
  match a, b with
  | [], [] => true
  | x :: a', y :: b' => entry_eqb x y && entries_eqb a' b'
  | _, _ => false
  end.

(** [objectData = _.uniqBy(objectData, row => JSON.stringify(row))] *)
Definition uniqueRows (objectData : list rowObject) : list rowObject :=
  Lodash.uniqBy JsObject.entries entries_eqb objectData.

(** [row[k]] for a row object: its own property, or what it inherits
    from [Object.prototype] for the key [__proto__]. *)
Definition property (k : string) (row : rowObject) : cell :=
  match JsObject.get k row with
  | Some v => Some v
  | None => if String.eqb k "__proto__" then Some VProto else None
  end.

(** [headers.forEach((header, index) => obj[header] = row[index] || '')] *)
Fixpoint fillObject (headers : list string) (index : nat)
         (row : list cell) (obj : rowObject) : rowObject :=
  match headers with
  | [] => obj
  | header :: rest =>
      fillObject rest (S index) row
        (JsObject.assign header (orElse (cellAt row index) (VStr "")) obj)
  end.

Definition toObject (headers : list string) (row : list cell) : rowObject :=
  fillObject headers 0 row [].

Definition toObjects (headers : list string) (data : list (list cell))
  : list rowObject :=
  map (toObject headers) data.

(** A row of text cells. *)
Definition texts (l : list string) : list cell :=
  map (fun s => Some (VStr s)) l.


(** ** A host instance

    [parseFloat] and [Number.prototype.toString] as ECMAScript defines
    them, on strings of code units below 256. *)

Module Host.
Import PrimFloat FloatOps SpecFloat.

Fixpoint digitsOf (s : string) : list nat * string :=
  match s with
  | String c r =>
      if JsString.isDigit c
      then let (ds, rest) := digitsOf r in
           ((JsString.code c - 48)%nat :: ds, rest)
      else ([], s)
  | EmptyString => ([], s)
  end.

Definition intValue (ds : list nat) : Z :=
  fold_left (fun acc d => (acc * 10 + Z.of_nat d)%Z) ds 0%Z.

Definition signOf (s : string) : bool * string :=
  match s with
  | String "-" r => (true, r)
  | String "+" r => (false, r)
  | _ => (false, s)
  end.

Definition fractionOf (s : string) : list nat * string :=
  match s with
  | String "." r => digitsOf r
  | _ => ([], s)
  end.

Definition exponentOf (s : string) : Z :=
  match s with
  | String c r =>
      if Ascii.eqb c "e" || Ascii.eqb c "E" then
        let (neg, r1) := signOf r in
        match digitsOf r1 with
        | ([], _) => 0%Z
        | (ds, _) => if neg then (- intValue ds)%Z else intValue ds
        end
      else 0%Z
  | EmptyString => 0%Z
  end.

Definition signed (neg : bool) (x : float) : float :=
  if neg then opp x else x.

(** The number nearest to [mantissa * 10^exponent] (ties to even), for a
    mantissa of [digits] decimal digits: the quotient of two integers,
    rounded once. *)
Definition decimal (neg : bool) (mantissa exponent : Z) (digits : nat)
  : float :=
  if (mantissa =? 0)%Z then signed neg zero
  else if (310 <? exponent)%Z then signed neg infinity
  else if (exponent + Z.of_nat digits <? -330)%Z then signed neg zero
  else
    let numerator :=
      if (0 <=? exponent)%Z then (mantissa * 10 ^ exponent)%Z else mantissa in
    let denominator :=
      if (0 <=? exponent)%Z then 1%Z else (10 ^ (- exponent))%Z in
    SF2Prim (SFdiv prec emax
                   (S754_finite neg (Z.to_pos numerator) 0)
                   (S754_finite false (Z.to_pos denominator) 0)).

Definition startsWith (prefix s : string) : bool :=
  String.eqb prefix (String.substring 0 (String.length prefix) s).

(** The longest prefix of the trimmed string that is a decimal literal:
    an optional sign, then [Infinity] or digits with an optional fraction
    and an optional exponent; [NaN] when there is none. *)
Definition parseFloat (s : string) : float :=
  let (neg, s1) := signOf (JsString.trimStart s) in
  if startsWith "Infinity" s1 then signed neg infinity
  else
    let (ints, s2) := digitsOf s1 in
    let (fracs, s3) := fractionOf s2 in
    match ints, fracs with
    | [], [] => nan
    | _, _ =>
        decimal neg (intValue (ints ++ fracs))
                (exponentOf s3 - Z.of_nat (List.length fracs))
                (List.length (ints ++ fracs))
    end.

Fixpoint zDigits (fuel : nat) (z : Z) (acc : string) : string :=
  match fuel with
  | O => acc
  | S f =>
      let acc' := String (ascii_of_nat (48 + Z.to_nat (z mod 10))) acc in
      if (z / 10 =? 0)%Z then acc' else zDigits f (z / 10)%Z acc'
  end.

(** The decimal numeral of a natural number. *)
Definition zToString (z : Z) : string :=
  zDigits (S (Z.to_nat (Z.log2 z))) z "".

(** The [n] with [10^(n-1) <= p/q < 10^n], for [p/q] below 1 and at
    least 1. *)
Fixpoint smallExponent (fuel : nat) (p q j : Z) : Z :=
  match fuel with
  | O => (- j)%Z
  | S f =>
      if (q <=? p * 10 ^ (j + 1))%Z then (- j)%Z
      else smallExponent f p q (j + 1)%Z
  end.

Definition decimalExponent (p q : Z) : Z :=
  if (q <=? p)%Z then Z.of_nat (String.length (zToString (p / q)))
  else smallExponent 400 p q 0.

(** The shortest digits [s] (there are [k] of them, or [s = 10^k]) such
    that [s * 10^(n-k)] is read back as [x]; of two candidates the one
    nearer to [x = p/q], the even one at a tie. *)
Fixpoint shortest (fuel : nat) (x : float) (p q n k : Z) : Z * Z :=
  match fuel with
  | O => (0%Z, k)
  | S f =>
      let num := if (0 <=? k - n)%Z then (p * 10 ^ (k - n))%Z else p in
      let den := if (0 <=? k - n)%Z then q else (q * 10 ^ (n - k))%Z in
      let lo := (num / den)%Z in
      let okLo := eqb (decimal false lo (n - k) (Z.to_nat k)) x in
      let okHi := eqb (decimal false (lo + 1) (n - k) (Z.to_nat k)) x in
      if okLo && okHi then
        let d := (2 * num - (2 * lo + 1) * den)%Z in
        if (d <? 0)%Z then (lo, k)
        else if (0 <? d)%Z then ((lo + 1)%Z, k)
             else if Z.even lo then (lo, k) else ((lo + 1)%Z, k)
      else if okLo then (lo, k)
           else if okHi then ((lo + 1)%Z, k)
                else shortest f x p q n (k + 1)%Z
  end.

Definition zeros (n : Z) : string := JsString.repeat JsString.zero (Z.to_nat n).

(** Number::toString of a positive finite number [m * 2^e]. *)
Definition positiveToString (x : float) (m : positive) (e : Z) : string :=
  let p := if (0 <=? e)%Z then (Zpos m * 2 ^ e)%Z else Zpos m in
  let q := if (0 <=? e)%Z then 1%Z else (2 ^ (- e))%Z in
  let n0 := decimalExponent p q in
  let (s, k0) := shortest 17 x p q n0 1 in
  let carry := (s =? 10 ^ k0)%Z in
  let digits := if carry then "1" else zToString s in
  let k := if carry then 1%Z else k0 in
  let n := if carry then (n0 + 1)%Z else n0 in
  if (k <=? n)%Z && (n <=? 21)%Z then String.append digits (zeros (n - k))
  else if (0 <? n)%Z && (n <=? 21)%Z then
    String.append (String.substring 0 (Z.to_nat n) digits)
      (String.append "." (String.substring (Z.to_nat n) (Z.to_nat (k - n))
                                           digits))
  else if (-6 <? n)%Z && (n <=? 0)%Z then
    String.append "0." (String.append (zeros (- n)) digits)
  else
    let mantissa :=
      if (k =? 1)%Z then digits
      else String.append (String.substring 0 1 digits)
             (String.append "." (String.substring 1 (Z.to_nat (k - 1))
                                                  digits)) in
    String.append mantissa
      (String.append (if (n - 1 <? 0)%Z then "e-" else "e+")
                     (zToString (Z.abs (n - 1)))).

Definition numToString (x : float) : string :=
  match Prim2SF x with
  | S754_nan => "NaN"
  | S754_zero _ => "0"
  | S754_infinity s => if s then "-Infinity" else "Infinity"
  | S754_finite s m e =>
      String.append (if s then "-" else "") (positiveToString (abs x) m e)
  end.

End Host.

(** ** Example tables *)

(** The scenario of the specification: a duplicate row, a padded id and
    an empty value. *)
Definition ordersHeaders : list string := ["id"; "val"].
Definition ordersTable : list (list cell) :=
  map texts [["1"; "10"]; ["2"; ""]; ["1"; "10"]; [" 3 "; "30"]].

(** A column without any value. *)
Definition notesHeaders : list string := ["id"; "note"].
Definition notesTable : list (list cell) :=
  map texts [["1"; ""]; ["2"; ""]].

(** Two rows that differ only by a leading space, and a repeated row. *)
Definition tagsHeaders : list string := ["tag"].
Definition tagsTable : list (list cell) := map texts [["a"]; [" a"]; ["a"]].
Definition plainTagsTable : list (list cell) :=
  map texts [["a"]; ["b"]; ["a"]].

(** Codes with leading zeros: with an empty cell, with surrounding
    spaces, and the scenario of the specification. *)
Definition zipHeaders : list string := ["zip"].
Definition zipWithGap : list (list cell) := map texts [["007"]; [""]; ["012"]].
Definition zipWithSpaces : list (list cell) :=
  map texts [["007"]; [" 12345 "]].
Definition zipCodes : list (list cell) := map texts [["007"]; ["012"]; ["5"]].

(** Twelve measurements, one of them far away. *)
Definition readingsHeaders : list string := ["v"].

(** The number 1e308 twice, in two spellings, around a gap. *)
Definition hugeTable : list (list cell) :=
  map texts [["1e308"]; [""]; ["1.0e308"]].

(** Thirteen measurements at the two ends of the range of the numbers. *)
Definition extremesTable : list (list cell) :=
  map texts (List.repeat ["-1e308"] 10 ++ List.repeat ["1e308"] 3).

(** A ragged table: the first row has no second cell. *)
Definition raggedHeaders : list string := ["a"; "b"].
Definition raggedTable : list (list cell) := map texts [["1"]; ["2"; "x"]].


(** A table free of issues. *)
Definition cleanHeaders : list string := ["x"].
Definition cleanTable : list (list cell) := map texts [["a"]].

(** A name with a leading space next to an empty name. *)
Definition namesHeaders : list string := ["name"].
Definition namesTable : list (list cell) := map texts [[" x"]; [""]].

(** Two scores around a cell of one space. *)
Definition scoresHeaders : list string := ["score"].
Definition scoresTable : list (list cell) :=
  map texts [["10"]; [" "]; ["30"]].

(** Balances around zero, with a gap. *)
Definition balanceHeaders : list string := ["balance"].
Definition balanceTable : list (list cell) :=
  map texts [["-1"]; [""]; ["1"]].

(** City names, with a gap. *)
Definition citiesHeaders : list string := ["city"].
Definition citiesTable : list (list cell) :=
  map texts [["Oslo"]; [""]; ["Rome"]].

(** ** The engine *)

Section Engine.

(** Host functions: [parseFloat] on strings and
    [Number.prototype.toString]. *)
Variable parseFloat : string -> JsNumber.number.
Variable numToString : JsNumber.number -> string.

(** [parseFloat(s)] for the [!isNaN] filters: [None] when the result is
    [NaN]. *)
Definition parseNumber (s : string) : option JsNumber.number :=
  if PrimFloat.is_nan (parseFloat s) then None else Some (parseFloat s).

(** [v.toString()] *)
Definition toString (v : value) : string :=
  match v with
  | VStr s => s
  | VNum x => numToString x
  | VProto => "[object Object]"
  end.

(** [c?.toString() || ''] *)
Definition textOf (c : cell) : string :=
  match c with
  | Some v => toString v
  | None => ""
  end.

(** The text of the cell has no white space at its ends. *)
Definition trimmedCell (c : cell) : Prop :=
  JsString.trim (textOf c) = textOf c.

(** A cell as the name [__proto__] reads it while no fix has filled it:
    the prototype of the row object, or its text padded with zeros. *)
Definition inheritedCell (c : cell) : Prop :=
  c = Some VProto
  \/ exists n,
       c = Some (VStr (String.append (JsString.repeat JsString.zero n)
                                     "[object Object]")).

(** [parseFloat(c)] followed by the [!isNaN] filter. *)
Definition numberOf (c : cell) : option JsNumber.number :=
  match c with
  | Some v => parseNumber (toString v)
  | None => None
  end.

Fixpoint keepNumbers (l : list (option JsNumber.number))
  : list JsNumber.number :=
  match l with
  | [] => []
  | Some x :: r => x :: keepNumbers r
  | None :: r => keepNumbers r
  end.

(** [!c || c.toString().trim() === ''] *)
Definition isMissing (c : cell) : bool :=
  match c with
  | Some v => negb (truthy v) || JsString.isEmpty (JsString.trim (toString v))
  | None => true
  end.

Definition column (header : string) (objectData : list rowObject)
  : list cell :=
  map (property header) objectData.

(** *** detectIssues *)

Definition missingCount (header : string) (objectData : list rowObject)
  : nat :=
  List.length (filter isMissing (column header objectData)).

Definition detectMissing (headers : list string)
           (objectData : list rowObject) : JsObject.t nat :=
  fold_left
    (fun acc header =>
       let n := missingCount header objectData in
       if 0 <? n then JsObject.assign header n acc else acc)
    headers [].

Definition hasWhitespaceIssue (c : cell) : bool :=
  let value := textOf c in
  negb (String.eqb value (JsString.trim value))
  || JsString.includesNbsp value.

Definition detectWhitespace (headers : list string)
           (objectData : list rowObject) : JsObject.t string :=
  fold_left
    (fun acc header =>
       if existsb hasWhitespaceIssue (column header objectData)
       then JsObject.assign header "leading_or_trailing_space" acc
       else acc)
    headers [].

Definition hasLeadingZero (c : cell) : bool :=
  let value := textOf c in
  JsString.isDigitString value
  && JsString.startsWithZero value
  && (1 <? String.length value).

Definition detectLeadingZeros (headers : list string)
           (objectData : list rowObject) : JsObject.t string :=
  fold_left
    (fun acc header =>
       if existsb hasLeadingZero (column header objectData)
       then JsObject.assign header "leading_zeros_lost" acc
       else acc)
    headers [].

Definition numericValues (header : string) (objectData : list rowObject)
  : list JsNumber.number :=
  keepNumbers (map numberOf (column header objectData)).

(** [val < (q1 - 3 * iqr) || val > (q3 + 3 * iqr)] with
    [iqr = q3 - q1], in double arithmetic; a comparison with [NaN] is
    false. *)
Definition isOutlier (q1 q3 val : JsNumber.number) : bool :=
  let iqr := PrimFloat.sub q3 q1 in
  PrimFloat.ltb val (PrimFloat.sub q1 (PrimFloat.mul JsNumber.three iqr))
  || PrimFloat.ltb (PrimFloat.add q3 (PrimFloat.mul JsNumber.three iqr)) val.

(** The quartiles are [quantile(numericValues, 0.25)] and
    [quantile(numericValues, 0.75)]; an [undefined] result would enter
    the arithmetic as [NaN]. *)
Definition outlierCount (values : list JsNumber.number) : nat :=
  let q1 := JsNumber.toNumber (Stats.quantile values JsNumber.quarter) in
  let q3 := JsNumber.toNumber (Stats.quantile values JsNumber.threeQuarters) in
  List.length (filter (isOutlier q1 q3) values).

Definition detectOutliers (headers : list string)
           (objectData : list rowObject) : JsObject.t nat :=
  fold_left
    (fun acc header =>
       let values := numericValues header objectData in
       if 10 <? List.length values
       then
         let n := outlierCount values in
         if 0 <? n then JsObject.assign header n acc else acc
       else acc)
    headers [].

Definition detectIssues (data : list (list cell)) (headers : list string)
  : Issues :=
  let objectData := toObjects headers data in
  {| missing := detectMissing headers objectData;
     duplicates :=
       List.length objectData - List.length (uniqueRows objectData);
     whitespace := detectWhitespace headers objectData;
     leadingZeros := detectLeadingZeros headers objectData;
     outliers := detectOutliers headers objectData;
     dataTypes := [];
     structure := {| columns := List.length headers;
                     rowCount := List.length data |} |}.

(** *** The store

    The arrays held by the component: tables (arrays of references to
    rows), rows (arrays of cells) and logs.  A reference is the index
    of a block; blocks are only ever added at the end. *)

Definition addr : Type := nat.

Inductive block : Type :=
| BTable (rows : list addr)
| BRow (cells : list cell)
| BLog (entries : list CleaningLog).

Definition heap : Type := list block.

Definition alloc (b : block) (h : heap) : addr * heap :=
  (List.length h, h ++ [b]).

Fixpoint store (a : addr) (b : block) (h : heap) : heap :=
  match h, a with
  | [], _ => []
  | _ :: r, O => b :: r
  | x :: r, S a' => x :: store a' b r
  end.

Definition readTable (h : heap) (a : addr) : list addr :=
  match nth_error h a with
  | Some (BTable rows) => rows
  | _ => []
  end.

Definition readRow (h : heap) (a : addr) : list cell :=
  match nth_error h a with
  | Some (BRow cells) => cells
  | _ => []
  end.

Definition readLog (h : heap) (a : addr) : list CleaningLog :=
  match nth_error h a with
  | Some (BLog entries) => entries
  | _ => []
  end.

(** [log.push(entry)] *)
Definition push (log : addr) (entry : CleaningLog) (h : heap) : heap :=
  store log (BLog (readLog h log ++ [entry])) h.

(** A fresh array for each row, then a fresh array of the rows. *)
Fixpoint allocRows (rows : list (list cell)) (h : heap)
  : list addr * heap :=
  match rows with
  | [] => ([], h)
  | cells :: rest =>
      let (a, h1) := alloc (BRow cells) h in
      let (others, h2) := allocRows rest h1 in
      (a :: others, h2)
  end.

Definition allocTable (rows : list (list cell)) (h : heap) : addr * heap :=
  let (refs, h1) := allocRows rows h in
  alloc (BTable refs) h1.

(** The table a reference denotes. *)
Definition loadTable (h : heap) (a : addr) : list (list cell) :=
  map (readRow h) (readTable h a).

(** The state of the component that the engine reads and writes. *)
Record AppState : Type := {
  csvData : addr;
  headers : list string;
  issues : option Issues;
  cleanedData : addr;
  cleaningLog : addr;
  isLoading : bool
}.

Definition setIsLoading (b : bool) (st : AppState) : AppState :=
  {| csvData := csvData st; headers := headers st; issues := issues st;
     cleanedData := cleanedData st; cleaningLog := cleaningLog st;
     isLoading := b |}.

Definition setCleanedData (a : addr) (st : AppState) : AppState :=
  {| csvData := csvData st; headers := headers st; issues := issues st;
     cleanedData := a; cleaningLog := cleaningLog st;
     isLoading := isLoading st |}.

Definition setCleaningLog (a : addr) (st : AppState) : AppState :=
  {| csvData := csvData st; headers := headers st; issues := issues st;
     cleanedData := cleanedData st; cleaningLog := a;
     isLoading := isLoading st |}.

(** *** cleanData

    Each step takes and returns the current [objectData] and the store;
    [log] is the reference of the log array of the run. *)

Definition run : Type := (list rowObject * heap)%type.

Definition entry (m : message) (s : severity) : CleaningLog :=
  {| text := m; type := s |}.

Definition setColumn (column : string) (f : cell -> value)
           (objectData : list rowObject) : list rowObject :=
  map (fun row => JsObject.set column (f (property column row)) row)
      objectData.

(** Remove duplicates. *)
Definition removeDuplicates (report : Issues) (log : addr) (s : run) : run :=
  let (objectData, h) := s in
  if 0 <? duplicates report then
    let beforeCount := List.length objectData in
    let objectData' := uniqueRows objectData in
    (objectData',
     push log
          (entry (RemovedDuplicateRows
                    (beforeCount - List.length objectData')) success) h)
  else s.

(** [row[column]?.toString().replace(/\u00a0/g, ' ').trim() || ''] *)
Definition normalized (c : cell) : value :=
  match c with
  | Some v => VStr (JsString.trim (JsString.replaceNbsp (toString v)))
  | None => VStr ""
  end.

Definition fixWhitespaceIn (log : addr) (s : run) (column : string) : run :=
  let (objectData, h) := s in
  (setColumn column normalized objectData,
   push log (entry (FixedWhitespace column) success) h).

Definition fixWhitespace (report : Issues) (log : addr) (s : run) : run :=
  fold_left (fixWhitespaceIn log) (JsObject.ownKeys (whitespace report)) s.

(** [Math.max(...objectData.map(row => row[column]?.toString().length || 0))];
    [objectData] is never empty here, and for an empty argument list
    [-Infinity] pads like [0]. *)
Definition maxLength (column : string) (objectData : list rowObject) : nat :=
  fold_right Nat.max 0
    (map (fun row => String.length (textOf (property column row)))
         objectData).

(** [row[column]?.toString().padStart(maxLength, '0') || ''] *)
Definition padded (width : nat) (c : cell) : value :=
  match c with
  | Some v => VStr (JsString.padStart width (toString v))
  | None => VStr ""
  end.

Definition restoreLeadingZerosIn (log : addr) (s : run) (column : string)
  : run :=
  let (objectData, h) := s in
  let width := maxLength column objectData in
  (setColumn column (padded width) objectData,
   push log (entry (RestoredLeadingZeros column) success) h).

Definition restoreLeadingZeros (report : Issues) (log : addr) (s : run)
  : run :=
  fold_left (restoreLeadingZerosIn log)
            (JsObject.ownKeys (leadingZeros report)) s.

(** [.filter(val => val && val.toString().trim() !== '')] *)
Fixpoint nonEmpty (cells : list cell) : list value :=
  match cells with
  | [] => []
  | c :: r =>
      match c with
      | Some v =>
          if truthy v && negb (JsString.isEmpty (JsString.trim (toString v)))
          then v :: nonEmpty r
          else nonEmpty r
      | None => nonEmpty r
      end
  end.

(** The mode: [_.maxBy(Object.keys(counts), key => counts[key]) || 'Unknown'] *)
Definition mode (nonEmptyValues : list value) : value :=
  let counts := Lodash.countBy (map toString nonEmptyValues) in
  orElse
    (option_map VStr
       (Lodash.maxBy (fun key => JsObject.get key counts)
                     (JsObject.ownKeys counts)))
    (VStr "Unknown").

Definition fillValueOf (nonEmptyValues : list value) : value :=
  let numeric :=
    keepNumbers (map (fun v => parseNumber (toString v)) nonEmptyValues) in
  if List.length numeric =? List.length nonEmptyValues
  then VNum (Stats.median numeric)
  else mode nonEmptyValues.

(** [(row[column] && row[column].toString().trim()) || fillValue] *)
Definition filled (fillValue : value) (c : cell) : value :=
  match c with
  | Some v =>
      if truthy v
      then orElse (Some (VStr (JsString.trim (toString v)))) fillValue
      else fillValue
  | None => fillValue
  end.

Definition fillMissingIn (report : Issues) (log : addr) (s : run)
           (column : string) : run :=
  let (objectData, h) := s in
  let nonEmptyValues := nonEmpty (map (property column) objectData) in
  if 0 <? List.length nonEmptyValues then
    (setColumn column (filled (fillValueOf nonEmptyValues)) objectData,
     push log
          (entry (FilledMissingValues
                    (JsObject.get column (missing report)) column)
                 success) h)
  else s.

Definition fillMissing (report : Issues) (log : addr) (s : run) : run :=
  fold_left (fillMissingIn report log) (JsObject.ownKeys (missing report)) s.

(** [objectData.map(row => headers.map(header => row[header]))] *)
Definition toArrays (hs : list string) (objectData : list rowObject)
  : list (list cell) :=
  map (fun row => map (fun header => property header row) hs) objectData.

Definition steps (report : Issues) (log : addr) (s : run) : run :=
  fillMissing report log
    (restoreLeadingZeros report log
       (fixWhitespace report log
          (removeDuplicates report log s))).

Definition cleanData (st : AppState) (h : heap) : AppState * heap :=
  match issues st with
  | None => (st, h)
  | Some report =>
      if List.length (readTable h (csvData st)) =? 0 then (st, h)
      else
        let st1 := setIsLoading true st in
        let (cleaned, h1) := alloc (BTable (readTable h (csvData st))) h in
        let (log, h2) := alloc (BLog []) h1 in
        let objectData := toObjects (headers st) (loadTable h2 cleaned) in
        let (objectData', h3) := steps report log (objectData, h2) in
        let (cleanedArrayData, h4) :=
          allocTable (toArrays (headers st) objectData') h3 in
        let st2 := setCleanedData cleanedArrayData st1 in
        let st3 := setCleaningLog log st2 in
        let st4 := setIsLoading false st3 in
        (st4, push log (entry CleaningComplete success) h4)
  end.


(** The component after an upload: the parsed rows are in the store,
    [cleanedData] and [cleaningLog] still hold their initial empty
    arrays. *)
Definition mount (data : list (list cell)) (hs : list string)
           (report : option Issues) : AppState * heap :=
  let (table, h) := allocTable data [BTable []; BLog []] in
  ({| csvData := table; headers := hs; issues := report;
      cleanedData := 0; cleaningLog := 1; isLoading := false |}, h).

Definition cleanedTable (r : AppState * heap) : list (list cell) :=
  loadTable (snd r) (cleanedData (fst r)).

Definition logOf (r : AppState * heap) : list CleaningLog :=
  readLog (snd r) (cleaningLog (fst r)).

(** Detection followed by cleaning, as the page runs them. *)
Definition clean (data : list (list cell)) (hs : list string)
  : AppState * heap :=
  let (st, h) := mount data hs (Some (detectIssues data hs)) in
  cleanData st h.

(** *** downloadCSV

    The text handed to the [Blob]: the header row and the cleaned rows,
    every cell between double quotes, cells joined by commas and lines by
    line feeds. *)

Definition quote : string := String (ascii_of_nat 34) EmptyString.
Definition comma : string := String (ascii_of_nat 44) EmptyString.
Definition lineFeed : string := String (ascii_of_nat 10) EmptyString.

(** [array.join(separator)] *)
Fixpoint join (separator : string) (array : list string) : string :=
  match array with
  | [] => EmptyString
  | [x] => x
  | x :: r => String.append x (String.append separator (join separator r))
  end.

(** The template literal with [cell ?? '']: the text of the cell, the
    empty text for [undefined]. *)
Definition quoted (c : cell) : string :=
  String.append quote
    (String.append (match c with
                    | Some v => toString v
                    | None => EmptyString
                    end) quote).

Definition csvLine (row : list cell) : string :=
  join comma (map quoted row).

Definition csvContent (hs : list string) (cleaned : list (list cell))
  : string :=
  join lineFeed (map csvLine (texts hs :: cleaned)).

Definition downloadCSV (st : AppState) (h : heap) : string :=
  csvContent (headers st) (loadTable h (cleanedData st)).

(** [s.includes(c)] for a character. *)
Fixpoint hasChar (a : ascii) (s : string) : bool :=
  match s with
  | EmptyString => false
  | String c r => Ascii.eqb c a || hasChar a r
  end.

(** No cell of the row, respectively of the table, contains a double
    quote. *)
Definition quoteFreeRow (row : list cell) : Prop :=
  Forall (fun c => hasChar (ascii_of_nat 34) (textOf c) = false) row.

Definition quoteFreeTable (table : list (list cell)) : Prop :=
  Forall quoteFreeRow table.

(** What follows a cell, respectively a line. *)
Definition afterCell (r : list cell) : string :=
  match r with
  | [] => EmptyString
  | _ => String (ascii_of_nat 44) (csvLine r)
  end.

Definition afterLine (rs : list (list cell)) : string :=
  match rs with
  | [] => EmptyString
  | _ => String (ascii_of_nat 10) (join lineFeed (map csvLine rs))
  end.

(** A line ends at the end of the text or at a line feed. *)
Definition lineEnd (t : string) : Prop :=
  t = EmptyString \/ exists t', t = String (ascii_of_nat 10) t'.

(** *** generatePDF

    The calls made on the [jsPDF] document, in order.  The date of the
    day is a parameter. *)

Inductive pdfText : Type :=
| ReportTitle
| GeneratedOn (date : string)
| OriginalRows (n : nat)
| CleanedRows (n : nat)
| ColumnCount (n : nat)
| SummaryHeading
| LogLine (m : message).

Inductive pdfCall : Type :=
| SetFontSize (size : nat)
| Text (t : pdfText) (x y : nat)
| AddPage
| Save (name : string).

(** [cleaningLog.forEach]: a new page once [yPos] has passed 270. *)
Fixpoint logLines (yPos : nat) (log : list CleaningLog) : list pdfCall :=
  match log with
  | [] => []
  | entry0 :: r =>
      if 270 <? yPos
      then AddPage :: Text (LogLine (text entry0)) 25 20 :: logLines (20 + 8) r
      else Text (LogLine (text entry0)) 25 yPos :: logLines (yPos + 8) r
  end.

Definition generatePDF (date : string) (st : AppState) (h : heap)
  : list pdfCall :=
  [SetFontSize 20;
   Text ReportTitle 20 30;
   SetFontSize 12;
   Text (GeneratedOn date) 20 50;
   Text (OriginalRows (List.length (readTable h (csvData st)))) 20 70;
   Text (CleanedRows (List.length (readTable h (cleanedData st)))) 20 80;
   Text (ColumnCount (List.length (headers st))) 20 90;
   Text SummaryHeading 20 110]
  ++ logLines (110 + 10) (readLog h (cleaningLog st))
  ++ [Save "autoclean-report.pdf"].

(** The log lines a trace prints, in order. *)
Definition printedLog (calls : list pdfCall) : list message :=
  flat_map (fun c => match c with
                     | Text (LogLine m) _ _ => [m]
                     | _ => []
                     end) calls.

(** Every text of the trace is placed between the lines 20 and 270. *)
Definition withinPage (c : pdfCall) : Prop :=
  match c with
  | Text _ _ y => 20 <= y /\ y <= 270
  | _ => True
  end.

(** *** The analysis page *)

Definition getDataForAnalysis (st : AppState) (h : heap) : list rowObject :=
  toObjects (headers st)
            (if 0 <? List.length (readTable h (cleanedData st))
             then loadTable h (cleanedData st)
             else loadTable h (csvData st)).

(** [analysisData.map(row => row[selectedColumn]).filter(val => val)] *)
Fixpoint truthyValues (cells : list cell) : list value :=
  match cells with
  | [] => []
  | Some v :: r => if truthy v then v :: truthyValues r else truthyValues r
  | None :: r => truthyValues r
  end.

(** [Object.entries(counts).sort(([, a], [, b]) => b - a)]: a stable sort
    by descending count. *)
Fixpoint insertByCount (x : string * nat) (l : list (string * nat))
  : list (string * nat) :=
  match l with
  | [] => [x]
  | y :: r => if snd y <=? snd x then x :: l else y :: insertByCount x r
  end.

Fixpoint sortByCount (l : list (string * nat)) : list (string * nat) :=
  match l with
  | [] => []
  | x :: r => insertByCount x (sortByCount r)
  end.

(** The order of [sort(([,a], [,b]) => b - a)]. *)
Definition byCount (a b : string * nat) : Prop := snd b <= snd a.

(** [Object.entries(o)] for an object whose values are all present. *)
Definition entriesOf (o : JsObject.t nat) : list (string * nat) :=
  flat_map (fun k => match JsObject.get k o with
                     | Some n => [(k, n)]
                     | None => []
                     end) (JsObject.ownKeys o).

(** What the page shows for the selected column: count, mean, min and
    max when some value parses as a number (the mean before its
    rendering with two decimals), the five most frequent values
    otherwise. *)
Inductive columnSummary : Type :=
| NumericSummary (count : nat) (mean : JsNumber.number)
                 (minimum maximum : option JsNumber.number)
| TopValues (top : list (string * nat)).

Definition analyzeColumn (selectedColumn : string)
           (analysisData : list rowObject) : columnSummary :=
  let columnData := truthyValues (column selectedColumn analysisData) in
  let numericData :=
    keepNumbers (map (fun v => parseNumber (toString v)) columnData) in
  if 0 <? List.length numericData
  then NumericSummary (List.length columnData) (Lodash.mean numericData)
                      (Lodash.min numericData) (Lodash.max numericData)
  else
    let valueCounts := Lodash.countBy (map toString columnData) in
    TopValues (firstn 5 (sortByCount (entriesOf valueCounts))).

(** *** The steps without the store

    What the steps compute on [objectData] and which entries they push,
    stated apart from the store; [steps_run] relates them to [steps]. *)

Definition dedupData (report : Issues) (objectData : list rowObject)
  : list rowObject :=
  if 0 <? duplicates report then uniqueRows objectData else objectData.

Definition dedupEntries (report : Issues) (objectData : list rowObject)
  : list CleaningLog :=
  if 0 <? duplicates report
  then [entry (RemovedDuplicateRows
                 (List.length objectData
                  - List.length (uniqueRows objectData))) success]
  else [].

Definition whitespaceData (cols : list string) (objectData : list rowObject)
  : list rowObject :=
  fold_left (fun od c => setColumn c normalized od) cols objectData.

Definition whitespaceEntries (cols : list string) : list CleaningLog :=
  map (fun c => entry (FixedWhitespace c) success) cols.

Definition zerosData (cols : list string) (objectData : list rowObject)
  : list rowObject :=
  fold_left (fun od c => setColumn c (padded (maxLength c od)) od)
            cols objectData.

Definition zerosEntries (cols : list string) : list CleaningLog :=
  map (fun c => entry (RestoredLeadingZeros c) success) cols.

Definition fillColumn (c : string) (objectData : list rowObject)
  : list rowObject :=
  let vals := nonEmpty (column c objectData) in
  if 0 <? List.length vals
  then setColumn c (filled (fillValueOf vals)) objectData
  else objectData.

Definition fillData (cols : list string) (objectData : list rowObject)
  : list rowObject :=
  fold_left (fun od c => fillColumn c od) cols objectData.

Fixpoint fillEntries (report : Issues) (cols : list string)
         (objectData : list rowObject) : list CleaningLog :=
  match cols with
  | [] => []
  | c :: rest =>
      (if 0 <? List.length (nonEmpty (column c objectData))
       then [entry (FilledMissingValues (JsObject.get c (missing report)) c)
                   success]
       else [])
      ++ fillEntries report rest (fillColumn c objectData)
  end.

(** [objectData] when the imputation step starts. *)
Definition beforeFill (report : Issues) (objectData : list rowObject)
  : list rowObject :=
  zerosData (JsObject.ownKeys (leadingZeros report))
    (whitespaceData (JsObject.ownKeys (whitespace report))
       (dedupData report objectData)).

(** [objectData] when the leading-zero step starts. *)
Definition beforeZeros (report : Issues) (objectData : list rowObject)
  : list rowObject :=
  whitespaceData (JsObject.ownKeys (whitespace report))
    (dedupData report objectData).

Definition stepsData (report : Issues) (objectData : list rowObject)
  : list rowObject :=
  fillData (JsObject.ownKeys (missing report)) (beforeFill report objectData).

Definition stepsEntries (report : Issues) (objectData : list rowObject)
  : list CleaningLog :=
  dedupEntries report objectData
  ++ whitespaceEntries (JsObject.ownKeys (whitespace report))
  ++ zerosEntries (JsObject.ownKeys (leadingZeros report))
  ++ fillEntries report (JsObject.ownKeys (missing report))
       (beforeFill report objectData).

Definition pushAll (log : addr) (es : list CleaningLog) (h : heap) : heap :=
  fold_left (fun h e => push log e h) es h.

(** A table reference and the rows it lists are allocated. *)
Definition validTable (h : heap) (a : addr) : Prop :=
  a < List.length h /\ Forall (fun r => r < List.length h) (readTable h a).

(** The report flags no issue. *)
Definition noIssues (report : Issues) : Prop :=
  duplicates report = 0
  /\ whitespace report = []
  /\ leadingZeros report = []
  /\ missing report = [].

(** The keys of a report object are distinct. *)
Definition distinctKeys {V : Type} (o : JsObject.t V) : Prop :=
  NoDup (map fst o).

(** The run of [cleanData] when it does not return early. *)
Definition resultStore (st : AppState) (h : heap) (report : Issues) : heap :=
  let rows := readTable h (csvData st) in
  let objectData := toObjects (headers st) (loadTable h (csvData st)) in
  let log := S (List.length h) in
  let h3 := pushAll log (stepsEntries report objectData)
                    (h ++ [BTable rows; BLog []]) in
  push log (entry CleaningComplete success)
       (snd (allocTable (toArrays (headers st) (stepsData report objectData))
                        h3)).

(** *** Columns of cells

    What each per-column step does to the cells of its column. *)

Definition widest (cells : list cell) : nat :=
  fold_right Nat.max 0 (map (fun x => String.length (textOf x)) cells).

Definition normalizeCells (cells : list cell) : list cell :=
  map (fun x => Some (normalized x)) cells.

Definition padCells (cells : list cell) : list cell :=
  map (fun x => Some (padded (widest cells) x)) cells.

Definition fillCells (cells : list cell) : list cell :=
  if 0 <? List.length (nonEmpty cells)
  then map (fun x => Some (filled (fillValueOf (nonEmpty cells)) x)) cells
  else cells.

(** The cells at position [index] of the rows of a table. *)
Definition tableColumn (index : nat) (table : list (list cell)) : list cell :=
  map (fun row => cellAt row index) table.

(** The text of the cell is empty or white space only. *)
Definition blankCell (c : cell) : bool :=
  JsString.isEmpty (JsString.trim (textOf c)).

(** The cell holds text, as every cell of a parsed file does. *)
Definition textCell (c : cell) : Prop := exists s, c = Some (VStr s).

(** Every cell of the table holds text. *)
Definition textTable (data : list (list cell)) : Prop :=
  Forall (Forall textCell) data.

(** ** Properties *)

(** *** The store *)

Lemma store_length (a : addr) (b : block) (h : heap) :
  List.length (store a b h) = List.length h.
Proof.
  revert a; induction h as [|x r IH]; intros [|a]; simpl; auto.
Qed.

Lemma store_other (a a' : addr) (b : block) (h : heap) :
  a <> a' -> nth_error (store a b h) a' = nth_error h a'.
Proof.
  revert a a'; induction h as [|x r IH]; intros [|a] [|a'] Hne; simpl; auto;
    try congruence.
Qed.

Lemma store_same (a : addr) (b : block) (h : heap) :
  a < List.length h -> nth_error (store a b h) a = Some b.
Proof.
  revert a; induction h as [|x r IH]; intros [|a] Hlt; simpl in *;
    try lia; auto.
  apply IH; lia.
Qed.

Lemma push_length (log : addr) (e : CleaningLog) (h : heap) :
  List.length (push log e h) = List.length h.
Proof. apply store_length. Qed.

Lemma push_other (log a : addr) (e : CleaningLog) (h : heap) :
  log <> a -> nth_error (push log e h) a = nth_error h a.
Proof. apply store_other. Qed.

Lemma push_log (log : addr) (e : CleaningLog) (h : heap) :
  log < List.length h -> readLog (push log e h) log = readLog h log ++ [e].
Proof.
  intros Hlt; unfold readLog at 1, push.
  now rewrite store_same.
Qed.

Lemma pushAll_length (log : addr) (es : list CleaningLog) (h : heap) :
  List.length (pushAll log es h) = List.length h.
Proof.
  unfold pushAll; revert h; induction es as [|e es IH]; intros h; simpl; auto.
  rewrite IH; apply push_length.
Qed.

Lemma pushAll_other (log a : addr) (es : list CleaningLog) (h : heap) :
  log <> a -> nth_error (pushAll log es h) a = nth_error h a.
Proof.
  intros Hne; unfold pushAll; revert h.
  induction es as [|e es IH]; intros h; simpl; auto.
  rewrite IH; now apply push_other.
Qed.

Lemma pushAll_log (log : addr) (es : list CleaningLog) (h : heap) :
  log < List.length h -> readLog (pushAll log es h) log = readLog h log ++ es.
Proof.
  unfold pushAll; revert h; induction es as [|e es IH]; intros h Hlt; simpl.
  - now rewrite app_nil_r.
  - rewrite IH by (now rewrite push_length).
    rewrite push_log by assumption.
    now rewrite <- app_assoc.
Qed.

Lemma pushAll_app (log : addr) (es1 es2 : list CleaningLog) (h : heap) :
  pushAll log (es1 ++ es2) h = pushAll log es2 (pushAll log es1 h).
Proof. apply fold_left_app. Qed.

(** *** The steps and their store-free views *)

Lemma removeDuplicates_run report log od h :
  removeDuplicates report log (od, h)
  = (dedupData report od, pushAll log (dedupEntries report od) h).
Proof.
  unfold removeDuplicates, dedupData, dedupEntries.
  destruct (0 <? duplicates report); reflexivity.
Qed.

Lemma fixWhitespace_run log cols od h :
  fold_left (fixWhitespaceIn log) cols (od, h)
  = (whitespaceData cols od, pushAll log (whitespaceEntries cols) h).
Proof.
  revert od h; induction cols as [|c cols IH]; intros od h; simpl;
    [reflexivity | apply IH].
Qed.

Lemma restoreLeadingZeros_run log cols od h :
  fold_left (restoreLeadingZerosIn log) cols (od, h)
  = (zerosData cols od, pushAll log (zerosEntries cols) h).
Proof.
  revert od h; induction cols as [|c cols IH]; intros od h; simpl;
    [reflexivity | apply IH].
Qed.

Lemma fillMissing_run report log cols od h :
  fold_left (fillMissingIn report log) cols (od, h)
  = (fillData cols od, pushAll log (fillEntries report cols od) h).
Proof.
  revert od h; induction cols as [|c cols IH]; intros od h; simpl; auto.
  unfold fillColumn at 1, column.
  destruct (0 <? List.length (nonEmpty (map (property c) od))) eqn:E.
  - rewrite IH. unfold fillColumn, column. rewrite E. reflexivity.
  - rewrite IH. unfold fillColumn, column. rewrite E. reflexivity.
Qed.

Lemma steps_run report log od h :
  steps report log (od, h)
  = (stepsData report od, pushAll log (stepsEntries report od) h).
Proof.
  unfold steps, stepsData, stepsEntries, beforeFill,
    fillMissing, restoreLeadingZeros, fixWhitespace.
  rewrite removeDuplicates_run, fixWhitespace_run,
    restoreLeadingZeros_run, fillMissing_run.
  now rewrite !pushAll_app.
Qed.

Lemma allocRows_eq (rows : list (list cell)) (h : heap) :
  allocRows rows h
  = (seq (List.length h) (List.length rows), h ++ map BRow rows).
Proof.
  revert h; induction rows as [|cells rest IH]; intros h; simpl.
  - now rewrite app_nil_r.
  - rewrite IH. rewrite length_app, <- app_assoc. simpl.
    now replace (List.length h + 1) with (S (List.length h)) by lia.
Qed.

Lemma allocTable_eq (rows : list (list cell)) (h : heap) :
  allocTable rows h
  = (List.length h + List.length rows,
     h ++ map BRow rows ++ [BTable (seq (List.length h) (List.length rows))]).
Proof.
  unfold allocTable. rewrite allocRows_eq. unfold alloc.
  now rewrite length_app, length_map, <- app_assoc.
Qed.

Lemma readRow_rows (rows : list (list cell)) (h t : heap) :
  map (readRow (h ++ map BRow rows ++ t))
      (seq (List.length h) (List.length rows)) = rows.
Proof.
  revert h; induction rows as [|cells rest IH]; intros h; simpl; auto.
  f_equal.
  - unfold readRow. rewrite nth_error_app2 by lia.
    now rewrite Nat.sub_diag.
  - specialize (IH (h ++ [BRow cells])).
    rewrite length_app, <- app_assoc in IH. simpl in IH.
    now replace (List.length h + 1) with (S (List.length h)) in IH by lia.
Qed.

Lemma loadTable_allocTable (rows : list (list cell)) (h : heap) :
  loadTable (snd (allocTable rows h)) (fst (allocTable rows h)) = rows.
Proof.
  rewrite allocTable_eq. simpl. unfold loadTable, readTable.
  rewrite nth_error_app2 by lia.
  rewrite nth_error_app2 by (rewrite length_map; lia).
  replace (List.length h + List.length rows - List.length h
           - List.length (map BRow rows)) with 0
    by (rewrite length_map; lia).
  simpl. apply readRow_rows.
Qed.

(** Reading a row through a store extended by blocks that are not rows
    of the table gives the same cells. *)
Lemma readRow_scratch (h : heap) (rows : list addr)
      (entries : list CleaningLog) (a : addr) :
  readRow (h ++ [BTable rows; BLog entries]) a = readRow h a.
Proof.
  unfold readRow.
  destruct (Nat.lt_ge_cases a (List.length h)) as [Hlt|Hge].
  - now rewrite nth_error_app1.
  - rewrite nth_error_app2 by assumption.
    replace (nth_error h a) with (@None block)
      by (symmetry; now apply nth_error_None).
    destruct (a - List.length h) as [|[|[|n]]]; reflexivity.
Qed.

Lemma cleanData_eq (st : AppState) (h : heap) (report : Issues) :
  issues st = Some report ->
  readTable h (csvData st) <> [] ->
  cleanData st h
  = ({| csvData := csvData st; headers := headers st; issues := issues st;
        cleanedData :=
          List.length h + 2
          + List.length (stepsData report
                           (toObjects (headers st)
                                      (loadTable h (csvData st))));
        cleaningLog := S (List.length h);
        isLoading := false |},
     resultStore st h report).
Proof.
  intros Hrep Hrows. unfold cleanData, resultStore. rewrite Hrep.
  destruct (readTable h (csvData st)) as [|r0 rs] eqn:Hr; [congruence|].
  cbn [List.length Nat.eqb]. unfold alloc.
  rewrite length_app. cbn [List.length].
  replace (List.length h + 1) with (S (List.length h)) by lia.
  rewrite <- app_assoc. cbn [app].
  assert (Hload : loadTable (h ++ [BTable (r0 :: rs); BLog []])
                            (List.length h)
                  = loadTable h (csvData st)).
  { unfold loadTable. unfold readTable at 1.
    rewrite nth_error_app2 by lia. rewrite Nat.sub_diag. cbn [nth_error].
    rewrite Hr. apply map_ext. intros a. apply readRow_scratch. }
  rewrite Hload, steps_run.
  rewrite allocTable_eq. cbn [fst snd].
  unfold setIsLoading, setCleaningLog, setCleanedData.
  cbn [csvData headers issues cleanedData cleaningLog isLoading].
  rewrite pushAll_length, length_app. cbn [List.length].
  unfold toArrays at 1. rewrite length_map.
  rewrite Hrep. do 2 f_equal; try lia.
Qed.

Lemma loadTable_push (log a : addr) (e : CleaningLog) (h : heap) :
  log <> a -> ~ In log (readTable h a) ->
  loadTable (push log e h) a = loadTable h a.
Proof.
  intros Hne Hnin. unfold loadTable, readTable.
  rewrite push_other by assumption.
  fold (readTable h a). apply map_ext_in. intros r Hr.
  unfold readRow. rewrite push_other; [reflexivity|].
  intros ->. now apply Hnin.
Qed.

Section CleanDataRun.

Variables (st : AppState) (h : heap) (report : Issues).
Hypothesis Hreport : issues st = Some report.
Hypothesis Hrows : readTable h (csvData st) <> [].

Let objectData := toObjects (headers st) (loadTable h (csvData st)).

Lemma cleanData_table :
  cleanedTable (cleanData st h)
  = toArrays (headers st) (stepsData report objectData).
Proof.
  unfold cleanedTable. rewrite (cleanData_eq st h report Hreport Hrows).
  cbn [fst snd cleanedData]. unfold resultStore. fold objectData.
  set (h3 := pushAll _ _ _).
  set (rows := toArrays _ _).
  assert (Hlen : List.length h3 = List.length h + 2).
  { unfold h3. rewrite pushAll_length, length_app. reflexivity. }
  assert (Hfst : fst (allocTable rows h3)
                 = List.length h + 2
                   + List.length (stepsData report objectData)).
  { rewrite allocTable_eq. cbn [fst]. rewrite Hlen.
    unfold rows, toArrays. now rewrite length_map. }
  rewrite <- Hfst. rewrite loadTable_push.
  - apply loadTable_allocTable.
  - rewrite Hfst. lia.
  - rewrite allocTable_eq. cbn [fst snd]. unfold readTable.
    rewrite nth_error_app2 by lia.
    rewrite nth_error_app2 by (rewrite length_map; lia).
    replace (List.length h3 + List.length rows - List.length h3
             - List.length (map BRow rows)) with 0
      by (rewrite length_map; lia).
    cbn [nth_error]. rewrite in_seq. lia.
Qed.

Lemma cleanData_log :
  logOf (cleanData st h)
  = stepsEntries report objectData ++ [entry CleaningComplete success].
Proof.
  unfold logOf. rewrite (cleanData_eq st h report Hreport Hrows).
  cbn [fst snd cleaningLog]. unfold resultStore. fold objectData.
  set (h3 := pushAll _ _ _).
  assert (Hlen : List.length h3 = List.length h + 2).
  { unfold h3. rewrite pushAll_length, length_app. reflexivity. }
  rewrite push_log.
  2:{ rewrite allocTable_eq. cbn [snd]. rewrite length_app. lia. }
  f_equal. rewrite allocTable_eq. cbn [snd].
  unfold readLog at 1. rewrite nth_error_app1 by lia.
  fold (readLog h3 (S (List.length h))). unfold h3.
  rewrite pushAll_log by (rewrite length_app; cbn [List.length]; lia).
  unfold readLog. rewrite nth_error_app2 by lia.
  replace (S (List.length h) - List.length h) with 1 by lia.
  reflexivity.
Qed.

Lemma cleanData_frame (a : addr) :
  a < List.length h ->
  nth_error (snd (cleanData st h)) a = nth_error h a.
Proof.
  intros Ha. rewrite (cleanData_eq st h report Hreport Hrows).
  cbn [snd]. unfold resultStore.
  rewrite push_other by lia.
  rewrite allocTable_eq. cbn [snd].
  rewrite nth_error_app1
    by (rewrite pushAll_length, length_app; lia).
  rewrite pushAll_other by lia.
  now rewrite nth_error_app1.
Qed.

Lemma cleanData_fresh :
  List.length h <= cleanedData (fst (cleanData st h))
  /\ Forall (fun r => List.length h <= r)
            (readTable (snd (cleanData st h))
                       (cleanedData (fst (cleanData st h))))
  /\ List.length h <= cleaningLog (fst (cleanData st h)).
Proof.
  rewrite (cleanData_eq st h report Hreport Hrows).
  cbn [fst snd cleanedData cleaningLog]. unfold resultStore.
  fold objectData.
  set (h3 := pushAll _ _ _).
  set (rows := toArrays _ _).
  assert (Hlen : List.length h3 = List.length h + 2).
  { unfold h3. rewrite pushAll_length, length_app. reflexivity. }
  assert (Hrl : List.length rows = List.length (stepsData report objectData)).
  { unfold rows, toArrays. now rewrite length_map. }
  split; [lia|]. split; [|lia].
  unfold readTable. rewrite push_other by lia.
  rewrite allocTable_eq. cbn [snd].
  rewrite nth_error_app2 by lia.
  rewrite nth_error_app2 by (rewrite length_map; lia).
  replace (List.length h + 2 + List.length (stepsData report objectData)
           - List.length h3 - List.length (map BRow rows)) with 0
    by (rewrite length_map; lia).
  cbn [nth_error]. apply Forall_forall. intros r Hr.
  apply in_seq in Hr. lia.
Qed.

End CleanDataRun.

(** *** Objects and their keys *)

Lemma get_set {V : Type} (c c' : string) (v : V) (o : JsObject.t V) :
  JsObject.get c (JsObject.set c' v o)
  = if String.eqb c c' then Some v else JsObject.get c o.
Proof.
  induction o as [|[k w] r IH]; simpl.
  - destruct (String.eqb c c'); reflexivity.
  - destruct (String.eqb c' k) eqn:E1; simpl.
    + apply String.eqb_eq in E1; subst k.
      destruct (String.eqb c c'); reflexivity.
    + destruct (String.eqb c k) eqn:E2.
      * apply String.eqb_eq in E2; subst k.
        rewrite String.eqb_sym, E1. reflexivity.
      * exact IH.
Qed.

Lemma get_set_same {V : Type} (c : string) (v : V) (o : JsObject.t V) :
  JsObject.get c (JsObject.set c v o) = Some v.
Proof. now rewrite get_set, String.eqb_refl. Qed.

Lemma get_set_other {V : Type} (c c' : string) (v : V) (o : JsObject.t V) :
  c <> c' -> JsObject.get c (JsObject.set c' v o) = JsObject.get c o.
Proof.
  intros Hne. rewrite get_set.
  destruct (String.eqb c c') eqn:E; [|reflexivity].
  apply String.eqb_eq in E; contradiction.
Qed.

Lemma get_In {V : Type} (c : string) (o : JsObject.t V) :
  JsObject.get c o <> None <-> In c (map fst o).
Proof.
  induction o as [|[k w] r IH]; simpl.
  - tauto.
  - destruct (String.eqb c k) eqn:E.
    + apply String.eqb_eq in E. subst. split; [auto|congruence].
    + apply String.eqb_neq in E. rewrite IH. split; [auto|].
      intros [H|H]; [congruence|assumption].
Qed.

Lemma insertIndex_perm (x : N * string) (l : list (N * string)) :
  Permutation (JsObject.insertIndex x l) (x :: l).
Proof.
  induction l as [|y r IH]; simpl; [reflexivity|].
  destruct (fst x <=? fst y)%N; [reflexivity|].
  rewrite IH. apply perm_swap.
Qed.

Lemma orderKeys_perm (ks : list string) :
  Permutation (JsObject.orderKeys ks) ks.
Proof.
  unfold JsObject.orderKeys.
  induction ks as [|k r IH]; simpl; [reflexivity|].
  unfold JsObject.isIndexKey.
  destruct (JsObject.arrayIndex k) as [n|]; simpl.
  - rewrite insertIndex_perm. simpl. now apply perm_skip.
  - rewrite <- Permutation_middle. now apply perm_skip.
Qed.

Lemma ownKeys_In {V : Type} (c : string) (o : JsObject.t V) :
  In c (JsObject.ownKeys o) <-> JsObject.get c o <> None.
Proof.
  rewrite get_In. unfold JsObject.ownKeys.
  split; apply Permutation_in;
    [apply orderKeys_perm | symmetry; apply orderKeys_perm].
Qed.

Lemma ownKeys_NoDup {V : Type} (o : JsObject.t V) :
  distinctKeys o -> NoDup (JsObject.ownKeys o).
Proof.
  unfold distinctKeys, JsObject.ownKeys. intros H.
  eapply Permutation_NoDup; [symmetry; apply orderKeys_perm|exact H].
Qed.

(** *** Reading a row *)

Lemma property_own (c : string) (row : rowObject) (v : value) :
  JsObject.get c row = Some v -> property c row = Some v.
Proof. intros H. unfold property. now rewrite H. Qed.

Lemma property_ordinary (c : string) (row : rowObject) :
  c <> "__proto__" -> property c row = JsObject.get c row.
Proof.
  intros H. unfold property. destruct (JsObject.get c row); [reflexivity|].
  now replace (String.eqb c "__proto__") with false
    by (symmetry; now apply String.eqb_neq).
Qed.

Lemma property_inherited (row : rowObject) :
  JsObject.get "__proto__" row = None ->
  property "__proto__" row = Some VProto.
Proof. intros H. unfold property. now rewrite H. Qed.

Lemma property_set_same (c : string) (v : value) (row : rowObject) :
  property c (JsObject.set c v row) = Some v.
Proof. apply property_own, get_set_same. Qed.

Lemma property_set_other (c c' : string) (v : value) (row : rowObject) :
  c <> c' -> property c (JsObject.set c' v row) = property c row.
Proof.
  intros H. unfold property. now rewrite get_set_other.
Qed.

(** A property that is read is defined unless the row has no such
    property and the key is not [__proto__]. *)
Lemma property_None (c : string) (row : rowObject) :
  property c row = None
  <-> JsObject.get c row = None /\ c <> "__proto__".
Proof.
  unfold property. destruct (JsObject.get c row) as [v|].
  - split; [discriminate|]. intros [H _]. discriminate.
  - destruct (String.eqb c "__proto__") eqn:E.
    + apply String.eqb_eq in E. split; [discriminate|]. intros [_ H].
      contradiction.
    + apply String.eqb_neq in E. split; auto.
Qed.

(** *** Columns *)

Lemma column_setColumn_same c f od :
  column c (setColumn c f od) = map (fun x => Some (f x)) (column c od).
Proof.
  unfold column, setColumn. rewrite !map_map.
  apply map_ext. intros row. apply property_set_same.
Qed.

Lemma column_setColumn_other c c' f od :
  c <> c' -> column c (setColumn c' f od) = column c od.
Proof.
  intros Hne. unfold column, setColumn. rewrite map_map.
  apply map_ext. intros row. now apply property_set_other.
Qed.

Lemma setColumn_length c f od :
  List.length (setColumn c f od) = List.length od.
Proof. apply length_map. Qed.

(** A fold of per-column steps leaves a column alone unless the column
    is among the folded ones, and then changes it exactly once. *)
Section ColumnFold.

Variable step : string -> list rowObject -> list rowObject.
Variable change : list cell -> list cell.
Hypothesis step_other :
  forall c c' od, c <> c' -> column c (step c' od) = column c od.
Hypothesis step_same :
  forall c od, column c (step c od) = change (column c od).

Lemma fold_column_other c cols od :
  ~ In c cols ->
  column c (fold_left (fun od c' => step c' od) cols od) = column c od.
Proof.
  revert od; induction cols as [|c' cols IH]; intros od Hnin; simpl; auto.
  rewrite IH by (intros H; apply Hnin; now right).
  apply step_other. intros ->. apply Hnin. now left.
Qed.

Lemma fold_column_same c cols od :
  NoDup cols -> In c cols ->
  column c (fold_left (fun od c' => step c' od) cols od)
  = change (column c od).
Proof.
  revert od; induction cols as [|c' cols IH]; intros od Hnd Hin; simpl.
  - contradiction.
  - inversion Hnd as [|? ? Hnotin Hnd']; subst.
    destruct Hin as [->|Hin].
    + rewrite fold_column_other by assumption. apply step_same.
    + rewrite IH by assumption. f_equal. apply step_other.
      intros ->. contradiction.
Qed.

End ColumnFold.

Lemma maxLength_column c od : maxLength c od = widest (column c od).
Proof. unfold maxLength, widest, column. now rewrite map_map. Qed.

Lemma column_whitespaceData_other c cols od :
  ~ In c cols -> column c (whitespaceData cols od) = column c od.
Proof.
  apply (fold_column_other (fun c od => setColumn c normalized od)).
  intros; now apply column_setColumn_other.
Qed.

Lemma column_whitespaceData_same c cols od :
  NoDup cols -> In c cols ->
  column c (whitespaceData cols od) = normalizeCells (column c od).
Proof.
  apply (fold_column_same (fun c od => setColumn c normalized od)
                          normalizeCells).
  - intros; now apply column_setColumn_other.
  - intros; apply column_setColumn_same.
Qed.

Lemma column_zerosData_other c cols od :
  ~ In c cols -> column c (zerosData cols od) = column c od.
Proof.
  apply (fold_column_other
           (fun c od => setColumn c (padded (maxLength c od)) od)).
  intros; now apply column_setColumn_other.
Qed.

Lemma column_zerosData_same c cols od :
  NoDup cols -> In c cols ->
  column c (zerosData cols od) = padCells (column c od).
Proof.
  apply (fold_column_same
           (fun c od => setColumn c (padded (maxLength c od)) od) padCells).
  - intros; now apply column_setColumn_other.
  - intros c0 od0. rewrite column_setColumn_same, maxLength_column.
    reflexivity.
Qed.

Lemma column_fillColumn_other c c' od :
  c <> c' -> column c (fillColumn c' od) = column c od.
Proof.
  intros Hne. unfold fillColumn.
  destruct (0 <? _); [now apply column_setColumn_other|reflexivity].
Qed.

Lemma column_fillColumn_same c od :
  column c (fillColumn c od) = fillCells (column c od).
Proof.
  unfold fillColumn, fillCells.
  destruct (0 <? _); [apply column_setColumn_same|reflexivity].
Qed.

Lemma column_fillData_other c cols od :
  ~ In c cols -> column c (fillData cols od) = column c od.
Proof.
  apply (fold_column_other fillColumn).
  intros; now apply column_fillColumn_other.
Qed.

Lemma column_fillData_same c cols od :
  NoDup cols -> In c cols ->
  column c (fillData cols od) = fillCells (column c od).
Proof.
  apply (fold_column_same fillColumn fillCells).
  - intros; now apply column_fillColumn_other.
  - intros; apply column_fillColumn_same.
Qed.

Lemma whitespaceData_length cols od :
  List.length (whitespaceData cols od) = List.length od.
Proof.
  revert od; induction cols as [|c cols IH]; intros od; simpl; auto.
  unfold whitespaceData in IH. rewrite IH. apply setColumn_length.
Qed.

Lemma zerosData_length cols od :
  List.length (zerosData cols od) = List.length od.
Proof.
  revert od; induction cols as [|c cols IH]; intros od; simpl; auto.
  unfold zerosData in IH. rewrite IH. apply setColumn_length.
Qed.

Lemma fillColumn_length c od :
  List.length (fillColumn c od) = List.length od.
Proof.
  unfold fillColumn. destruct (0 <? _); [apply setColumn_length|reflexivity].
Qed.

Lemma fillData_length cols od :
  List.length (fillData cols od) = List.length od.
Proof.
  revert od; induction cols as [|c cols IH]; intros od; simpl; auto.
  unfold fillData in IH. rewrite IH. apply fillColumn_length.
Qed.

Lemma tableColumn_toArrays (hs : list string) (index : nat) (c : string)
      (od : list rowObject) :
  nth_error hs index = Some c ->
  tableColumn index (toArrays hs od) = column c od.
Proof.
  intros Hc. unfold tableColumn, toArrays, column. rewrite map_map.
  apply map_ext. intros row. unfold cellAt.
  rewrite nth_error_map, Hc. reflexivity.
Qed.

(** *** Strings *)

Lemma isEmpty_true (s : string) : JsString.isEmpty s = true <-> s = "".
Proof. destruct s; simpl; split; congruence. Qed.

Lemma trimEnd_empty (s : string) :
  JsString.trimEnd s = "" <-> JsString.allWhiteSpace s = true.
Proof.
  induction s as [|c r IH]; simpl; [tauto|].
  destruct (JsString.trimEnd r) eqn:E.
  - destruct (JsString.isWhiteSpace c); simpl.
    + now rewrite <- IH.
    + split; congruence.
  - split; [congruence|].
    intros H. apply andb_true_iff in H. destruct H as [_ H].
    apply IH in H. congruence.
Qed.

Lemma trimStart_head (s : string) :
  match JsString.trimStart s with
  | EmptyString => JsString.allWhiteSpace s = true
  | String c _ => JsString.isWhiteSpace c = false
  end.
Proof.
  induction s as [|c r IH]; simpl; [reflexivity|].
  destruct (JsString.isWhiteSpace c) eqn:E; simpl.
  - destruct (JsString.trimStart r); assumption.
  - assumption.
Qed.

Lemma trimStart_allWhiteSpace (s : string) :
  JsString.allWhiteSpace s = true -> JsString.trimStart s = "".
Proof.
  induction s as [|c r IH]; simpl; [reflexivity|].
  intros H. apply andb_true_iff in H. destruct H as [H1 H2].
  rewrite H1. auto.
Qed.

Lemma trim_empty (s : string) :
  JsString.trim s = "" <-> JsString.allWhiteSpace s = true.
Proof.
  unfold JsString.trim. split.
  - intros H. pose proof (trimStart_head s) as Hs.
    destruct (JsString.trimStart s) as [|c r] eqn:E; [assumption|].
    apply trimEnd_empty in H. simpl in H. rewrite Hs in H. discriminate.
  - intros H. now rewrite trimStart_allWhiteSpace.
Qed.

Lemma replaceNbsp_allWhiteSpace (s : string) :
  JsString.allWhiteSpace s = true ->
  JsString.allWhiteSpace (JsString.replaceNbsp s) = true.
Proof.
  induction s as [|c r IH]; simpl; [reflexivity|].
  intros H. apply andb_true_iff in H. destruct H as [H1 H2].
  rewrite IH by assumption. rewrite andb_true_r.
  destruct (Ascii.eqb c JsString.nbsp); [reflexivity|assumption].
Qed.

Lemma repeat_length (c : ascii) (n : nat) :
  String.length (JsString.repeat c n) = n.
Proof. induction n; simpl; auto. Qed.

Lemma append_length (s t : string) :
  String.length (String.append s t) = String.length s + String.length t.
Proof. induction s; simpl; auto. Qed.

Lemma padStart_length (width : nat) (s : string) :
  String.length (JsString.padStart width s)
  = Nat.max width (String.length s).
Proof.
  unfold JsString.padStart. rewrite append_length, repeat_length. lia.
Qed.

Lemma padStart_short (width : nat) (s : string) :
  width <= String.length s -> JsString.padStart width s = s.
Proof.
  intros H. unfold JsString.padStart.
  replace (width - String.length s) with 0 by lia. reflexivity.
Qed.

(** *** The log of a run *)

Lemma fillEntries_In report cols od e :
  In e (fillEntries report cols od) ->
  exists c, In c cols
            /\ e = entry (FilledMissingValues
                            (JsObject.get c (missing report)) c) success.
Proof.
  revert od; induction cols as [|c cols IH]; intros od; simpl; [tauto|].
  rewrite in_app_iff. intros [H|H].
  - destruct (0 <? _); [|contradiction].
    destruct H as [<-|[]]. exists c. auto.
  - destruct (IH _ H) as [c' [Hin He]]. exists c'. auto.
Qed.

Lemma stepsEntries_In report od e :
  In e (stepsEntries report od) ->
  (0 < duplicates report
   /\ exists n, e = entry (RemovedDuplicateRows n) success)
  \/ (exists c, In c (JsObject.ownKeys (whitespace report))
                /\ e = entry (FixedWhitespace c) success)
  \/ (exists c, In c (JsObject.ownKeys (leadingZeros report))
                /\ e = entry (RestoredLeadingZeros c) success)
  \/ (exists c, In c (JsObject.ownKeys (missing report))
                /\ e = entry (FilledMissingValues
                                (JsObject.get c (missing report)) c) success).
Proof.
  unfold stepsEntries, dedupEntries, whitespaceEntries, zerosEntries.
  rewrite !in_app_iff, !in_map_iff.
  intros [H|[H|[H|H]]].
  - left. destruct (0 <? duplicates report) eqn:E; [|contradiction].
    apply Nat.ltb_lt in E. destruct H as [<-|[]]. eauto.
  - right; left. destruct H as [c [<- Hin]]. eauto.
  - right; right; left. destruct H as [c [<- Hin]]. eauto.
  - right; right; right. now apply fillEntries_In in H.
Qed.

Lemma stepsEntries_noIssues report od :
  noIssues report -> stepsEntries report od = [].
Proof.
  intros (Hd & Hw & Hz & Hm).
  unfold stepsEntries, dedupEntries. rewrite Hd, Hw, Hz, Hm. reflexivity.
Qed.

(** C3 (as amended). When [cleanData] runs (a report is present and the
    table has a row), a step whose trigger is absent pushes no entry: no
    duplicate-removal entry when [duplicates] is 0, and no whitespace,
    leading-zero or imputation entry for a column that the report does not
    flag.  Cleaning with a report that flags nothing therefore gives the
    log made of the completion entry alone, and in every run the log ends
    with that entry, whose severity is [success]. *)
Theorem cleanData_log_shape (st : AppState) (h : heap) (report : Issues) :
  issues st = Some report ->
  readTable h (csvData st) <> [] ->
  let log := logOf (cleanData st h) in
  (duplicates report = 0 ->
   forall n s, ~ In (entry (RemovedDuplicateRows n) s) log)
  /\ (forall c s, ~ In c (JsObject.ownKeys (whitespace report)) ->
                  ~ In (entry (FixedWhitespace c) s) log)
  /\ (forall c s, ~ In c (JsObject.ownKeys (leadingZeros report)) ->
                  ~ In (entry (RestoredLeadingZeros c) s) log)
  /\ (forall c n s, ~ In c (JsObject.ownKeys (missing report)) ->
                    ~ In (entry (FilledMissingValues n c) s) log)
  /\ (noIssues report -> log = [entry CleaningComplete success])
  /\ (exists fixes, log = fixes ++ [entry CleaningComplete success])
  /\ type (last log (entry CleaningComplete info)) = success.
Proof.
  intros Hrep Hrows log.
  assert (Hlog : log = stepsEntries report
                         (toObjects (headers st) (loadTable h (csvData st)))
                       ++ [entry CleaningComplete success])
    by (apply cleanData_log; assumption).
  assert (Hcases : forall e, In e log ->
            In e (stepsEntries report
                    (toObjects (headers st) (loadTable h (csvData st))))
            \/ e = entry CleaningComplete success).
  { intros e He. rewrite Hlog in He. apply in_app_iff in He.
    destruct He as [He|[He|[]]]; auto. }
  repeat split.
  - intros Hd n s Hin. destruct (Hcases _ Hin) as [H|H]; [|discriminate].
    apply stepsEntries_In in H.
    destruct H as [[Hpos _]|[(c & _ & He)|[(c & _ & He)|(c & _ & He)]]];
      [lia|discriminate..].
  - intros c s Hnin Hin. destruct (Hcases _ Hin) as [H|H]; [|discriminate].
    apply stepsEntries_In in H.
    destruct H as [[_ [n He]]|[(c' & Hc & He)|[(c' & _ & He)|(c' & _ & He)]]];
      try discriminate.
    injection He as -> _. contradiction.
  - intros c s Hnin Hin. destruct (Hcases _ Hin) as [H|H]; [|discriminate].
    apply stepsEntries_In in H.
    destruct H as [[_ [n He]]|[(c' & _ & He)|[(c' & Hc & He)|(c' & _ & He)]]];
      try discriminate.
    injection He as -> _. contradiction.
  - intros c n s Hnin Hin. destruct (Hcases _ Hin) as [H|H]; [|discriminate].
    apply stepsEntries_In in H.
    destruct H as [[_ [k He]]|[(c' & _ & He)|[(c' & _ & He)|(c' & Hc & He)]]];
      try discriminate.
    injection He as _ -> _. contradiction.
  - intros Hno. rewrite Hlog, stepsEntries_noIssues by assumption.
    reflexivity.
  - eexists. exact Hlog.
  - rewrite Hlog, last_last. reflexivity.
Qed.

(** C9. [cleanData] never writes to a block that existed before the call:
    the component still refers to the same input table, whose rows and
    cells read the same afterwards.  When the call does not return early,
    the cleaned table, each of its rows and the log are blocks allocated
    by the call. *)
Theorem cleanData_preserves_input (st : AppState) (h : heap) :
  validTable h (csvData st) ->
  let r := cleanData st h in
  csvData (fst r) = csvData st
  /\ (forall a, a < List.length h -> nth_error (snd r) a = nth_error h a)
  /\ readTable (snd r) (csvData st) = readTable h (csvData st)
  /\ loadTable (snd r) (csvData st) = loadTable h (csvData st)
  /\ (forall report,
         issues st = Some report -> readTable h (csvData st) <> [] ->
         List.length h <= cleanedData (fst r)
         /\ Forall (fun row => List.length h <= row)
                   (readTable (snd r) (cleanedData (fst r)))
         /\ List.length h <= cleaningLog (fst r)).
Proof.
  intros [Hv Hrows] r.
  assert (Hframe : forall a, a < List.length h ->
                             nth_error (snd r) a = nth_error h a).
  { intros a Ha. unfold r, cleanData.
    destruct (issues st) as [report|] eqn:Hrep; [|reflexivity].
    destruct (readTable h (csvData st)) as [|r0 rs] eqn:Hr; [reflexivity|].
    assert (Hne : readTable h (csvData st) <> []) by (rewrite Hr; discriminate).
    pose proof (cleanData_frame st h report Hrep Hne a Ha) as F.
    unfold cleanData in F. rewrite Hrep, Hr in F. exact F. }
  assert (Htable : readTable (snd r) (csvData st) = readTable h (csvData st)).
  { unfold readTable. now rewrite Hframe. }
  split; [|split; [exact Hframe|split; [exact Htable|split]]].
  - unfold r, cleanData.
    destruct (issues st) as [report|] eqn:Hrep; [|reflexivity].
    destruct (readTable h (csvData st)) as [|r0 rs] eqn:Hr; [reflexivity|].
    assert (Hne : readTable h (csvData st) <> []) by (rewrite Hr; discriminate).
    pose proof (cleanData_eq st h report Hrep Hne) as E.
    unfold cleanData in E. rewrite Hrep, Hr in E. now rewrite E.
  - unfold loadTable. rewrite Htable. apply map_ext_in.
    intros a Ha. unfold readRow. rewrite Hframe; [reflexivity|].
    rewrite Forall_forall in Hrows. now apply Hrows.
  - intros report Hrep Hne. now apply (cleanData_fresh st h report).
Qed.

(** *** Row objects *)

Lemma get_assign {V : Type} (c k : string) (v : V) (o : JsObject.t V) :
  c <> "__proto__" ->
  JsObject.get c (JsObject.assign k v o)
  = if String.eqb c k then Some v else JsObject.get c o.
Proof.
  intros Hc. unfold JsObject.assign.
  destruct (String.eqb k "__proto__" && negb (JsObject.has k o)) eqn:E.
  - apply andb_true_iff in E. destruct E as [E _].
    apply String.eqb_eq in E. subst k.
    now replace (String.eqb c "__proto__") with false
      by (symmetry; now apply String.eqb_neq).
  - apply get_set.
Qed.

(** An assignment creates no property [__proto__]. *)
Lemma get_assign_proto {V : Type} (k : string) (v : V) (o : JsObject.t V) :
  JsObject.get "__proto__" o = None ->
  JsObject.get "__proto__" (JsObject.assign k v o) = None.
Proof.
  intros H. unfold JsObject.assign.
  destruct (String.eqb k "__proto__") eqn:E; simpl.
  - apply String.eqb_eq in E. subst k.
    unfold JsObject.has. rewrite H. exact H.
  - rewrite get_set. rewrite String.eqb_sym, E. exact H.
Qed.

Lemma get_fillObject_proto hs index row (obj : rowObject) :
  JsObject.get "__proto__" obj = None ->
  JsObject.get "__proto__" (fillObject hs index row obj) = None.
Proof.
  revert index obj; induction hs as [|h0 rest IH]; intros index obj H; simpl;
    [exact H|].
  apply IH. now apply get_assign_proto.
Qed.

(** The value [toObject] stores for a column other than [__proto__] is
    the one of the last header of that name. *)
Lemma get_fillObject c hs index row obj :
  c <> "__proto__" ->
  (~ In c hs
   /\ JsObject.get c (fillObject hs index row obj) = JsObject.get c obj)
  \/ (exists j, nth_error hs j = Some c
                /\ (forall k, j < k -> nth_error hs k <> Some c)
                /\ JsObject.get c (fillObject hs index row obj)
                   = Some (orElse (cellAt row (index + j)) (VStr ""))).
Proof.
  intros Hc.
  revert index obj; induction hs as [|h0 rest IH]; intros index obj; simpl.
  - left. auto.
  - destruct (IH (S index)
                 (JsObject.assign h0 (orElse (cellAt row index) (VStr ""))
                                  obj))
      as [[Hnin Hget]|(j & Hj & Hlast & Hget)].
    + destruct (String.eqb c h0) eqn:E.
      * apply String.eqb_eq in E. subst h0. right. exists 0.
        split; [reflexivity|]. split.
        -- intros [|k] Hk; [lia|]. simpl. intros Hc'.
           apply Hnin. eapply nth_error_In; eauto.
        -- rewrite Hget, get_assign, String.eqb_refl by assumption.
           now rewrite Nat.add_0_r.
      * left. split.
        -- apply String.eqb_neq in E.
           intros [H|H]; [congruence|contradiction].
        -- rewrite Hget, get_assign by assumption. now rewrite E.
    + right. exists (S j). split; [exact Hj|]. split.
      * intros [|k] Hk; [lia|]. simpl. apply Hlast. lia.
      * rewrite Hget. now replace (index + S j) with (S index + j) by lia.
Qed.

(** What a row object gives for the key [__proto__]. *)
Lemma property_toObject_proto hs row :
  property "__proto__" (toObject hs row) = Some VProto.
Proof.
  apply property_inherited. unfold toObject.
  now apply get_fillObject_proto.
Qed.

Lemma orElse_cases (c : cell) (d : value) :
  (exists v, c = Some v /\ truthy v = true /\ orElse c d = v)
  \/ orElse c d = d.
Proof.
  destruct c as [v|]; simpl; [|now right].
  destruct (truthy v) eqn:E; [left; eauto|now right].
Qed.

(** A cell of a row object is absent (the column is not a header), the
    empty text, or a truthy value. *)
Lemma toObject_cell c hs row :
  property c (toObject hs row) = None
  \/ property c (toObject hs row) = Some (VStr "")
  \/ exists v, property c (toObject hs row) = Some v /\ truthy v = true.
Proof.
  destruct (string_dec c "__proto__") as [->|Hc].
  - right. right. exists VProto. split; [|reflexivity].
    apply property_toObject_proto.
  - rewrite property_ordinary by assumption. unfold toObject.
    destruct (get_fillObject c hs 0 row [] Hc) as [[_ H]|(j & _ & _ & H)].
    + left. rewrite H. reflexivity.
    + right. rewrite H.
      destruct (orElse_cases (cellAt row (0 + j)) (VStr ""))
        as [(v & _ & Hv & ->)| ->]; eauto.
Qed.

Lemma toObject_absent c hs row :
  c <> "__proto__" -> ~ In c hs -> JsObject.get c (toObject hs row) = None.
Proof.
  intros Hc Hnin. unfold toObject.
  destruct (get_fillObject c hs 0 row [] Hc) as [[_ H]|(j & Hj & _)].
  - rewrite H. reflexivity.
  - exfalso. apply Hnin. eapply nth_error_In; eauto.
Qed.







(** *** Columns without values *)

Lemma blankCell_isMissing (c : cell) :
  blankCell c = true -> isMissing c = true.
Proof.
  destruct c as [v|]; simpl; [|reflexivity].
  unfold blankCell. simpl. intros ->. apply orb_true_r.
Qed.

Lemma toObject_missing_blank c hs row :
  isMissing (property c (toObject hs row)) = true ->
  blankCell (property c (toObject hs row)) = true.
Proof.
  destruct (toObject_cell c hs row) as [H|[H|(v & H & Hv)]]; rewrite H.
  - reflexivity.
  - reflexivity.
  - unfold blankCell. simpl. now rewrite Hv.
Qed.

Lemma normalized_blank (c : cell) :
  blankCell c = true -> blankCell (Some (normalized c)) = true.
Proof.
  destruct c as [v|]; [|reflexivity].
  unfold blankCell. simpl. intros H.
  apply isEmpty_true, trim_empty, replaceNbsp_allWhiteSpace, trim_empty in H.
  now rewrite H.
Qed.

Lemma nonEmpty_blank (cells : list cell) :
  Forall (fun x => blankCell x = true) cells -> nonEmpty cells = [].
Proof.
  induction 1 as [|x r Hx _ IH]; simpl; [reflexivity|].
  destruct x as [v|]; [|assumption].
  unfold blankCell in Hx. simpl in Hx. rewrite Hx. simpl.
  rewrite andb_false_r. assumption.
Qed.

Lemma uniqFrom_In {A K : Type} (f : A -> K) (same : K -> K -> bool)
      (seen : list K) (l : list A) (x : A) :
  In x (Lodash.uniqFrom f same seen l) -> In x l.
Proof.
  revert seen; induction l as [|y r IH]; intros seen; simpl; [tauto|].
  destruct (existsb _ seen).
  - intros H. right. eapply IH; eauto.
  - intros [H|H]; [now left|right; eapply IH; eauto].
Qed.

Lemma uniqueRows_In (od : list rowObject) (row : rowObject) :
  In row (uniqueRows od) -> In row od.
Proof. apply uniqFrom_In. Qed.

Lemma column_Forall (P : cell -> Prop) c od :
  Forall P (column c od) <-> forall row, In row od -> P (property c row).
Proof.
  unfold column. rewrite Forall_forall. split.
  - intros H row Hin. apply H. now apply in_map.
  - intros H x Hx. apply in_map_iff in Hx. destruct Hx as [row [<- Hin]].
    now apply H.
Qed.

Section BlankColumn.

Variable c : string.
Let blank (od : list rowObject) : Prop :=
  Forall (fun x => blankCell x = true) (column c od).

Lemma dedupData_In report od row :
  In row (dedupData report od) -> In row od.
Proof.
  unfold dedupData. destruct (0 <? duplicates report); [|auto].
  apply uniqueRows_In.
Qed.

Lemma dedupData_blank report od : blank od -> blank (dedupData report od).
Proof.
  unfold blank, dedupData. destruct (0 <? duplicates report); [|auto].
  rewrite !column_Forall. intros H row Hin.
  apply H. now apply uniqueRows_In.
Qed.

Lemma whitespaceData_blank cols od :
  blank od -> blank (whitespaceData cols od).
Proof.
  revert od; induction cols as [|c' cols IH]; intros od H; simpl; auto.
  apply IH. unfold blank in *.
  destruct (string_dec c c') as [<-|Hne].
  - rewrite column_setColumn_same. apply Forall_map.
    eapply Forall_impl; [|exact H]. intros x. apply normalized_blank.
  - now rewrite column_setColumn_other.
Qed.

Lemma zerosData_blank cols od :
  ~ In c cols -> blank od -> blank (zerosData cols od).
Proof.
  intros Hnin H. unfold blank. now rewrite column_zerosData_other.
Qed.

Lemma fillColumn_blank c' od : blank od -> blank (fillColumn c' od).
Proof.
  intros H. unfold blank in *.
  destruct (string_dec c c') as [<-|Hne].
  - unfold fillColumn. rewrite nonEmpty_blank by exact H. exact H.
  - now rewrite column_fillColumn_other.
Qed.

Lemma fillData_blank cols od : blank od -> blank (fillData cols od).
Proof.
  revert od; induction cols as [|c' cols IH]; intros od H; simpl; auto.
  apply IH. now apply fillColumn_blank.
Qed.

Lemma fillEntries_blank report cols od n s :
  blank od -> ~ In (entry (FilledMissingValues n c) s)
                   (fillEntries report cols od).
Proof.
  revert od; induction cols as [|c' cols IH]; intros od H; simpl; [tauto|].
  rewrite in_app_iff. intros [Hin|Hin].
  - destruct (0 <? _) eqn:E; [|contradiction].
    destruct Hin as [Hin|[]]. injection Hin as _ -> _.
    unfold blank in H. rewrite nonEmpty_blank in E by exact H.
    discriminate.
  - revert Hin. apply IH. now apply fillColumn_blank.
Qed.

End BlankColumn.

(** C1 (as amended). A column without any non-empty value that the report
    does not flag for leading zeros, flagged as missing or not, is left
    without values by [cleanData]: after cleaning each of its cells is
    still missing, none holds the text [Unknown], and the log has no
    imputation entry for the column. *)
Theorem empty_column_is_skipped
        (st : AppState) (h : heap) (report : Issues) (c : string) :
  issues st = Some report ->
  readTable h (csvData st) <> [] ->
  ~ In c (JsObject.ownKeys (leadingZeros report)) ->
  Forall (fun x => isMissing x = true)
         (column c (toObjects (headers st) (loadTable h (csvData st)))) ->
  (forall index,
      nth_error (headers st) index = Some c ->
      Forall (fun x => isMissing x = true /\ x <> Some (VStr "Unknown"))
             (tableColumn index (cleanedTable (cleanData st h))))
  /\ (forall n s, ~ In (entry (FilledMissingValues n c) s)
                       (logOf (cleanData st h))).
Proof.
  intros Hrep Hrows Hnz Hempty.
  set (od := toObjects (headers st) (loadTable h (csvData st))) in *.
  assert (Hblank : Forall (fun x => blankCell x = true) (column c od)).
  { apply column_Forall. rewrite column_Forall in Hempty.
    intros row Hin. unfold od, toObjects in Hin.
    apply in_map_iff in Hin. destruct Hin as [cells [<- Hin]].
    apply toObject_missing_blank. apply Hempty.
    unfold od, toObjects. now apply in_map. }
  assert (Hbefore : Forall (fun x => blankCell x = true)
                           (column c (beforeFill report od))).
  { unfold beforeFill. apply zerosData_blank; [assumption|].
    apply whitespaceData_blank. now apply dedupData_blank. }
  split.
  - intros index Hc.
    rewrite (cleanData_table st h report Hrep Hrows).
    rewrite (tableColumn_toArrays _ _ c) by assumption.
    fold od. unfold stepsData.
    eapply Forall_impl; [|apply fillData_blank; exact Hbefore].
    intros x Hx. split; [now apply blankCell_isMissing|].
    intros ->. discriminate.
  - intros n s Hin.
    rewrite (cleanData_log st h report Hrep Hrows) in Hin. fold od in Hin.
    apply in_app_iff in Hin. destruct Hin as [Hin|[Hin|[]]];
      [|discriminate].
    unfold stepsEntries, dedupEntries, whitespaceEntries, zerosEntries in Hin.
    rewrite !in_app_iff, !in_map_iff in Hin.
    destruct Hin as [Hin|[Hin|[Hin|Hin]]].
    + destruct (0 <? duplicates report); [|contradiction].
      destruct Hin as [Hin|[]]. discriminate.
    + destruct Hin as [c' [Hin _]]. discriminate.
    + destruct Hin as [c' [Hin _]]. discriminate.
    + revert Hin. now apply fillEntries_blank.
Qed.

(** *** Binary64 numbers *)

Section Binary64.
Import PrimFloat FloatOps FloatAxioms SpecFloat.

Lemma ltb_zero (x : float) :
  PrimFloat.ltb PrimFloat.zero x = JsNumber.aboveZero (Prim2SF x).
Proof. rewrite ltb_spec. reflexivity. Qed.

(** Rounding keeps the sign it is given. *)
Lemma binary_round_aux_sign (s : bool) (m e : Z) (l : location) :
  JsNumber.aboveZero (binary_round_aux prec emax s m e l) = true -> s = false.
Proof.
  unfold binary_round_aux.
  destruct (shr_fexp prec emax m e l) as [mrs' e'].
  destruct (shr_fexp prec emax _ e' loc_Exact) as [mrs'' e''].
  destruct (shr_m mrs''); [| destruct (Z.leb e'' _) |];
    destruct s; unfold JsNumber.aboveZero, SFltb; simpl; congruence.
Qed.

Lemma binary_normalize_sign (d e : Z) :
  JsNumber.aboveZero (binary_normalize prec emax d e false) = true -> (0 < d)%Z.
Proof.
  destruct d as [|p|p]; unfold JsNumber.aboveZero; simpl.
  - discriminate.
  - lia.
  - unfold binary_round.
    destruct (shl_align p e _) as [mz ez].
    intros H. apply binary_round_aux_sign in H. discriminate.
Qed.

(** The comparator [a - b] is positive for at most one order of a
    pair. *)
Lemma SFsub_antisym (x y : spec_float) :
  JsNumber.aboveZero (SFsub prec emax x y) = true ->
  JsNumber.aboveZero (SFsub prec emax y x) = false.
Proof.
  destruct x as [sx|sx| |sx mx ex], y as [sy|sy| |sy my ey];
    unfold JsNumber.aboveZero, SFltb;
    try (destruct sx, sy; simpl; congruence);
    try (destruct sx; simpl; congruence);
    try (destruct sy; simpl; congruence);
    try (simpl; congruence).
  fold (JsNumber.aboveZero (SFsub prec emax (S754_finite sx mx ex)
                                  (S754_finite sy my ey))).
  fold (JsNumber.aboveZero (SFsub prec emax (S754_finite sy my ey)
                                  (S754_finite sx mx ex))).
  unfold SFsub. intros H. apply binary_normalize_sign in H.
  match goal with |- ?t = false => destruct t eqn:E end; [|reflexivity].
  apply binary_normalize_sign in E. rewrite (Z.min_comm ey ex) in E. lia.
Qed.

Lemma comparator_antisym (x y : float) :
  PrimFloat.ltb PrimFloat.zero (PrimFloat.sub x y) = true ->
  PrimFloat.ltb PrimFloat.zero (PrimFloat.sub y x) = false.
Proof.
  rewrite !ltb_zero, !sub_spec. apply SFsub_antisym.
Qed.



End Binary64.

(** *** The order of binary64 numbers

    [Prim2SF] gives valid numbers: a finite one has a canonical mantissa
    and exponent, so that the order of two numbers can be read from
    their mantissas aligned on the smaller exponent, and the sign of a
    rounded difference is the sign of the exact one. *)

Section Order64.
Import PrimFloat FloatOps FloatAxioms SpecFloat.
Local Open Scope Z_scope.

Lemma digits2_bounds (m : positive) :
  2 ^ (Zpos (digits2_pos m) - 1) <= Zpos m < 2 ^ Zpos (digits2_pos m).
Proof.
  induction m as [m IH|m IH|]; simpl digits2_pos;
    rewrite ?Pos2Z.inj_succ.
  - replace (Z.succ (Zpos (digits2_pos m)) - 1) with (Zpos (digits2_pos m))
      by lia.
    rewrite Z.pow_succ_r by lia.
    replace (Zpos (digits2_pos m))
      with (Z.succ (Zpos (digits2_pos m) - 1)) at 1 by lia.
    rewrite Z.pow_succ_r by lia. lia.
  - replace (Z.succ (Zpos (digits2_pos m)) - 1) with (Zpos (digits2_pos m))
      by lia.
    rewrite Z.pow_succ_r by lia.
    replace (Zpos (digits2_pos m))
      with (Z.succ (Zpos (digits2_pos m) - 1)) at 1 by lia.
    rewrite Z.pow_succ_r by lia. lia.
  - simpl. lia.
Qed.

Lemma iter_xO (d m : positive) :
  Zpos (Pos.iter xO m d) = Zpos m * 2 ^ Zpos d.
Proof.
  induction d as [|d IH] using Pos.peano_ind.
  - simpl. lia.
  - rewrite Pos.iter_succ, Pos2Z.inj_succ, Z.pow_succ_r by lia.
    rewrite Pos2Z.inj_xO, IH. lia.
Qed.

Lemma shl_align_value (m : positive) (e ez : Z) :
  ez <= e -> Zpos (fst (shl_align m e ez)) = Zpos m * 2 ^ (e - ez).
Proof.
  intros H. unfold shl_align.
  destruct (ez - e) as [|d|d] eqn:E; simpl fst.
  - replace (e - ez) with 0 by lia. simpl. lia.
  - lia.
  - rewrite iter_xO. replace (e - ez) with (Zpos d) by lia. reflexivity.
Qed.

Lemma shl_align_exponent (m : positive) (e ez : Z) :
  snd (shl_align m e ez) = Z.min e ez.
Proof.
  unfold shl_align. destruct (ez - e) as [|d|d] eqn:E; simpl snd; lia.
Qed.

Lemma bounded_canonical (m : positive) (e : Z) :
  bounded prec emax m e = true ->
  emin prec emax <= e
  /\ Zpos (digits2_pos m) <= prec
  /\ (emin prec emax < e -> Zpos (digits2_pos m) = prec).
Proof.
  unfold bounded, canonical_mantissa, fexp. intros H.
  apply andb_true_iff in H. destruct H as [H _].
  apply Z.eqb_eq in H. lia.
Qed.

(** The order of two valid finite numbers is the order of their
    mantissas once aligned on the smaller exponent. *)
Lemma aligned_gt (mx my : positive) (ex ey : Z) :
  bounded prec emax mx ex = true ->
  bounded prec emax my ey = true ->
  match Z.compare ex ey with
  | Lt => Lt
  | Gt => Gt
  | Eq => Pos.compare_cont Eq mx my
  end = Gt ->
  Zpos (fst (shl_align my ey (Z.min ex ey)))
  < Zpos (fst (shl_align mx ex (Z.min ex ey))).
Proof.
  intros Hx Hy H.
  apply bounded_canonical in Hx. apply bounded_canonical in Hy.
  destruct Hx as (X1 & X2 & X3). destruct Hy as (Y1 & Y2 & Y3).
  rewrite !shl_align_value by lia.
  pose proof (digits2_bounds mx) as Dx. pose proof (digits2_bounds my) as Dy.
  destruct (Z.compare_spec ex ey) as [E|E|E]; [|discriminate|].
  - subst ey. rewrite Z.min_id, Z.sub_diag. simpl.
    change (Pos.compare_cont Eq mx my) with (Pos.compare mx my) in H.
    apply Pos.compare_gt_iff in H. lia.
  - rewrite Z.min_r by lia. rewrite Z.sub_diag. simpl Z.pow.
    rewrite (X3 ltac:(lia)) in Dx.
    assert (P : 2 ^ prec <= Zpos mx * 2 ^ (ex - ey)).
    { replace prec with (Z.succ (prec - 1)) at 1 by lia.
      rewrite Z.pow_succ_r by (unfold prec; lia).
      assert (2 ^ 1 <= 2 ^ (ex - ey))
        by (apply Z.pow_le_mono_r; lia).
      change (2 ^ 1) with 2 in *. nia. }
    assert (Q : Zpos my < 2 ^ prec).
    { eapply Z.lt_le_trans; [apply Dy|].
      apply Z.pow_le_mono_r; lia. }
    lia.
Qed.

Lemma compare_cont_opp (mx my : positive) :
  CompOpp (Pos.compare_cont Eq mx my) = Pos.compare_cont Eq my mx.
Proof.
  change (CompOpp (Pos.compare mx my) = Pos.compare my mx).
  symmetry. apply Pos.compare_antisym.
Qed.

Lemma sub_sign (sx sy : bool) (mx my : positive) (ex ey : Z) :
  bounded prec emax mx ex = true ->
  bounded prec emax my ey = true ->
  SFcompare (S754_finite sx mx ex) (S754_finite sy my ey) = Some Gt ->
  0 < cond_Zopp sx (Zpos (fst (shl_align mx ex (Z.min ex ey))))
      - cond_Zopp sy (Zpos (fst (shl_align my ey (Z.min ex ey)))).
Proof.
  intros Hx Hy H. simpl in H. injection H as H.
  destruct sx, sy; simpl cond_Zopp.
  - assert (G : match Z.compare ey ex with
                | Lt => Lt
                | Gt => Gt
                | Eq => Pos.compare_cont Eq my mx
                end = Gt).
    { rewrite (Z.compare_antisym ex ey).
      destruct (Z.compare ex ey); simpl in *; try congruence.
      now rewrite <- compare_cont_opp. }
    pose proof (aligned_gt my mx ey ex Hy Hx G) as A.
    rewrite (Z.min_comm ey ex) in A. lia.
  - discriminate.
  - lia.
  - pose proof (aligned_gt mx my ex ey Hx Hy H). lia.
Qed.

(** Shifting a mantissa to the right divides it by a power of two. *)
Lemma shr_1_m (r : shr_record) :
  0 <= shr_m r -> shr_m (shr_1 r) = shr_m r / 2.
Proof.
  destruct r as [m b s]. simpl shr_m. intros H. unfold shr_1.
  destruct m as [|[p|p|]|p]; simpl shr_m; try lia; try reflexivity.
  - rewrite Pos2Z.inj_xI. apply (Z.div_unique_pos _ 2 _ 1); lia.
  - rewrite Pos2Z.inj_xO. apply (Z.div_unique_pos _ 2 _ 0); lia.
Qed.

Lemma iter_shr_1_m (p : positive) (r : shr_record) :
  0 <= shr_m r ->
  shr_m (iter_pos shr_1 p r) = shr_m r / 2 ^ Zpos p.
Proof.
  revert r. induction p as [p IH|p IH|]; intros r H; simpl iter_pos.
  - assert (H1 : 0 <= shr_m (shr_1 r))
      by (rewrite shr_1_m by assumption; apply Z.div_pos; lia).
    assert (H2 : 0 <= shr_m (iter_pos shr_1 p (shr_1 r)))
      by (rewrite IH by assumption; apply Z.div_pos; lia).
    rewrite IH, IH, shr_1_m by assumption.
    rewrite !Z.div_div by lia.
    f_equal. rewrite (Pos2Z.inj_xI p).
    replace (2 * Zpos p + 1) with (Z.succ (Zpos p + Zpos p)) by lia.
    rewrite Z.pow_succ_r by lia. rewrite Z.pow_add_r by lia. reflexivity.
  - assert (H2 : 0 <= shr_m (iter_pos shr_1 p r))
      by (rewrite IH by assumption; apply Z.div_pos; lia).
    rewrite IH, IH by assumption.
    rewrite !Z.div_div by lia.
    f_equal. rewrite (Pos2Z.inj_xO p). now rewrite Z.pow_twice_r.
  - rewrite shr_1_m by assumption. reflexivity.
Qed.

Lemma shr_record_of_loc_m (m : Z) (l : location) :
  shr_m (shr_record_of_loc m l) = m.
Proof. destruct l as [|[]]; reflexivity. Qed.

(** Above the least exponent, rounding a positive mantissa to the
    precision keeps it positive. *)
Lemma shr_fexp_pos (m : positive) (e : Z) (l : location) :
  emin prec emax <= e ->
  0 < shr_m (fst (shr_fexp prec emax (Zpos m) e l))
  /\ emin prec emax <= snd (shr_fexp prec emax (Zpos m) e l).
Proof.
  intros He. unfold shr_fexp, shr, fexp. simpl Zdigits2.
  pose proof (digits2_bounds m) as D.
  set (d := Zpos (digits2_pos m)) in *.
  destruct (Z.max (d + e - prec) (emin prec emax) - e) as [|n|n] eqn:E;
    simpl fst; simpl snd; rewrite ?shr_record_of_loc_m; try lia.
  split; [|lia].
  rewrite iter_shr_1_m by (rewrite shr_record_of_loc_m; lia).
  rewrite shr_record_of_loc_m.
  assert (Hn : Zpos n = d - prec) by lia.
  assert (P : 2 ^ Zpos n <= Zpos m).
  { eapply Z.le_trans; [|apply D].
    apply Z.pow_le_mono_r; unfold prec in *; lia. }
  assert (1 <= Zpos m / 2 ^ Zpos n); [|lia].
  apply Z.div_le_lower_bound; lia.
Qed.

Lemma round_nearest_even_pos (m : Z) (l : location) :
  0 < m -> 0 < round_nearest_even m l.
Proof.
  intros H. destruct l as [|[]]; simpl; try lia.
  destruct (Z.even m); lia.
Qed.

Lemma binary_round_aux_pos (m : positive) (e : Z) (l : location) :
  emin prec emax <= e ->
  JsNumber.aboveZero (binary_round_aux prec emax false (Zpos m) e l) = true.
Proof.
  intros He. unfold binary_round_aux.
  destruct (shr_fexp_pos m e l He) as [M1 E1].
  destruct (shr_fexp prec emax (Zpos m) e l) as [mrs' e'].
  simpl fst in M1. simpl snd in E1.
  pose proof (round_nearest_even_pos (shr_m mrs') (loc_of_shr_record mrs') M1)
    as R.
  destruct (round_nearest_even (shr_m mrs') (loc_of_shr_record mrs'))
    as [|m1|m1]; try lia.
  destruct (shr_fexp_pos m1 e' loc_Exact E1) as [M2 _].
  destruct (shr_fexp prec emax (Zpos m1) e' loc_Exact) as [mrs'' e''].
  simpl fst in M2.
  destruct (shr_m mrs'') as [|m2|m2]; try lia.
  destruct (Z.leb e'' (emax - prec)); reflexivity.
Qed.

Lemma binary_normalize_pos (d e : Z) :
  0 < d -> emin prec emax <= e ->
  JsNumber.aboveZero (binary_normalize prec emax d e false) = true.
Proof.
  intros Hd He. destruct d as [|p|p]; try lia.
  unfold binary_normalize, binary_round.
  pose proof (shl_align_exponent p e (fexp prec emax (Zpos (digits2_pos p) + e)))
    as S.
  destruct (shl_align p e _) as [mz ez]. simpl snd in S.
  apply binary_round_aux_pos. unfold fexp in S. lia.
Qed.

(** The comparator [a - b] is positive when [a] is above [b]. *)
Lemma SFsub_above (x y : spec_float) :
  valid_binary prec emax x = true ->
  valid_binary prec emax y = true ->
  SFcompare x y = Some Gt ->
  JsNumber.aboveZero (SFsub prec emax x y) = true.
Proof.
  intros Vx Vy H.
  destruct x as [sx|sx| |sx mx ex], y as [sy|sy| |sy my ey];
    try discriminate;
    lazymatch goal with
    | |- JsNumber.aboveZero (SFsub _ _ (S754_finite _ _ _) (S754_finite _ _ _)) = _ =>
        idtac
    | _ =>
        unfold JsNumber.aboveZero, SFltb;
        try (destruct sx); try (destruct sy); simpl in *; congruence
    end.
  simpl in Vx, Vy. unfold SFsub.
  apply binary_normalize_pos.
  - now apply sub_sign.
  - apply bounded_canonical in Vx. apply bounded_canonical in Vy. lia.
Qed.

Lemma not_nan_spec (a : float) :
  is_nan a = false -> Prim2SF a <> S754_nan.
Proof.
  unfold is_nan. rewrite eqb_spec. intros H E. rewrite E in H.
  discriminate.
Qed.

End Order64.


(** A pair that the comparator leaves in place is in ascending order. *)
Lemma comparator_leb (a b : PrimFloat.float) :
  PrimFloat.is_nan a = false -> PrimFloat.is_nan b = false ->
  PrimFloat.ltb PrimFloat.zero (PrimFloat.sub a b) = false ->
  PrimFloat.leb a b = true.
Proof.
  intros Ha Hb H.
  assert (Z : PrimFloat.ltb PrimFloat.zero (PrimFloat.sub a b)
              = JsNumber.aboveZero (FloatOps.Prim2SF (PrimFloat.sub a b)))
    by (rewrite FloatAxioms.ltb_spec; reflexivity).
  rewrite Z, FloatAxioms.sub_spec in H.
  rewrite FloatAxioms.leb_spec.
  apply not_nan_spec in Ha. apply not_nan_spec in Hb.
  pose proof (FloatAxioms.Prim2SF_valid a) as Va.
  pose proof (FloatAxioms.Prim2SF_valid b) as Vb.
  unfold SpecFloat.SFleb.
  destruct (SpecFloat.SFcompare (FloatOps.Prim2SF a) (FloatOps.Prim2SF b))
    as [[| |]|] eqn:E; try reflexivity.
  - pose proof (SFsub_above _ _ Va Vb E) as G.
    pose proof (eq_trans (eq_sym G) H). discriminate.
  - exfalso.
    destruct (FloatOps.Prim2SF a) as [| | |], (FloatOps.Prim2SF b) as [| | |];
      simpl in E; congruence.
Qed.

Lemma Sorted_impl_In {A : Type} (R R' : A -> A -> Prop) (l : list A) :
  (forall a b, In a l -> In b l -> R a b -> R' a b) ->
  Sorted R l -> Sorted R' l.
Proof.
  intros H S. induction S as [|a l S IH Hd]; constructor.
  - apply IH. intros x y Hx Hy. apply H; now right.
  - destruct Hd as [|b l Hab]; constructor.
    apply H; [now left|right; now left|exact Hab].
Qed.

(** *** Sorting, quantile and median *)

Lemma insert_perm (x : JsNumber.number) (l : list JsNumber.number) :
  Permutation (Stats.insert x l) (x :: l).
Proof.
  induction l as [|y r IH]; simpl; [reflexivity|].
  destruct (PrimFloat.ltb _ _); [|reflexivity].
  rewrite IH. apply perm_swap.
Qed.

Lemma sort_perm (l : list JsNumber.number) : Permutation (Stats.sort l) l.
Proof.
  induction l as [|x r IH]; simpl; [reflexivity|].
  rewrite insert_perm. now apply perm_skip.
Qed.

Lemma sort_length (l : list JsNumber.number) :
  List.length (Stats.sort l) = List.length l.
Proof. apply Permutation_length, sort_perm. Qed.

Lemma insert_hdrel (a x : JsNumber.number) (l : list JsNumber.number) :
  Stats.inOrder a x -> HdRel Stats.inOrder a l ->
  HdRel Stats.inOrder a (Stats.insert x l).
Proof.
  intros Hax Hl. destruct l as [|y r]; simpl.
  - now constructor.
  - destruct (PrimFloat.ltb _ _); constructor; [|assumption].
    now inversion Hl.
Qed.

Lemma insert_sorted (x : JsNumber.number) (l : list JsNumber.number) :
  Sorted Stats.inOrder l -> Sorted Stats.inOrder (Stats.insert x l).
Proof.
  induction 1 as [|y r Hs IH Hhd]; simpl.
  - repeat constructor.
  - destruct (PrimFloat.ltb _ (PrimFloat.sub x y)) eqn:E.
    + constructor; [exact IH|].
      apply insert_hdrel; [|assumption].
      now apply comparator_antisym.
    + constructor; [now constructor|].
      constructor. exact E.
Qed.

(** The sorted array is in the order of the comparator: no element is
    followed by one that the comparator puts before it. *)
Lemma sort_sorted (l : list JsNumber.number) :
  Sorted Stats.inOrder (Stats.sort l).
Proof.
  induction l as [|x r IH]; simpl; [constructor|].
  now apply insert_sorted.
Qed.

(** Numbers other than [NaN] are sorted in ascending order. *)
Lemma sort_ascending (l : list JsNumber.number) :
  Forall (fun x => PrimFloat.is_nan x = false) l ->
  Sorted (fun a b => PrimFloat.leb a b = true) (Stats.sort l).
Proof.
  intros H. apply (Sorted_impl_In Stats.inOrder); [|apply sort_sorted].
  rewrite Forall_forall in H. intros a b Ha Hb Hab.
  apply comparator_leb; [| |exact Hab]; apply H;
    eapply Permutation_in; try eassumption; apply sort_perm.
Qed.





(** *** The report maps *)

(** The per-header loops of [detectIssues] all have this shape: an entry
    is assigned for the headers that pass a test; no entry can be
    assigned for the header [__proto__]. *)
Lemma get_fold_set {V : Type} (keep : string -> bool) (val : string -> V)
      (hs : list string) (acc : JsObject.t V) (c : string) :
  JsObject.get "__proto__" acc = None ->
  JsObject.get c
    (fold_left (fun acc h => if keep h then JsObject.assign h (val h) acc
                             else acc)
               hs acc)
  = if (existsb (String.eqb c) hs && negb (String.eqb c "__proto__"))
       && keep c
    then Some (val c)
    else JsObject.get c acc.
Proof.
  revert acc; induction hs as [|h0 rest IH]; intros acc Hacc; simpl; auto.
  rewrite IH by (destruct (keep h0); [now apply get_assign_proto|exact Hacc]).
  destruct (String.eqb c "__proto__") eqn:P.
  - apply String.eqb_eq in P. subst c. rewrite !andb_false_r. simpl.
    destruct (keep h0); [|reflexivity]. rewrite Hacc.
    now apply get_assign_proto.
  - apply String.eqb_neq in P. rewrite !andb_true_r.
    destruct (String.eqb c h0) eqn:E.
    + apply String.eqb_eq in E. subst h0. simpl.
      destruct (keep c) eqn:K.
      * rewrite andb_true_r, get_assign, String.eqb_refl by assumption.
        destruct (existsb _ rest); reflexivity.
      * now rewrite andb_false_r.
    + simpl. destruct (existsb (String.eqb c) rest && keep c); [reflexivity|].
      destruct (keep h0); [|reflexivity].
      rewrite get_assign by assumption. now rewrite E.
Qed.



Lemma existsb_eqb_In (c : string) (hs : list string) :
  existsb (String.eqb c) hs = true <-> In c hs.
Proof.
  rewrite existsb_exists. split.
  - intros [x [Hin E]]. apply String.eqb_eq in E. now subst.
  - intros H. exists c. split; [assumption|apply String.eqb_refl].
Qed.


Lemma get_detectMissing hs od c :
  JsObject.get c (detectMissing hs od)
  = if (existsb (String.eqb c) hs && negb (String.eqb c "__proto__"))
       && (0 <? missingCount c od)
    then Some (missingCount c od)
    else None.
Proof.
  unfold detectMissing.
  apply (get_fold_set (fun h => 0 <? missingCount h od)
                      (fun h => missingCount h od) hs [] c eq_refl).
Qed.

Lemma digit_not_whiteSpace (a : ascii) :
  JsString.isDigit a = true -> JsString.isWhiteSpace a = false.
Proof.
  unfold JsString.isDigit, JsString.isWhiteSpace. intros H.
  apply andb_true_iff in H. destruct H as [H1 H2].
  apply Nat.leb_le in H1. apply Nat.leb_le in H2.
  repeat (apply orb_false_iff; split); apply Nat.eqb_neq; lia.
Qed.

Lemma blankCell_no_leading_zero (x : cell) :
  blankCell x = true -> hasLeadingZero x = false.
Proof.
  unfold blankCell, hasLeadingZero. intros H.
  apply isEmpty_true, trim_empty in H.
  destruct (textOf x) as [|a r]; [reflexivity|].
  simpl in H. apply andb_true_iff in H. destruct H as [Hw _].
  simpl. destruct (JsString.isDigit a) eqn:D; [|reflexivity].
  apply digit_not_whiteSpace in D. congruence.
Qed.

Lemma get_detectLeadingZeros hs od c :
  JsObject.get c (detectLeadingZeros hs od)
  = if (existsb (String.eqb c) hs && negb (String.eqb c "__proto__"))
       && existsb hasLeadingZero (column c od)
    then Some "leading_zeros_lost"
    else None.
Proof.
  unfold detectLeadingZeros.
  apply (get_fold_set (fun h => existsb hasLeadingZero (column h od))
                      (fun _ => "leading_zeros_lost") hs [] c eq_refl).
Qed.

(** Detection never flags a column without values for leading zeros:
    for the report of [detectIssues], a column without values is never
    padded before imputation looks at it. *)
Lemma empty_column_not_flagged_for_zeros data hs c :
  Forall (fun x => isMissing x = true) (column c (toObjects hs data)) ->
  ~ In c (JsObject.ownKeys (leadingZeros (detectIssues data hs))).
Proof.
  intros Hempty Hin. apply ownKeys_In in Hin. apply Hin.
  unfold detectIssues. cbn [leadingZeros]. rewrite get_detectLeadingZeros.
  replace (existsb hasLeadingZero (column c (toObjects hs data))) with false;
    [now rewrite andb_false_r|].
  symmetry. apply not_true_is_false. intros H.
  apply existsb_exists in H. destruct H as (x & Hx & Hz).
  unfold column in Hx. apply in_map_iff in Hx.
  destruct Hx as (row & <- & Hrow).
  unfold toObjects in Hrow. apply in_map_iff in Hrow.
  destruct Hrow as (cells & <- & Hcells).
  rewrite blankCell_no_leading_zero in Hz; [discriminate|].
  apply toObject_missing_blank.
  rewrite column_Forall in Hempty. apply Hempty.
  unfold toObjects. now apply in_map.
Qed.


Lemma keepNumbers_In (x : JsNumber.number)
      (l : list (option JsNumber.number)) :
  In x (keepNumbers l) <-> In (Some x) l.
Proof.
  induction l as [|[y|] r IH]; simpl; [tauto| |].
  - rewrite IH. split; intros [H|H]; auto; left; congruence.
  - rewrite IH. split; [auto|]. intros [H|H]; [discriminate|assumption].
Qed.

(** What [parseFloat] returns passes the [!isNaN] filter only when it is
    a number. *)
Lemma parseNumber_number (s : string) (x : JsNumber.number) :
  parseNumber s = Some x -> PrimFloat.is_nan x = false.
Proof.
  unfold parseNumber. destruct (PrimFloat.is_nan (parseFloat s)) eqn:E;
    [discriminate|]. intros H. injection H as <-. exact E.
Qed.



Lemma even_mod2 (n : nat) : Nat.even n = (n mod 2 =? 0).
Proof.
  destruct (Nat.even n) eqn:E; symmetry.
  - apply Nat.even_spec in E. destruct E as [k ->].
    apply Nat.eqb_eq. rewrite Nat.mul_comm. apply Nat.Div0.mod_mul.
  - assert (O : Nat.odd n = true) by (now rewrite <- Nat.negb_even, E).
    apply Nat.odd_spec in O. destruct O as [k ->].
    apply Nat.eqb_neq.
    rewrite Nat.add_comm, Nat.mul_comm, Nat.Div0.mod_add. discriminate.
Qed.

(** [median] is the central value of the sorted samples. *)
Lemma median_centralValue (values : list JsNumber.number) :
  Stats.median values = Stats.centralValue (Stats.sort values).
Proof.
  unfold Stats.centralValue. rewrite even_mod2.
  destruct values as [|x l]; [reflexivity|].
  unfold Stats.median.
  replace (List.length (Stats.sort (x :: l)) =? 0) with false; [reflexivity|].
  symmetry. apply Nat.eqb_neq. rewrite sort_length. simpl. lia.
Qed.

(** The positions [median] reads exist. *)
Lemma median_indices (values : list JsNumber.number) :
  values <> [] ->
  let n := List.length (Stats.sort values) in
  n / 2 < n /\ (n mod 2 = 0 -> n / 2 - 1 < n).
Proof.
  intros Hne n. assert (0 < n).
  { unfold n. rewrite sort_length. destruct values; [congruence|simpl; lia]. }
  split.
  - apply Nat.div_lt; lia.
  - intros _. pose proof (Nat.div_lt n 2). lia.
Qed.

Lemma keepNumbers_length (l : list (option JsNumber.number)) :
  List.length (keepNumbers l) <= List.length l.
Proof.
  induction l as [|[x|] r IH]; simpl; lia.
Qed.

Lemma keepNumbers_all (l : list (option JsNumber.number)) :
  List.length (keepNumbers l) = List.length l
  <-> Forall (fun x => x <> None) l.
Proof.
  induction l as [|[x|] r IH]; simpl.
  - split; auto.
  - split.
    + intros H. constructor; [discriminate|]. apply IH. lia.
    + intros H. inversion H; subst. f_equal. now apply IH.
  - pose proof (keepNumbers_length r). split.
    + intros H'. lia.
    + intros H'. inversion H'; subst. congruence.
Qed.

(** When every non-empty value parses, the fill value is the median of
    the parsed values. *)
Lemma fillValueOf_numeric (vals : list value) :
  Forall (fun v => parseNumber (toString v) <> None) vals ->
  fillValueOf vals
  = VNum (Stats.median
            (keepNumbers (map (fun v => parseNumber (toString v)) vals))).
Proof.
  intros H. unfold fillValueOf.
  replace (_ =? _) with true; [reflexivity|].
  symmetry. apply Nat.eqb_eq.
  rewrite <- (length_map (fun v => parseNumber (toString v)) vals).
  apply keepNumbers_all. now apply Forall_map.
Qed.

Lemma filled_missing (fillValue : value) (x : cell) :
  isMissing x = true -> filled fillValue x = fillValue.
Proof.
  destruct x as [v|]; simpl; [|reflexivity].
  destruct (truthy v); simpl; [|reflexivity].
  destruct (JsString.trim (toString v)); simpl; [reflexivity|discriminate].
Qed.

Lemma filled_present (fillValue : value) (x : cell) :
  isMissing x = false ->
  exists v, x = Some v
            /\ filled fillValue x = VStr (JsString.trim (toString v)).
Proof.
  destruct x as [v|]; simpl; [|discriminate].
  intros H. apply orb_false_iff in H. destruct H as [H1 H2].
  apply negb_false_iff in H1. rewrite H1. exists v. split; [reflexivity|].
  simpl. now rewrite H2.
Qed.

Lemma nonEmpty_length_pos (cells : list cell) :
  nonEmpty cells <> [] -> (0 <? List.length (nonEmpty cells)) = true.
Proof.
  intros H. apply Nat.ltb_lt. destruct (nonEmpty cells); [congruence|].
  simpl. lia.
Qed.

(** The column of the cleaned table, for a column that the report flags
    as missing and that has a non-empty value when imputation starts. *)
Lemma cleaned_filled_column
      (st : AppState) (h : heap) (report : Issues) (c : string)
      (index : nat) :
  issues st = Some report ->
  readTable h (csvData st) <> [] ->
  distinctKeys (missing report) ->
  In c (JsObject.ownKeys (missing report)) ->
  nth_error (headers st) index = Some c ->
  let before :=
    column c (beforeFill report
                (toObjects (headers st) (loadTable h (csvData st)))) in
  nonEmpty before <> [] ->
  tableColumn index (cleanedTable (cleanData st h))
  = map (fun x => Some (filled (fillValueOf (nonEmpty before)) x)) before.
Proof.
  intros Hrep Hrows Hkeys Hin Hc before Hne.
  rewrite (cleanData_table st h report Hrep Hrows).
  rewrite (tableColumn_toArrays _ _ c) by assumption.
  unfold stepsData.
  rewrite column_fillData_same by (auto using ownKeys_NoDup).
  fold before. unfold fillCells.
  now rewrite nonEmpty_length_pos.
Qed.

(** C4 (as amended). For a column that the report flags as missing and
    that, when imputation starts (after deduplication, whitespace
    normalisation and leading-zero restoration), has at least one
    non-empty value and only non-empty values that [parseFloat] accepts,
    every cell missing at that point holds, after cleaning, the median of
    the parsed values as [median] computes it in double arithmetic.  The
    median is the central value of the samples sorted in ascending order:
    half the sum of the two central samples for an even count (the sum is
    rounded, and overflows to [Infinity] for samples near the largest
    double), the central sample for an odd count, and 0 for no sample. *)
Theorem numeric_column_filled_with_median
        (st : AppState) (h : heap) (report : Issues) (c : string)
        (index : nat) :
  issues st = Some report ->
  readTable h (csvData st) <> [] ->
  distinctKeys (missing report) ->
  In c (JsObject.ownKeys (missing report)) ->
  nth_error (headers st) index = Some c ->
  let objectData := toObjects (headers st) (loadTable h (csvData st)) in
  let before := column c (beforeFill report objectData) in
  let numbers :=
    keepNumbers (map (fun v => parseNumber (toString v)) (nonEmpty before)) in
  let after := tableColumn index (cleanedTable (cleanData st h)) in
  nonEmpty before <> [] ->
  Forall (fun v => parseNumber (toString v) <> None) (nonEmpty before) ->
  (forall k x,
      nth_error before k = Some x -> isMissing x = true ->
      nth_error after k = Some (Some (VNum (Stats.median numbers))))
  /\ Stats.median numbers = Stats.centralValue (Stats.sort numbers)
  /\ Forall (fun x => PrimFloat.is_nan x = false) numbers
  /\ Sorted (fun a b => PrimFloat.leb a b = true) (Stats.sort numbers)
  /\ Permutation (Stats.sort numbers) numbers
  /\ Stats.median [] = PrimFloat.zero.
Proof.
  intros Hrep Hrows Hkeys Hin Hc objectData before numbers after Hne Hnum.
  assert (Hnan : Forall (fun x => PrimFloat.is_nan x = false) numbers).
  { apply Forall_forall. intros x Hx. unfold numbers in Hx.
    apply keepNumbers_In, in_map_iff in Hx. destruct Hx as (v & Hv & _).
    now apply parseNumber_number in Hv. }
  split; [|split; [apply median_centralValue|
                   split; [exact Hnan|
                   split; [now apply sort_ascending|
                   split; [apply sort_perm|]]]]].
  - intros k x Hk Hx. unfold after.
    rewrite (cleaned_filled_column st h report c index) by assumption.
    fold objectData. fold before.
    rewrite nth_error_map, Hk. simpl.
    rewrite filled_missing by assumption.
    now rewrite fillValueOf_numeric.
  - reflexivity.
Qed.

(** *** Leading zeros *)

Lemma widest_bound (cells : list cell) (x : cell) :
  In x cells -> String.length (textOf x) <= widest cells.
Proof.
  unfold widest. induction cells as [|y r IH]; simpl; [tauto|].
  intros [->|H]; [lia|]. specialize (IH H). lia.
Qed.

(** *** Rows kept by deduplication *)

Lemma value_eqb_refl (v : value) : value_eqb v v = true.
Proof.
  destruct v as [s|x|]; simpl; [apply String.eqb_refl| |reflexivity].
  unfold JsNumber.sameJson, PrimFloat.is_finite, PrimFloat.is_nan.
  destruct (PrimFloat.eqb x x); reflexivity.
Qed.

Lemma entries_eqb_refl (a : list (string * option value)) :
  entries_eqb a a = true.
Proof.
  induction a as [|[k [v|]] r IH]; simpl; auto.
  - unfold entry_eqb. simpl.
    now rewrite String.eqb_refl, value_eqb_refl, IH.
  - unfold entry_eqb. simpl. now rewrite String.eqb_refl, IH.
Qed.

(** Every element has a kept element of the same key, unless its key
    was seen before. *)
Lemma uniqFrom_repr {A K : Type} (f : A -> K) (same : K -> K -> bool)
      (seen : list K) (l : list A) (x : A) :
  (forall k, same k k = true) ->
  In x l ->
  existsb (same (f x)) seen = true
  \/ exists y, In y (Lodash.uniqFrom f same seen l)
               /\ same (f x) (f y) = true.
Proof.
  intros Hrefl. revert seen; induction l as [|z r IH]; intros seen Hin;
    simpl in *; [contradiction|].
  destruct Hin as [->|Hin].
  - destruct (existsb (same (f x)) seen) eqn:E; [now left|].
    right. exists x. split; [now left|apply Hrefl].
  - destruct (existsb (same (f z)) seen) eqn:E.
    + apply IH. exact Hin.
    + destruct (IH (f z :: seen) Hin) as [H|(y & Hy & Hs)].
      * simpl in H. apply orb_true_iff in H. destruct H as [H|H].
        -- right. exists z. split; [now left|exact H].
        -- now left.
      * right. exists y. split; [now right|exact Hs].
Qed.

Lemma uniqueRows_repr (od : list rowObject) (row : rowObject) :
  In row od ->
  exists kept, In kept (uniqueRows od)
               /\ entries_eqb (JsObject.entries row) (JsObject.entries kept)
                  = true.
Proof.
  intros Hin.
  destruct (uniqFrom_repr JsObject.entries entries_eqb [] od row
              entries_eqb_refl Hin) as [H|H]; [discriminate|exact H].
Qed.

Lemma entries_eqb_In (a b : list (string * option value)) k v :
  entries_eqb a b = true ->
  In (k, v) a ->
  exists w, In (k, w) b /\ entry_eqb (k, v) (k, w) = true.
Proof.
  revert b; induction a as [|x a' IH]; intros [|y b'] H Hin; simpl in *;
    try contradiction; try discriminate.
  apply andb_true_iff in H. destruct H as [Hxy Hrest].
  destruct Hin as [->|Hin].
  - destruct y as [k' w]. exists w.
    unfold entry_eqb in Hxy. simpl in Hxy.
    apply andb_true_iff in Hxy. destruct Hxy as [Hk Hv].
    apply String.eqb_eq in Hk. subst k'. split; [now left|].
    unfold entry_eqb. simpl. now rewrite String.eqb_refl.
  - destruct (IH b' Hrest Hin) as (w & Hw & He). exists w. auto.
Qed.

(** Two rows of the same JSON text have cells of the same text in every
    column where the cell of the first is text. *)
Lemma same_entries_text (row kept : rowObject) (c s : string) :
  entries_eqb (JsObject.entries row) (JsObject.entries kept) = true ->
  JsObject.get c row = Some (VStr s) ->
  JsObject.get c kept = Some (VStr s).
Proof.
  intros He Hc.
  assert (Hin : In (c, Some (VStr s)) (JsObject.entries row)).
  { unfold JsObject.entries. apply in_map_iff. exists c.
    split; [now rewrite Hc|]. apply ownKeys_In. congruence. }
  destruct (entries_eqb_In _ _ _ _ He Hin) as (w & Hw & Hv).
  unfold JsObject.entries in Hw. apply in_map_iff in Hw.
  destruct Hw as (c' & Heq & _). injection Heq as -> <-.
  unfold entry_eqb in Hv. simpl in Hv. rewrite String.eqb_refl in Hv.
  simpl in Hv. destruct (JsObject.get c kept) as [[t|x|]|]; try discriminate.
  apply String.eqb_eq in Hv. now subst.
Qed.

Lemma widest_le (cells cells' : list cell) :
  (forall x, In x cells ->
             exists y, In y cells'
                       /\ String.length (textOf x) <= String.length (textOf y)) ->
  widest cells <= widest cells'.
Proof.
  induction cells as [|x r IH]; intros H; [unfold widest; simpl; lia|].
  assert (Hr : widest r <= widest cells')
    by (apply IH; intros z Hz; apply H; now right).
  destruct (H x (or_introl eq_refl)) as (y & Hy & Hle).
  pose proof (widest_bound cells' y Hy).
  unfold widest in *. simpl. lia.
Qed.

Lemma toObject_text c hs row :
  c <> "__proto__" ->
  Forall textCell row ->
  In c hs ->
  textCell (JsObject.get c (toObject hs row)).
Proof.
  intros Hp Ht Hin. unfold toObject.
  destruct (get_fillObject c hs 0 row [] Hp) as [[Hnin _]|(j & _ & _ & H)];
    [contradiction|].
  rewrite H. simpl. unfold cellAt.
  destruct (nth_error row j) as [x|] eqn:E.
  - rewrite Forall_forall in Ht. destruct (Ht x) as [s ->].
    { eapply nth_error_In; eauto. }
    simpl. destruct (JsString.isEmpty s); simpl; eexists; reflexivity.
  - simpl. eexists; reflexivity.
Qed.

(** Deduplication of a table of text keeps the greatest text length of
    every column. *)
Lemma widest_uniqueRows c hs data :
  textTable data -> In c hs ->
  widest (column c (uniqueRows (toObjects hs data)))
  = widest (column c (toObjects hs data)).
Proof.
  intros Ht Hin. apply Nat.le_antisymm; apply widest_le; intros x Hx;
    unfold column in Hx; apply in_map_iff in Hx;
    destruct Hx as (row & <- & Hrow).
  - exists (property c row). split; [|lia].
    unfold column. apply in_map. now apply uniqueRows_In.
  - destruct (uniqueRows_repr _ _ Hrow) as (kept & Hk & He).
    exists (property c kept). split; [unfold column; now apply in_map|].
    pose proof (uniqueRows_In _ _ Hk) as Hkept.
    unfold toObjects in Hrow, Hkept.
    apply in_map_iff in Hrow. destruct Hrow as (cells & <- & Hcells).
    apply in_map_iff in Hkept. destruct Hkept as (cells' & <- & _).
    destruct (string_dec c "__proto__") as [->|Hp].
    + rewrite !property_toObject_proto. lia.
    + assert (Hc : Forall textCell cells).
      { unfold textTable in Ht. rewrite Forall_forall in Ht. now apply Ht. }
      destruct (toObject_text c hs cells Hp Hc Hin) as [s Hs].
      rewrite !property_ordinary by assumption.
      rewrite (same_entries_text _ _ c s He Hs), Hs. lia.
Qed.

Lemma toObject_present c hs row :
  In c hs -> property c (toObject hs row) <> None.
Proof.
  intros Hin. destruct (string_dec c "__proto__") as [->|Hp].
  - rewrite property_toObject_proto. discriminate.
  - rewrite property_ordinary by assumption. unfold toObject.
    destruct (get_fillObject c hs 0 row [] Hp) as [[Hnin _]|(j & _ & _ & H)].
    + contradiction.
    + rewrite H. discriminate.
Qed.

Lemma beforeZeros_present report c hs data :
  In c hs ->
  Forall (fun x => x <> None)
         (column c (beforeZeros report (toObjects hs data))).
Proof.
  intros Hin. unfold beforeZeros.
  assert (H0 : Forall (fun x : cell => x <> None)
                      (column c (dedupData report (toObjects hs data)))).
  { apply column_Forall. intros row Hrow.
    assert (Hrow' : In row (toObjects hs data)).
    { unfold dedupData in Hrow.
      destruct (0 <? duplicates report);
        [now apply uniqueRows_In|assumption]. }
    unfold toObjects in Hrow'. apply in_map_iff in Hrow'.
    destruct Hrow' as [cells [<- _]]. now apply toObject_present. }
  revert H0. generalize (dedupData report (toObjects hs data)).
  induction (JsObject.ownKeys (whitespace report)) as [|c' cols IH];
    intros od H0; simpl; [exact H0|].
  apply IH. destruct (string_dec c c') as [<-|Hne].
  - rewrite column_setColumn_same. apply Forall_map.
    apply Forall_forall. intros x _. discriminate.
  - now rewrite column_setColumn_other.
Qed.

(** *** The page: upload, detection, cleaning *)



Lemma clean_empty (hs : list string) :
  cleanedTable (clean [] hs) = [] /\ logOf (clean [] hs) = [].
Proof. split; reflexivity. Qed.




(** *** Deduplication *)

Lemma uniqFrom_length {A K : Type} (f : A -> K) (same : K -> K -> bool)
      (seen : list K) (l : list A) :
  List.length (Lodash.uniqFrom f same seen l) <= List.length l.
Proof.
  revert seen; induction l as [|x r IH]; intros seen; simpl; [lia|].
  destruct (existsb _ seen); simpl.
  - specialize (IH seen). lia.
  - specialize (IH (f x :: seen)). lia.
Qed.

Lemma uniqFrom_idempotent {A K : Type} (f : A -> K) (same : K -> K -> bool)
      (seen : list K) (l : list A) :
  Lodash.uniqFrom f same seen (Lodash.uniqFrom f same seen l)
  = Lodash.uniqFrom f same seen l.
Proof.
  revert seen; induction l as [|x r IH]; intros seen; simpl; [reflexivity|].
  destruct (existsb (same (f x)) seen) eqn:E.
  - apply IH.
  - simpl. rewrite E. f_equal. apply IH.
Qed.

Lemma uniqueRows_length (od : list rowObject) :
  List.length (uniqueRows od) <= List.length od.
Proof. apply uniqFrom_length. Qed.

Lemma uniqueRows_idempotent (od : list rowObject) :
  uniqueRows (uniqueRows od) = uniqueRows od.
Proof. apply uniqFrom_idempotent. Qed.

Lemma stepsData_length report od :
  List.length (stepsData report od) = List.length (dedupData report od).
Proof.
  unfold stepsData, beforeFill.
  now rewrite fillData_length, zerosData_length, whitespaceData_length.
Qed.

Lemma toArrays_length hs od : List.length (toArrays hs od) = List.length od.
Proof. apply length_map. Qed.

(** *** Row objects and their arrays *)

Lemma obj_ext {V : Type} (a b : JsObject.t V) :
  map fst a = map fst b ->
  NoDup (map fst a) ->
  (forall k, JsObject.get k a = JsObject.get k b) ->
  a = b.
Proof.
  revert b; induction a as [|[k v] a' IH]; intros [|[k' w] b'] Hk Hnd Hget;
    simpl in *; try discriminate; [reflexivity|].
  injection Hk as <- Hk'. inversion Hnd as [|? ? Hnin Hnd']; subst.
  pose proof (Hget k) as Hh. rewrite String.eqb_refl in Hh.
  injection Hh as <-. f_equal. apply IH; [assumption..|].
  intros c. specialize (Hget c).
  destruct (String.eqb c k) eqn:E; [|exact Hget].
  apply String.eqb_eq in E. subst c.
  assert (Ha : JsObject.get k a' = None).
  { destruct (JsObject.get k a') eqn:G; [|reflexivity].
    exfalso. apply Hnin. apply get_In. congruence. }
  assert (Hb : JsObject.get k b' = None).
  { destruct (JsObject.get k b') eqn:G; [|reflexivity].
    exfalso. apply Hnin. rewrite Hk'. apply get_In. congruence. }
  congruence.
Qed.

Lemma keys_set {V : Type} (k : string) (v w : V) (a b : JsObject.t V) :
  map fst a = map fst b ->
  map fst (JsObject.set k v a) = map fst (JsObject.set k w b).
Proof.
  revert b; induction a as [|[k1 v1] a' IH]; intros [|[k2 v2] b'] H;
    simpl in *; try discriminate; [reflexivity|].
  injection H as <- H'.
  destruct (String.eqb k k1); simpl; f_equal; auto.
Qed.

Lemma keys_set_NoDup {V : Type} (k : string) (v : V) (a : JsObject.t V) :
  NoDup (map fst a) -> NoDup (map fst (JsObject.set k v a)).
Proof.
  induction a as [|[k1 v1] a' IH]; simpl; intros H.
  - constructor; [tauto|constructor].
  - inversion H as [|? ? Hnin Hnd]; subst.
    destruct (String.eqb k k1) eqn:E; simpl.
    + constructor; assumption.
    + constructor; [|now apply IH].
      intros Hin. apply get_In in Hin.
      rewrite get_set_other in Hin
        by (intros ->; rewrite String.eqb_refl in E; discriminate).
      now apply get_In in Hin.
Qed.

Lemma has_keys {V : Type} (k : string) (a b : JsObject.t V) :
  map fst a = map fst b -> JsObject.has k a = JsObject.has k b.
Proof.
  unfold JsObject.has.
  revert b; induction a as [|[k1 v1] a' IH]; intros [|[k2 v2] b'] H;
    simpl in *; try discriminate; [reflexivity|].
  injection H as <- H'.
  destruct (String.eqb k k1); [reflexivity|]. now apply IH.
Qed.

Lemma keys_assign {V : Type} (k : string) (v w : V) (a b : JsObject.t V) :
  map fst a = map fst b ->
  map fst (JsObject.assign k v a) = map fst (JsObject.assign k w b).
Proof.
  intros H. unfold JsObject.assign. rewrite (has_keys k a b H).
  destruct (String.eqb k "__proto__" && negb (JsObject.has k b));
    [exact H|now apply keys_set].
Qed.

Lemma keys_assign_NoDup {V : Type} (k : string) (v : V) (a : JsObject.t V) :
  NoDup (map fst a) -> NoDup (map fst (JsObject.assign k v a)).
Proof.
  intros H. unfold JsObject.assign.
  destruct (String.eqb k "__proto__" && negb (JsObject.has k a));
    [exact H|now apply keys_set_NoDup].
Qed.

Lemma keys_fillObject hs index index' row row' (obj obj' : rowObject) :
  map fst obj = map fst obj' ->
  map fst (fillObject hs index row obj)
  = map fst (fillObject hs index' row' obj').
Proof.
  revert index index' obj obj'; induction hs as [|h0 rest IH];
    intros index index' obj obj' H; simpl; [exact H|].
  apply IH. now apply keys_assign.
Qed.

Lemma fillObject_NoDup hs index row (obj : rowObject) :
  NoDup (map fst obj) -> NoDup (map fst (fillObject hs index row obj)).
Proof.
  revert index obj; induction hs as [|h0 rest IH]; intros index obj H; simpl;
    [exact H|].
  apply IH. now apply keys_assign_NoDup.
Qed.

Lemma orElse_again (x : cell) (d : value) :
  orElse (Some (orElse x d)) d = orElse x d.
Proof.
  destruct x as [v|]; simpl.
  - destruct (truthy v) eqn:E; simpl.
    + now rewrite E.
    + destruct (truthy d); reflexivity.
  - destruct (truthy d); reflexivity.
Qed.

(** Reading a row object back into an array and converting the array
    again gives the same row object. *)
Lemma toObject_toArray hs cells :
  toObject hs (map (fun header => property header (toObject hs cells)) hs)
  = toObject hs cells.
Proof.
  set (O := toObject hs cells).
  apply obj_ext.
  - unfold O, toObject. now apply keys_fillObject.
  - unfold toObject. apply fillObject_NoDup. constructor.
  - intros c. destruct (string_dec c "__proto__") as [->|Hp].
    { unfold O, toObject. now rewrite !get_fillObject_proto. }
    unfold toObject at 1.
    destruct (get_fillObject c hs 0
                (map (fun header => property header O) hs) [] Hp)
      as [[Hnin H]|(j & Hj & _ & H)]; rewrite H.
    + unfold O. now rewrite toObject_absent.
    + simpl. unfold cellAt. rewrite nth_error_map, Hj. simpl.
      rewrite property_ordinary by assumption.
      unfold O, toObject.
      destruct (get_fillObject c hs 0 cells [] Hp)
        as [[Hnin _]|(j' & _ & _ & H')].
      * exfalso. apply Hnin. eapply nth_error_In; eauto.
      * rewrite H'. now rewrite orElse_again.
Qed.

Lemma toObjects_toArrays hs (od : list rowObject) :
  (forall row, In row od -> exists cells, row = toObject hs cells) ->
  toObjects hs (toArrays hs od) = od.
Proof.
  intros H. unfold toObjects, toArrays. rewrite map_map.
  rewrite <- (map_id od) at 2. apply map_ext_in.
  intros row Hin. destruct (H row Hin) as [cells ->].
  apply toObject_toArray.
Qed.

(** C2 (as amended). When the report carries the duplicate count [k > 0]
    that detection finds for the table, the cleaned table has exactly
    [k] rows fewer than the table.  When moreover the report flags no
    column (no whitespace, leading-zero or missing entry), so that the
    deduplicated rows are not rewritten afterwards, detection on the
    cleaned table finds no duplicate. *)
Theorem deduplication_row_count
        (st : AppState) (h : heap) (report : Issues) (k : nat) :
  let data := loadTable h (csvData st) in
  issues st = Some report ->
  duplicates report = duplicates (detectIssues data (headers st)) ->
  duplicates report = k ->
  0 < k ->
  List.length (cleanedTable (cleanData st h)) = List.length data - k
  /\ (whitespace report = [] -> leadingZeros report = [] ->
      missing report = [] ->
      duplicates (detectIssues (cleanedTable (cleanData st h)) (headers st))
      = 0).
Proof.
  intros data Hrep Hdet Hk Hpos.
  set (od := toObjects (headers st) data).
  assert (Hdup : k = List.length od - List.length (uniqueRows od)).
  { rewrite <- Hk, Hdet. reflexivity. }
  pose proof (uniqueRows_length od) as Hle.
  assert (Hrows : readTable h (csvData st) <> []).
  { intros E. unfold od, toObjects, data, loadTable in Hdup.
    rewrite E in Hdup. simpl in Hdup. lia. }
  assert (Hded : dedupData report od = uniqueRows od).
  { unfold dedupData.
    replace (0 <? duplicates report) with true; [reflexivity|].
    symmetry. apply Nat.ltb_lt. lia. }
  pose proof (cleanData_table st h report Hrep Hrows) as Htable.
  fold data in Htable. fold od in Htable.
  split.
  - rewrite Htable, toArrays_length, stepsData_length, Hded.
    assert (List.length od = List.length data)
      by (unfold od, toObjects; apply length_map).
    lia.
  - intros Hw Hz Hm. rewrite Htable.
    unfold stepsData, beforeFill. rewrite Hw, Hz, Hm, Hded. simpl.
    unfold detectIssues. cbn [duplicates].
    rewrite toObjects_toArrays.
    + rewrite uniqueRows_idempotent. lia.
    + intros row Hin. apply uniqueRows_In in Hin.
      unfold od, toObjects in Hin. apply in_map_iff in Hin.
      destruct Hin as [cells [<- _]]. eauto.
Qed.

(** ** Further properties *)

(** *** More on row objects and the report *)

Lemma keys_toObject c hs row :
  In c (map fst (toObject hs row)) <-> In c hs /\ c <> "__proto__".
Proof.
  rewrite <- get_In. unfold toObject.
  destruct (string_dec c "__proto__") as [->|Hp].
  - rewrite get_fillObject_proto by reflexivity. tauto.
  - destruct (get_fillObject c hs 0 row [] Hp)
      as [[Hnin H]|(j & Hj & _ & H)]; rewrite H.
    + simpl. tauto.
    + split; [intros _|intros _; discriminate].
      split; [eapply nth_error_In; eauto|exact Hp].
Qed.

Lemma toObject_last_value (hs : list string) (row : list cell)
      (c : string) (index : nat) :
  c <> "__proto__" ->
  nth_error hs index = Some c ->
  (forall k, index < k -> nth_error hs k <> Some c) ->
  property c (toObject hs row)
  = Some (orElse (cellAt row index) (VStr "")).
Proof.
  intros Hp Hc Hlast. rewrite property_ordinary by assumption.
  unfold toObject.
  destruct (get_fillObject c hs 0 row [] Hp) as [[Hnin _]|(j & Hj & Hl & H)].
  - exfalso. apply Hnin. eapply nth_error_In; eauto.
  - rewrite H. simpl.
    assert (j = index).
    { destruct (Nat.lt_trichotomy j index) as [L|[E|G]]; [|exact E|].
      - exfalso. now apply (Hl index).
      - exfalso. now apply (Hlast j). }
    now subst.
Qed.

(** X4: a row object has exactly one property per distinct header name
    other than [__proto__], and under a name that several columns share
    it reads as the cell of the last of them ([row[index] || '']); the
    earlier columns of that name are not represented.  The name
    [__proto__] is no property of the row object and reads as its
    prototype. *)
Theorem toObject_last_header (hs : list string) (row : list cell)
        (c : string) (index : nat) :
  c <> "__proto__" ->
  nth_error hs index = Some c ->
  (forall k, index < k -> nth_error hs k <> Some c) ->
  property c (toObject hs row)
  = Some (orElse (cellAt row index) (VStr ""))
  /\ NoDup (map fst (toObject hs row))
  /\ (forall k, In k (map fst (toObject hs row))
                <-> In k hs /\ k <> "__proto__")
  /\ property "__proto__" (toObject hs row) = Some VProto.
Proof.
  intros Hp Hc Hlast. split; [|split; [|split]].
  - now apply (toObject_last_value hs row c index).
  - unfold toObject. apply fillObject_NoDup. constructor.
  - intros k. apply keys_toObject.
  - apply property_toObject_proto.
Qed.

Lemma isMissing_orElse (x : cell) :
  isMissing (Some (orElse x (VStr ""))) = isMissing x.
Proof.
  destruct x as [v|]; simpl; [|reflexivity].
  destruct (truthy v) eqn:E; simpl; [now rewrite E|reflexivity].
Qed.

Lemma filter_length_le {A : Type} (f : A -> bool) (l : list A) :
  List.length (filter f l) <= List.length l.
Proof. induction l as [|x r IH]; simpl; [lia|]. destruct (f x); simpl; lia. Qed.

Lemma missingCount_proto hs data :
  missingCount "__proto__" (toObjects hs data) = 0.
Proof.
  unfold missingCount, column, toObjects. rewrite map_map.
  induction data as [|row rest IH]; simpl; [reflexivity|].
  rewrite property_toObject_proto. exact IH.
Qed.

(** X5: the [missing] entry of a column exists exactly when the column is
    a header and at least one row misses its value, and it is the number
    of those rows, at most the number of rows.  For a header name other
    than [__proto__] used by one column only, at position [index], these
    are the rows whose cell at that position is absent, empty, falsy or
    white space only; a column named [__proto__] reads as the prototype
    of the row object and misses no value. *)
Theorem missing_report (data : list (list cell)) (hs : list string)
        (c : string) :
  (forall n, JsObject.get c (missing (detectIssues data hs)) = Some n
             <-> In c hs /\ n = missingCount c (toObjects hs data) /\ 0 < n)
  /\ missingCount c (toObjects hs data) <= List.length data
  /\ (forall index,
         c <> "__proto__" ->
         nth_error hs index = Some c ->
         (forall k, index < k -> nth_error hs k <> Some c) ->
         missingCount c (toObjects hs data)
         = List.length (filter (fun row => isMissing (cellAt row index)) data))
  /\ missingCount "__proto__" (toObjects hs data) = 0.
Proof.
  split; [|split; [|split]].
  - intros n. unfold detectIssues. cbn [missing].
    rewrite get_detectMissing.
    destruct (string_dec c "__proto__") as [->|Hp].
    { rewrite String.eqb_refl, andb_false_r. simpl.
      rewrite missingCount_proto. split; [discriminate|].
      intros (_ & -> & H). lia. }
    apply String.eqb_neq in Hp. rewrite Hp, andb_true_r.
    destruct (existsb (String.eqb c) hs) eqn:E; simpl.
    + apply existsb_eqb_In in E.
      destruct (0 <? missingCount c (toObjects hs data)) eqn:E1.
      * apply Nat.ltb_lt in E1. split.
        -- intros H. injection H as <-. auto.
        -- intros (_ & -> & _). reflexivity.
      * apply Nat.ltb_ge in E1. split; [discriminate|].
        intros (_ & -> & H). lia.
    + split; [discriminate|]. intros (H & _).
      apply existsb_eqb_In in H. congruence.
  - unfold missingCount, column, toObjects.
    pose proof (filter_length_le isMissing
                  (map (property c) (map (toObject hs) data))) as H.
    now rewrite !length_map in H.
  - intros index Hp Hc Hlast.
    unfold missingCount, column, toObjects. rewrite map_map.
    induction data as [|row rest IH]; simpl; [reflexivity|].
    rewrite (toObject_last_value hs row c index Hp Hc Hlast).
    rewrite isMissing_orElse.
    destruct (isMissing (cellAt row index)); simpl; now rewrite IH.
  - apply missingCount_proto.
Qed.

(** *** More on trimming *)

Lemma trimStart_id (s : string) :
  JsString.startsWithWhiteSpace s = false -> JsString.trimStart s = s.
Proof. destruct s as [|c r]; simpl; [reflexivity|]. now intros ->. Qed.

Lemma trimStart_length (s : string) :
  String.length (JsString.trimStart s) <= String.length s.
Proof.
  induction s as [|c r IH]; simpl; [lia|].
  destruct (JsString.isWhiteSpace c); simpl; lia.
Qed.

Lemma trimStart_shorter (s : string) :
  JsString.startsWithWhiteSpace s = true ->
  String.length (JsString.trimStart s) < String.length s.
Proof.
  destruct s as [|c r]; simpl; [discriminate|]. intros ->.
  pose proof (trimStart_length r). lia.
Qed.

Lemma trimStart_clean (s : string) :
  JsString.startsWithWhiteSpace (JsString.trimStart s) = false.
Proof.
  pose proof (trimStart_head s) as H.
  destruct (JsString.trimStart s); simpl; [reflexivity|exact H].
Qed.

Lemma trimEnd_length (s : string) :
  String.length (JsString.trimEnd s) <= String.length s.
Proof.
  induction s as [|c r IH]; simpl; [lia|].
  destruct (JsString.trimEnd r); simpl in *.
  - destruct (JsString.isWhiteSpace c); simpl; lia.
  - lia.
Qed.

Lemma trimEnd_id (s : string) :
  JsString.endsWithWhiteSpace s = false -> JsString.trimEnd s = s.
Proof.
  induction s as [|c r IH]; [reflexivity|].
  destruct r as [|d r'].
  - simpl. now intros ->.
  - intros H. change (JsString.endsWithWhiteSpace (String d r') = false) in H.
    specialize (IH H). change (JsString.trimEnd (String c (String d r')))
      with (match JsString.trimEnd (String d r') with
            | EmptyString =>
                if JsString.isWhiteSpace c then EmptyString
                else String c EmptyString
            | r0 => String c r0
            end).
    now rewrite IH.
Qed.

Lemma trimEnd_shorter (s : string) :
  JsString.endsWithWhiteSpace s = true ->
  String.length (JsString.trimEnd s) < String.length s.
Proof.
  induction s as [|c r IH]; [discriminate|].
  destruct r as [|d r'].
  - simpl. intros ->. simpl. lia.
  - intros H. change (JsString.endsWithWhiteSpace (String d r') = true) in H.
    specialize (IH H).
    change (JsString.trimEnd (String c (String d r')))
      with (match JsString.trimEnd (String d r') with
            | EmptyString =>
                if JsString.isWhiteSpace c then EmptyString
                else String c EmptyString
            | r0 => String c r0
            end).
    destruct (JsString.trimEnd (String d r')) eqn:E.
    + destruct (JsString.isWhiteSpace c); simpl; lia.
    + simpl in *. lia.
Qed.

Lemma trimEnd_clean (s : string) :
  JsString.endsWithWhiteSpace (JsString.trimEnd s) = false.
Proof.
  induction s as [|c r IH]; simpl; [reflexivity|].
  destruct (JsString.trimEnd r) as [|d r'] eqn:E.
  - destruct (JsString.isWhiteSpace c) eqn:W; simpl; [reflexivity|exact W].
  - exact IH.
Qed.

Lemma trimEnd_head (s : string) :
  JsString.startsWithWhiteSpace s = false ->
  JsString.startsWithWhiteSpace (JsString.trimEnd s) = false.
Proof.
  destruct s as [|c r]; simpl; [reflexivity|]. intros W.
  destruct (JsString.trimEnd r); [rewrite W|]; simpl; [exact W|exact W].
Qed.

Lemma trim_clean (s : string) :
  JsString.startsWithWhiteSpace (JsString.trim s) = false
  /\ JsString.endsWithWhiteSpace (JsString.trim s) = false.
Proof.
  unfold JsString.trim. split; [|apply trimEnd_clean].
  apply trimEnd_head, trimStart_clean.
Qed.

Lemma trim_id (s : string) :
  JsString.startsWithWhiteSpace s = false ->
  JsString.endsWithWhiteSpace s = false ->
  JsString.trim s = s.
Proof.
  intros H1 H2. unfold JsString.trim.
  rewrite (trimStart_id s H1). now apply trimEnd_id.
Qed.

Lemma trim_idempotent (s : string) :
  JsString.trim (JsString.trim s) = JsString.trim s.
Proof. destruct (trim_clean s). now apply trim_id. Qed.

(** [value !== value.trim()] says that the value starts or ends with
    white space. *)
Lemma trim_differs (s : string) :
  negb (String.eqb s (JsString.trim s))
  = JsString.startsWithWhiteSpace s || JsString.endsWithWhiteSpace s.
Proof.
  destruct (JsString.startsWithWhiteSpace s) eqn:S1; simpl.
  - apply negb_true_iff, String.eqb_neq. intros E.
    pose proof (trimStart_shorter s S1).
    pose proof (trimEnd_length (JsString.trimStart s)).
    unfold JsString.trim in E. rewrite <- E in *. lia.
  - unfold JsString.trim. rewrite (trimStart_id s S1).
    destruct (JsString.endsWithWhiteSpace s) eqn:S2.
    + apply negb_true_iff, String.eqb_neq. intros E.
      pose proof (trimEnd_shorter s S2). rewrite <- E in *. lia.
    + rewrite (trimEnd_id s S2). now rewrite String.eqb_refl.
Qed.

Lemma replaceNbsp_clean (s : string) :
  JsString.includesNbsp (JsString.replaceNbsp s) = false.
Proof.
  induction s as [|c r IH]; simpl; [reflexivity|].
  rewrite IH, orb_false_r.
  destruct (Ascii.eqb c JsString.nbsp) eqn:E; [reflexivity|exact E].
Qed.

Lemma trimStart_nbsp (s : string) :
  JsString.includesNbsp s = false ->
  JsString.includesNbsp (JsString.trimStart s) = false.
Proof.
  induction s as [|c r IH]; simpl; [reflexivity|]. intros H.
  apply orb_false_iff in H. destruct H as [H1 H2].
  destruct (JsString.isWhiteSpace c); [auto|].
  simpl. now rewrite H1, H2.
Qed.

Lemma trimEnd_nbsp (s : string) :
  JsString.includesNbsp s = false ->
  JsString.includesNbsp (JsString.trimEnd s) = false.
Proof.
  induction s as [|c r IH]; simpl; [reflexivity|]. intros H.
  apply orb_false_iff in H. destruct H as [H1 H2]. specialize (IH H2).
  destruct (JsString.trimEnd r).
  - destruct (JsString.isWhiteSpace c); simpl; [reflexivity|].
    now rewrite H1.
  - simpl. simpl in IH. now rewrite H1, IH.
Qed.

Lemma normalized_clean (x : cell) :
  hasWhitespaceIssue (Some (normalized x)) = false.
Proof.
  unfold hasWhitespaceIssue.
  assert (E : exists t, textOf (Some (normalized x)) = JsString.trim t
                        /\ JsString.includesNbsp t = false).
  { destruct x as [v|]; simpl.
    - eexists. split; [reflexivity|apply replaceNbsp_clean].
    - exists "". split; reflexivity. }
  destruct E as (t & -> & Hn).
  rewrite trim_idempotent, String.eqb_refl. simpl.
  unfold JsString.trim. now apply trimEnd_nbsp, trimStart_nbsp.
Qed.

(** *** More on detection *)

Lemma get_detectWhitespace hs od c :
  JsObject.get c (detectWhitespace hs od)
  = if (existsb (String.eqb c) hs && negb (String.eqb c "__proto__"))
       && existsb hasWhitespaceIssue (column c od)
    then Some "leading_or_trailing_space"
    else None.
Proof.
  unfold detectWhitespace.
  apply (get_fold_set (fun h => existsb hasWhitespaceIssue (column h od))
                      (fun _ => "leading_or_trailing_space") hs [] c eq_refl).
Qed.

Lemma existsb_column (f : cell -> bool) c od :
  existsb f (column c od) = true
  <-> exists row, In row od /\ f (property c row) = true.
Proof.
  unfold column. rewrite existsb_exists. split.
  - intros (x & Hx & Hf). apply in_map_iff in Hx.
    destruct Hx as (row & <- & Hrow). eauto.
  - intros (row & Hrow & Hf). exists (property c row).
    split; [now apply in_map|exact Hf].
Qed.

(** No test that the prototype fails holds of a cell of the column
    [__proto__]. *)
Lemma existsb_column_proto (f : cell -> bool) hs data :
  f (Some VProto) = false ->
  existsb f (column "__proto__" (toObjects hs data)) = false.
Proof.
  intros Hf. destruct (existsb f _) eqn:E; [|reflexivity].
  apply existsb_column in E. destruct E as (row & Hrow & H).
  unfold toObjects in Hrow. apply in_map_iff in Hrow.
  destruct Hrow as (cells & <- & _).
  rewrite property_toObject_proto in H. congruence.
Qed.

(** The condition under which detection records an entry for a column,
    for a test that the prototype fails. *)
Lemma flagged_iff (f : cell -> bool) c hs data :
  f (Some VProto) = false ->
  (existsb (String.eqb c) hs && negb (String.eqb c "__proto__"))
  && existsb f (column c (toObjects hs data)) = true
  <-> In c hs
      /\ exists row, In row (toObjects hs data) /\ f (property c row) = true.
Proof.
  intros Hf. rewrite !andb_true_iff, existsb_eqb_In, existsb_column.
  split; [tauto|]. intros [Hin He]. split; [split; [exact Hin|]|exact He].
  destruct (string_dec c "__proto__") as [->|Hp].
  - apply existsb_column in He.
    rewrite (existsb_column_proto f hs data Hf) in He. discriminate.
  - apply String.eqb_neq in Hp. now rewrite Hp.
Qed.

(** X6: a column is flagged in [whitespace] exactly when it is a header
    and the text of some row starts or ends with a white space character
    or contains a non-breaking space anywhere; the marker is always
    [leading_or_trailing_space]. *)
Theorem whitespace_report (data : list (list cell)) (hs : list string)
        (c : string) :
  (forall marker,
      JsObject.get c (whitespace (detectIssues data hs)) = Some marker
      <-> marker = "leading_or_trailing_space"
          /\ In c hs
          /\ exists row, In row (toObjects hs data)
                         /\ hasWhitespaceIssue (property c row) = true)
  /\ (forall x, hasWhitespaceIssue x
                = JsString.startsWithWhiteSpace (textOf x)
                  || JsString.endsWithWhiteSpace (textOf x)
                  || JsString.includesNbsp (textOf x)).
Proof.
  split.
  - intros marker. unfold detectIssues. cbn [whitespace].
    rewrite get_detectWhitespace.
    pose proof (flagged_iff hasWhitespaceIssue c hs data eq_refl) as F.
    destruct (_ && existsb hasWhitespaceIssue _).
    + split; [|intros (-> & _); reflexivity].
      intros H. injection H as <-. split; [reflexivity|now apply F].
    + split; [discriminate|]. intros (_ & H).
      apply F in H. discriminate.
  - intros x. unfold hasWhitespaceIssue. now rewrite trim_differs.
Qed.

Lemma digits_not_blank (s : string) :
  JsString.isDigitString s = true ->
  JsString.isEmpty s = false /\ JsString.isEmpty (JsString.trim s) = false.
Proof.
  destruct s as [|a r]; simpl; [discriminate|]. intros H.
  split; [reflexivity|].
  apply andb_true_iff in H. destruct H as [D _].
  apply digit_not_whiteSpace in D.
  destruct (JsString.trim (String a r)) eqn:E; [|reflexivity].
  apply trim_empty in E. simpl in E. rewrite D in E. discriminate.
Qed.

(** X7: a column is flagged in [leadingZeros] exactly when it is a header
    and the text of some row consists of digits only, starts with [0] and
    has more than one character.  Such a value is never missing, so a
    column flagged for leading zeros always has a non-empty value. *)
Theorem leadingZeros_report (data : list (list cell)) (hs : list string)
        (c : string) :
  (forall marker,
      JsObject.get c (leadingZeros (detectIssues data hs)) = Some marker
      <-> marker = "leading_zeros_lost"
          /\ In c hs
          /\ exists row, In row (toObjects hs data)
                         /\ hasLeadingZero (property c row) = true)
  /\ (forall row, In row (toObjects hs data) ->
                  hasLeadingZero (property c row) = true ->
                  isMissing (property c row) = false).
Proof.
  split.
  - intros marker. unfold detectIssues. cbn [leadingZeros].
    rewrite get_detectLeadingZeros.
    pose proof (flagged_iff hasLeadingZero c hs data eq_refl) as F.
    destruct (_ && existsb hasLeadingZero _).
    + split; [|intros (-> & _); reflexivity].
      intros H. injection H as <-. split; [reflexivity|now apply F].
    + split; [discriminate|]. intros (_ & H).
      apply F in H. discriminate.
  - intros row Hrow Hz. unfold toObjects in Hrow.
    apply in_map_iff in Hrow. destruct Hrow as (cells & <- & _).
    unfold hasLeadingZero in Hz.
    apply andb_true_iff in Hz. destruct Hz as [Hz _].
    apply andb_true_iff in Hz. destruct Hz as [Hd _].
    apply digits_not_blank in Hd. destruct Hd as [He Ht].
    destruct (toObject_cell c hs cells) as [H|[H|(v & H & Hv)]];
      rewrite H in *; simpl in *; try discriminate.
    now rewrite Hv, Ht.
Qed.

(** *** More on deduplication *)

Section UniqFacts.

Context {A K : Type}.
Variable f : A -> K.
Variable same : K -> K -> bool.

Let fresh (a b : A) : Prop := same (f b) (f a) = false.

Lemma uniqFrom_distinct (seen : list K) (l : list A) :
  (forall y, In y (Lodash.uniqFrom f same seen l) ->
             existsb (same (f y)) seen = false)
  /\ ForallOrdPairs fresh (Lodash.uniqFrom f same seen l).
Proof.
  revert seen; induction l as [|x r IH]; intros seen; simpl.
  - split; [tauto|constructor].
  - destruct (existsb (same (f x)) seen) eqn:E; [apply IH|].
    destruct (IH (f x :: seen)) as [H1 H2]. split.
    + intros y [<-|Hy]; [exact E|].
      specialize (H1 y Hy). simpl in H1.
      now apply orb_false_iff in H1.
    + constructor; [|exact H2]. apply Forall_forall. intros y Hy.
      specialize (H1 y Hy). simpl in H1.
      apply orb_false_iff in H1. exact (proj1 H1).
Qed.

Lemma uniqFrom_all (seen : list K) (l : list A) :
  Lodash.uniqFrom f same seen l = l
  <-> (forall y, In y l -> existsb (same (f y)) seen = false)
      /\ ForallOrdPairs fresh l.
Proof.
  revert seen; induction l as [|x r IH]; intros seen; simpl.
  - split; [intros _; split; [tauto|constructor]|reflexivity].
  - destruct (existsb (same (f x)) seen) eqn:E.
    + split.
      * intros H. pose proof (uniqFrom_length f same seen r) as L.
        rewrite H in L. simpl in L. lia.
      * intros [H _]. specialize (H x (or_introl eq_refl)). congruence.
    + split.
      * intros H. injection H as H. apply IH in H. destruct H as [H1 H2].
        split.
        -- intros y [<-|Hy]; [exact E|].
           specialize (H1 y Hy). simpl in H1.
           now apply orb_false_iff in H1.
        -- constructor; [|exact H2]. apply Forall_forall. intros y Hy.
           specialize (H1 y Hy). simpl in H1.
           apply orb_false_iff in H1. exact (proj1 H1).
      * intros [H1 H2]. f_equal. apply IH.
        inversion H2 as [|? ? Hx Hr]; subst. split; [|exact Hr].
        intros y Hy. simpl. apply orb_false_iff. split.
        -- rewrite Forall_forall in Hx. now apply Hx.
        -- apply H1. now right.
Qed.

End UniqFacts.

Lemma uniqFrom_full_length {A K : Type} (f : A -> K) (same : K -> K -> bool)
      (seen : list K) (l : list A) :
  List.length (Lodash.uniqFrom f same seen l) = List.length l ->
  Lodash.uniqFrom f same seen l = l.
Proof.
  revert seen; induction l as [|x r IH]; intros seen; simpl; [reflexivity|].
  destruct (existsb (same (f x)) seen).
  - intros H. pose proof (uniqFrom_length f same seen r). lia.
  - simpl. intros H. f_equal. apply IH. lia.
Qed.

(** X8: [duplicates] is the number of rows that deduplication drops; it
    is smaller than the number of rows of a non-empty table, and it is 0
    exactly when no row has the JSON text of an earlier row. *)
Theorem duplicates_report (data : list (list cell)) (hs : list string) :
  duplicates (detectIssues data hs)
  + List.length (uniqueRows (toObjects hs data)) = List.length data
  /\ (data <> [] -> duplicates (detectIssues data hs) < List.length data)
  /\ (duplicates (detectIssues data hs) = 0
      <-> ForallOrdPairs
            (fun earlier later =>
               entries_eqb (JsObject.entries later) (JsObject.entries earlier)
               = false)
            (toObjects hs data)).
Proof.
  unfold detectIssues. cbn [duplicates].
  set (od := toObjects hs data).
  assert (Hlen : List.length od = List.length data)
    by (unfold od, toObjects; apply length_map).
  pose proof (uniqueRows_length od) as Hle.
  split; [lia|]. split.
  - intros Hne.
    assert (0 < List.length (uniqueRows od)).
    { unfold od, toObjects. destruct data as [|row rest]; [congruence|].
      unfold uniqueRows, Lodash.uniqBy.
      cbn [map Lodash.uniqFrom existsb List.length]. lia. }
    lia.
  - split.
    + intros H.
      assert (E : uniqueRows od = od).
      { apply uniqFrom_full_length.
        change (List.length (uniqueRows od) = List.length od). lia. }
      apply (uniqFrom_all JsObject.entries entries_eqb [] od) in E.
      exact (proj2 E).
    + intros H.
      assert (E : uniqueRows od = od).
      { apply (uniqFrom_all JsObject.entries entries_eqb [] od).
        split; [reflexivity|exact H]. }
      rewrite E. lia.
Qed.

(** X9: the rows kept by deduplication have pairwise different JSON
    texts, each of them is a row of the input, every row of the input has
    a kept row of the same text, the first row is always kept, and
    deduplicating again changes nothing. *)
Theorem uniqueRows_keeps_first_of_each (od : list rowObject) :
  ForallOrdPairs
    (fun earlier later =>
       entries_eqb (JsObject.entries later) (JsObject.entries earlier) = false)
    (uniqueRows od)
  /\ (forall row, In row (uniqueRows od) -> In row od)
  /\ (forall row, In row od ->
                  exists kept,
                    In kept (uniqueRows od)
                    /\ entries_eqb (JsObject.entries row)
                                   (JsObject.entries kept) = true)
  /\ (forall first rest, od = first :: rest ->
                         exists others, uniqueRows od = first :: others)
  /\ uniqueRows (uniqueRows od) = uniqueRows od.
Proof.
  split; [|split; [|split; [|split]]].
  - exact (proj2 (uniqFrom_distinct JsObject.entries entries_eqb [] od)).
  - apply uniqueRows_In.
  - apply uniqueRows_repr.
  - intros first rest ->. eexists. reflexivity.
  - apply uniqueRows_idempotent.
Qed.

(** *** More on cleanData *)

Lemma setColumn_present c c' f od :
  Forall (fun x : cell => x <> None) (column c od) ->
  Forall (fun x : cell => x <> None) (column c (setColumn c' f od)).
Proof.
  intros H. destruct (string_dec c c') as [<-|Hne].
  - rewrite column_setColumn_same. apply Forall_map.
    apply Forall_forall. intros x _. discriminate.
  - now rewrite column_setColumn_other.
Qed.

Lemma stepsData_present report c hs data :
  In c hs ->
  Forall (fun x : cell => x <> None)
         (column c (stepsData report (toObjects hs data))).
Proof.
  intros Hin. unfold stepsData, beforeFill.
  pose proof (beforeZeros_present report c hs data Hin) as H0.
  unfold beforeZeros in H0.
  set (od2 := whitespaceData _ _) in *. clearbody od2.
  assert (H1 : Forall (fun x : cell => x <> None)
                      (column c (zerosData
                                   (JsObject.ownKeys (leadingZeros report))
                                   od2))).
  { revert od2 H0.
    induction (JsObject.ownKeys (leadingZeros report)) as [|c' cols IH];
      intros od2 H0; simpl; [exact H0|].
    apply IH. now apply setColumn_present. }
  set (od3 := zerosData _ _) in *. clearbody od3.
  revert od3 H1.
  induction (JsObject.ownKeys (missing report)) as [|c' cols IH];
    intros od3 H1; simpl; [exact H1|].
  apply IH. unfold fillColumn.
  destruct (0 <? _); [now apply setColumn_present|exact H1].
Qed.

Lemma uniqueRows_nonempty (od : list rowObject) :
  od <> [] -> 0 < List.length (uniqueRows od).
Proof.
  destruct od as [|row rest]; [congruence|]. intros _.
  unfold uniqueRows, Lodash.uniqBy.
  cbn [Lodash.uniqFrom existsb List.length]. lia.
Qed.

Lemma dedupData_length report od :
  List.length (dedupData report od) <= List.length od
  /\ (od <> [] -> 0 < List.length (dedupData report od))
  /\ (duplicates report = 0 -> dedupData report od = od).
Proof.
  unfold dedupData. destruct (0 <? duplicates report) eqn:E.
  - apply Nat.ltb_lt in E. split; [apply uniqueRows_length|].
    split; [apply uniqueRows_nonempty|lia].
  - split; [lia|]. split; [|reflexivity].
    destruct od; [congruence|simpl; lia].
Qed.

(** X10: when [cleanData] runs, the cleaned table is rectangular and
    complete: every row has one cell per header and no cell is
    [undefined], whatever the length of the input rows.  It has at least
    one row and at most as many rows as the input, and exactly as many
    when the report counts no duplicate. *)
Theorem cleaned_table_shape (st : AppState) (h : heap) (report : Issues) :
  issues st = Some report ->
  readTable h (csvData st) <> [] ->
  Forall (fun row => List.length row = List.length (headers st)
                     /\ Forall (fun x => x <> None) row)
         (cleanedTable (cleanData st h))
  /\ 1 <= List.length (cleanedTable (cleanData st h))
  /\ List.length (cleanedTable (cleanData st h))
     <= List.length (loadTable h (csvData st))
  /\ (duplicates report = 0 ->
      List.length (cleanedTable (cleanData st h))
      = List.length (loadTable h (csvData st))).
Proof.
  intros Hrep Hrows.
  rewrite (cleanData_table st h report Hrep Hrows).
  set (data := loadTable h (csvData st)).
  set (od := toObjects (headers st) data).
  assert (Hod : List.length od = List.length data)
    by (unfold od, toObjects; apply length_map).
  assert (Hne : od <> []).
  { intros E. rewrite E in Hod. unfold data, loadTable in Hod.
    rewrite length_map in Hod. destruct (readTable h (csvData st));
      [congruence|discriminate]. }
  destruct (dedupData_length report od) as (L1 & L2 & L3).
  rewrite toArrays_length, stepsData_length.
  split; [|split; [specialize (L2 Hne); lia|split; [lia|]]].
  - apply Forall_forall. intros cells Hcells.
    unfold toArrays in Hcells. apply in_map_iff in Hcells.
    destruct Hcells as (row & <- & Hrow). split; [apply length_map|].
    apply Forall_forall. intros x Hx. apply in_map_iff in Hx.
    destruct Hx as (c & <- & Hc).
    pose proof (stepsData_present report c (headers st) data Hc) as P.
    rewrite column_Forall in P. now apply P.
  - intros Hd. now rewrite (L3 Hd).
Qed.

(** X11: a column that the report flags nowhere (not in [whitespace],
    [leadingZeros] or [missing]) comes out of [cleanData] as it was in
    the deduplicated input; when moreover no duplicate is reported and the
    header name is used once and is not [__proto__], every cell of the
    cleaned column is the input cell, with the empty string for an absent
    or falsy one.  An unflagged column named [__proto__] comes out as the
    prototype of the row object in every row. *)
Theorem unflagged_column_unchanged
        (st : AppState) (h : heap) (report : Issues) (c : string)
        (index : nat) :
  issues st = Some report ->
  readTable h (csvData st) <> [] ->
  nth_error (headers st) index = Some c ->
  ~ In c (JsObject.ownKeys (whitespace report)) ->
  ~ In c (JsObject.ownKeys (leadingZeros report)) ->
  ~ In c (JsObject.ownKeys (missing report)) ->
  tableColumn index (cleanedTable (cleanData st h))
  = column c (dedupData report
                (toObjects (headers st) (loadTable h (csvData st))))
  /\ (duplicates report = 0 ->
      c <> "__proto__" ->
      (forall k, index < k -> nth_error (headers st) k <> Some c) ->
      tableColumn index (cleanedTable (cleanData st h))
      = map (fun row => Some (orElse (cellAt row index) (VStr "")))
            (loadTable h (csvData st)))
  /\ (c = "__proto__" ->
      Forall (fun x => x = Some VProto)
             (tableColumn index (cleanedTable (cleanData st h)))).
Proof.
  intros Hrep Hrows Hc Hw Hz Hm.
  assert (E : tableColumn index (cleanedTable (cleanData st h))
              = column c (dedupData report
                            (toObjects (headers st)
                                       (loadTable h (csvData st))))).
  { rewrite (cleanData_table st h report Hrep Hrows).
    rewrite (tableColumn_toArrays _ _ c) by assumption.
    unfold stepsData, beforeFill.
    rewrite column_fillData_other by assumption.
    rewrite column_zerosData_other by assumption.
    now rewrite column_whitespaceData_other. }
  split; [exact E|]. split.
  - intros Hd Hp Hlast. rewrite E.
    rewrite (proj2 (proj2 (dedupData_length report _)) Hd).
    unfold column, toObjects. rewrite map_map. apply map_ext.
    intros row. now apply toObject_last_value.
  - intros ->. rewrite E. apply Forall_forall. intros x Hx.
    unfold column in Hx. apply in_map_iff in Hx.
    destruct Hx as (row & <- & Hrow).
    apply dedupData_In in Hrow. unfold toObjects in Hrow.
    apply in_map_iff in Hrow. destruct Hrow as (cells & <- & _).
    apply property_toObject_proto.
Qed.

Lemma whitespaceData_clean c cols od :
  In c cols ->
  Forall (fun x => hasWhitespaceIssue x = false)
         (column c (whitespaceData cols od)).
Proof.
  revert od; induction cols as [|c' cols IH]; intros od Hin; simpl;
    [contradiction|].
  destruct (in_dec string_dec c cols) as [Hrest|Hrest].
  - now apply IH.
  - destruct Hin as [->|Hin]; [|contradiction].
    fold (whitespaceData cols (setColumn c normalized od)).
    rewrite column_whitespaceData_other by assumption.
    rewrite column_setColumn_same. apply Forall_map.
    apply Forall_forall. intros x _. apply normalized_clean.
Qed.

(** Reading the cleaned arrays back into row objects. *)
Lemma column_toObjects_toArrays c hs (od : list rowObject) :
  c <> "__proto__" ->
  In c hs ->
  column c (toObjects hs (toArrays hs od))
  = map (fun x => Some (orElse x (VStr ""))) (column c od).
Proof.
  intros Hp Hin. unfold column, toObjects, toArrays. rewrite !map_map.
  apply map_ext. intros row. unfold toObject.
  destruct (get_fillObject c hs 0
              (map (fun header => property header row) hs) [] Hp)
    as [[Hnin _]|(j & Hj & _ & H)]; [contradiction|].
  rewrite property_ordinary by assumption.
  rewrite H. simpl. unfold cellAt. now rewrite nth_error_map, Hj.
Qed.

Lemma orElse_clean (x : cell) :
  hasWhitespaceIssue x = false ->
  hasWhitespaceIssue (Some (orElse x (VStr ""))) = false.
Proof.
  destruct x as [v|]; simpl; [|reflexivity].
  destruct (truthy v); [tauto|reflexivity].
Qed.

(** X12: after cleaning, no value of a column flagged in [whitespace] (and
    not in [leadingZeros] or [missing]) starts or ends with white space
    or contains a non-breaking space, and detection on the cleaned table
    does not flag the column again. *)
Theorem whitespace_column_normalized
        (st : AppState) (h : heap) (report : Issues) (c : string)
        (index : nat) :
  issues st = Some report ->
  readTable h (csvData st) <> [] ->
  nth_error (headers st) index = Some c ->
  In c (JsObject.ownKeys (whitespace report)) ->
  ~ In c (JsObject.ownKeys (leadingZeros report)) ->
  ~ In c (JsObject.ownKeys (missing report)) ->
  Forall (fun x => hasWhitespaceIssue x = false)
         (tableColumn index (cleanedTable (cleanData st h)))
  /\ JsObject.get c (whitespace
                      (detectIssues (cleanedTable (cleanData st h))
                                    (headers st))) = None.
Proof.
  intros Hrep Hrows Hc Hw Hz Hm.
  set (od := toObjects (headers st) (loadTable h (csvData st))).
  assert (Hclean : Forall (fun x => hasWhitespaceIssue x = false)
                          (column c (stepsData report od))).
  { unfold stepsData, beforeFill.
    rewrite column_fillData_other by assumption.
    rewrite column_zerosData_other by assumption.
    now apply whitespaceData_clean. }
  assert (Hin : In c (headers st)) by (eapply nth_error_In; eauto).
  rewrite (cleanData_table st h report Hrep Hrows). fold od. split.
  - now rewrite (tableColumn_toArrays _ _ c).
  - unfold detectIssues. cbn [whitespace]. rewrite get_detectWhitespace.
    destruct (string_dec c "__proto__") as [Hp|Hp].
    { rewrite Hp at 2. now rewrite String.eqb_refl, andb_false_r. }
    replace (existsb hasWhitespaceIssue _) with false;
      [now rewrite andb_false_r|].
    symmetry. apply not_true_is_false. intros H.
    apply existsb_exists in H. destruct H as (x & Hx & Hissue).
    rewrite column_toObjects_toArrays in Hx by assumption.
    apply in_map_iff in Hx. destruct Hx as (y & <- & Hy).
    rewrite Forall_forall in Hclean.
    rewrite (orElse_clean y (Hclean y Hy)) in Hissue. discriminate.
Qed.

Lemma fillEntries_filter report cols od :
  NoDup cols ->
  fillEntries report cols od
  = map (fun c => entry (FilledMissingValues
                           (JsObject.get c (missing report)) c) success)
        (filter (fun c => 0 <? List.length (nonEmpty (column c od))) cols).
Proof.
  revert od; induction cols as [|c cols IH]; intros od Hnd; simpl;
    [reflexivity|].
  inversion Hnd as [|? ? Hnin Hnd']; subst.
  rewrite (IH (fillColumn c od) Hnd').
  assert (E : filter (fun c0 => 0 <? List.length
                                       (nonEmpty (column c0 (fillColumn c od))))
                     cols
              = filter (fun c0 => 0 <? List.length (nonEmpty (column c0 od)))
                       cols).
  { apply filter_ext_in. intros c0 Hc0.
    rewrite column_fillColumn_other; [reflexivity|].
    intros ->. contradiction. }
  rewrite E. destruct (0 <? _); reflexivity.
Qed.

(** X13: the log of a run lists the fixes in pipeline order: the
    duplicate-removal entry when the report counts duplicates, carrying
    the number of rows the cleaned table lost; one whitespace entry per
    flagged column; one leading-zero entry per flagged column; one
    imputation entry per column flagged as missing that has a non-empty
    value when imputation starts, carrying the count of the report; and
    the completion entry.  Columns appear in [Object.keys] order. *)
Theorem cleaning_log_order (st : AppState) (h : heap) (report : Issues) :
  issues st = Some report ->
  readTable h (csvData st) <> [] ->
  distinctKeys (missing report) ->
  let data := loadTable h (csvData st) in
  let objectData := toObjects (headers st) data in
  logOf (cleanData st h)
  = (if 0 <? duplicates report
     then [entry (RemovedDuplicateRows
                    (List.length data
                     - List.length (cleanedTable (cleanData st h)))) success]
     else [])
    ++ map (fun c => entry (FixedWhitespace c) success)
           (JsObject.ownKeys (whitespace report))
    ++ map (fun c => entry (RestoredLeadingZeros c) success)
           (JsObject.ownKeys (leadingZeros report))
    ++ map (fun c => entry (FilledMissingValues
                              (JsObject.get c (missing report)) c) success)
           (filter (fun c => 0 <? List.length
                                    (nonEmpty
                                       (column c (beforeFill report
                                                             objectData))))
                   (JsObject.ownKeys (missing report)))
    ++ [entry CleaningComplete success].
Proof.
  intros Hrep Hrows Hkeys data objectData.
  rewrite (cleanData_log st h report Hrep Hrows).
  rewrite (cleanData_table st h report Hrep Hrows).
  fold data. fold objectData.
  rewrite toArrays_length, stepsData_length.
  unfold stepsEntries, dedupEntries, whitespaceEntries, zerosEntries.
  rewrite fillEntries_filter by (now apply ownKeys_NoDup).
  rewrite <- !app_assoc.
  assert (Hod : List.length objectData = List.length data)
    by (unfold objectData, toObjects; apply length_map).
  unfold dedupData. destruct (0 <? duplicates report); [|reflexivity].
  now rewrite Hod.
Qed.

(** *** The mode *)

Lemma countFrom_get (l : list string) (acc : JsObject.t nat) (k : string) :
  JsObject.get k (Lodash.countFrom acc l)
  = match JsObject.get k acc with
    | Some a => Some (a + count_occ string_dec l k)
    | None => if count_occ string_dec l k =? 0 then None
              else Some (count_occ string_dec l k)
    end.
Proof.
  revert acc; induction l as [|x r IH]; intros acc; simpl.
  - destruct (JsObject.get k acc); [f_equal; lia|reflexivity].
  - rewrite IH, get_set.
    destruct (string_dec x k) as [->|Hne].
    + rewrite String.eqb_refl.
      destruct (JsObject.get k acc); simpl; f_equal; lia.
    + replace (String.eqb k x) with false
        by (symmetry; apply String.eqb_neq; congruence).
      reflexivity.
Qed.

Lemma countBy_get (l : list string) (k : string) :
  JsObject.get k (Lodash.countBy l)
  = if count_occ string_dec l k =? 0 then None
    else Some (count_occ string_dec l k).
Proof. unfold Lodash.countBy. now rewrite countFrom_get. Qed.

Lemma countBy_keys (l : list string) (k : string) :
  In k (JsObject.ownKeys (Lodash.countBy l)) <-> In k l.
Proof.
  rewrite ownKeys_In, countBy_get, (count_occ_In string_dec).
  destruct (count_occ string_dec l k =? 0) eqn:E.
  - apply Nat.eqb_eq in E. split; [congruence|lia].
  - apply Nat.eqb_neq in E. split; [lia|discriminate].
Qed.

(** [_.maxBy] over elements that all have a computed value returns an
    element of the greatest value. *)
Lemma extremum_greatest {A : Type} (g : A -> nat) (array : list A)
      (computed : option nat) (result : option A) :
  (computed = None /\ result = None
   \/ exists b, result = Some b /\ computed = Some (g b)) ->
  array <> [] \/ result <> None ->
  exists best,
    Lodash.extremum (fun x => Some (g x)) computed result array = Some best
    /\ (In best array \/ result = Some best)
    /\ (forall x, In x array -> g x <= g best)
    /\ (forall c, computed = Some c -> c <= g best).
Proof.
  revert computed result; induction array as [|x r IH];
    intros computed result Hinv Hne; simpl.
  - destruct Hinv as [[-> ->]|(b & -> & ->)].
    + destruct Hne as [H|H]; congruence.
    + exists b. split; [reflexivity|]. split; [now right|].
      split; [tauto|]. intros c Hc. injection Hc as <-. lia.
  - destruct computed as [c|].
    + destruct Hinv as [[H _]|(b & -> & Hc)]; [discriminate|].
      injection Hc as ->.
      destruct (g b <? g x) eqn:E.
      * apply Nat.ltb_lt in E.
        destruct (IH (Some (g x)) (Some x)) as (best & H1 & H2 & H3 & H4);
          [right; eauto|right; discriminate|].
        exists best. split; [exact H1|]. split.
        -- left. destruct H2 as [H2|H2]; [now right|left; congruence].
        -- specialize (H4 _ eq_refl). split.
           ++ intros y [<-|Hy]; [exact H4|now apply H3].
           ++ intros c Hc. injection Hc as <-. lia.
      * apply Nat.ltb_ge in E.
        destruct (IH (Some (g b)) (Some b)) as (best & H1 & H2 & H3 & H4);
          [right; eauto|right; discriminate|].
        exists best. split; [exact H1|]. split.
        -- destruct H2 as [H2|H2]; [left; now right|now right].
        -- specialize (H4 _ eq_refl). split.
           ++ intros y [<-|Hy]; [lia|now apply H3].
           ++ intros c Hc. injection Hc as <-. lia.
    + destruct Hinv as [[_ ->]|(b & _ & H)]; [|discriminate].
      destruct (IH (Some (g x)) (Some x)) as (best & H1 & H2 & H3 & H4);
        [right; eauto|right; discriminate|].
      exists best. split; [exact H1|]. split.
      * left. destruct H2 as [H2|H2]; [now right|left; congruence].
      * specialize (H4 _ eq_refl). split.
        -- intros y [<-|Hy]; [exact H4|now apply H3].
        -- intros c Hc. discriminate.
Qed.

Lemma extremum_ext {A : Type} (f g : A -> option nat) (array : list A)
      (computed : option nat) (result : option A) :
  (forall x, In x array -> f x = g x) ->
  Lodash.extremum f computed result array
  = Lodash.extremum g computed result array.
Proof.
  revert computed result; induction array as [|x r IH];
    intros computed result H; simpl; [reflexivity|].
  rewrite (H x (or_introl eq_refl)).
  assert (Hr : forall y, In y r -> f y = g y)
    by (intros y Hy; apply H; now right).
  destruct (g x) as [cur|]; [|now apply IH].
  destruct computed as [c|]; [destruct (c <? cur)|]; now apply IH.
Qed.

Lemma nonEmpty_In (cells : list cell) (v : value) :
  In v (nonEmpty cells) ->
  In (Some v) cells /\ truthy v = true
  /\ JsString.isEmpty (JsString.trim (toString v)) = false.
Proof.
  induction cells as [|x r IH]; simpl; [tauto|].
  destruct x as [w|].
  - destruct (truthy w) eqn:T; simpl.
    + destruct (JsString.isEmpty (JsString.trim (toString w))) eqn:E; simpl.
      * intros H. destruct (IH H) as (A & B & C). auto.
      * intros [<-|H]; [auto|]. destruct (IH H) as (A & B & C). auto.
    + intros H. destruct (IH H) as (A & B & C). auto.
  - intros H. destruct (IH H) as (A & B & C). auto.
Qed.

Lemma nonEmpty_text (cells : list cell) (v : value) :
  In v (nonEmpty cells) -> JsString.isEmpty (toString v) = false.
Proof.
  intros H. destruct (nonEmpty_In cells v H) as (_ & _ & E).
  destruct (toString v); [discriminate|reflexivity].
Qed.

(** The most frequent text, as [mode] computes it. *)
Lemma maxBy_countBy (texts : list string) :
  texts <> [] ->
  exists best,
    Lodash.maxBy (fun key => JsObject.get key (Lodash.countBy texts))
                 (JsObject.ownKeys (Lodash.countBy texts)) = Some best
    /\ In best texts
    /\ forall t, count_occ string_dec texts t
                 <= count_occ string_dec texts best.
Proof.
  intros Hne.
  set (counts := Lodash.countBy texts).
  set (g := fun k => count_occ string_dec texts k).
  assert (Hext : Lodash.maxBy (fun key => JsObject.get key counts)
                              (JsObject.ownKeys counts)
                 = Lodash.extremum (fun k => Some (g k)) None None
                                   (JsObject.ownKeys counts)).
  { unfold Lodash.maxBy. apply extremum_ext. intros k Hk.
    unfold counts. rewrite countBy_get.
    apply (proj1 (countBy_keys texts k)) in Hk.
    apply (proj1 (count_occ_In string_dec texts k)) in Hk. unfold g.
    destruct (count_occ string_dec texts k =? 0) eqn:E; [|reflexivity].
    apply Nat.eqb_eq in E. exfalso. lia. }
  assert (Hkeys : JsObject.ownKeys counts <> []).
  { destruct texts as [|t0 r]; [congruence|]. intros H.
    assert (Hin : In t0 (JsObject.ownKeys counts))
      by (apply countBy_keys; now left).
    rewrite H in Hin. contradiction. }
  rewrite Hext.
  destruct (extremum_greatest g (JsObject.ownKeys counts) None None)
    as (best & H1 & H2 & H3 & _); [now left|now left|].
  destruct H2 as [H2|H2]; [|discriminate].
  exists best. split; [exact H1|].
  split; [now apply (proj1 (countBy_keys texts best))|].
  intros t. fold (g t). fold (g best).
  destruct (in_dec string_dec t texts) as [Ht|Ht].
  - apply H3. now apply (proj2 (countBy_keys texts t)).
  - unfold g at 1.
    apply (proj1 (count_occ_not_In string_dec texts t)) in Ht. lia.
Qed.

Lemma mode_of_nonEmpty (cells : list cell) :
  nonEmpty cells <> [] ->
  exists v, In v (nonEmpty cells)
            /\ mode (nonEmpty cells) = VStr (toString v).
Proof.
  intros Hne. unfold mode.
  destruct (maxBy_countBy (map toString (nonEmpty cells)))
    as (best & Hbest & Hin & _).
  { destruct (nonEmpty cells); [congruence|discriminate]. }
  rewrite Hbest. apply in_map_iff in Hin. destruct Hin as (v & <- & Hv).
  exists v. split; [exact Hv|].
  simpl. now rewrite (nonEmpty_text cells v Hv).
Qed.

(** X14: for a column that has a non-empty value, the mode used as fill
    value is the text of one of its non-empty values, and no text occurs
    more often in the column; the fallback [Unknown] is never taken. *)
Theorem mode_is_most_frequent (cells : list cell) :
  nonEmpty cells <> [] ->
  exists v,
    In v (nonEmpty cells)
    /\ mode (nonEmpty cells) = VStr (toString v)
    /\ forall t,
         count_occ string_dec (map toString (nonEmpty cells)) t
         <= count_occ string_dec (map toString (nonEmpty cells)) (toString v).
Proof.
  intros Hne. unfold mode.
  destruct (maxBy_countBy (map toString (nonEmpty cells)))
    as (best & Hbest & Hin & Hmax).
  { destruct (nonEmpty cells); [congruence|discriminate]. }
  rewrite Hbest. apply in_map_iff in Hin. destruct Hin as (v & <- & Hv).
  exists v. split; [exact Hv|]. split; [|exact Hmax].
  simpl. now rewrite (nonEmpty_text cells v Hv).
Qed.

(** *** Imputation and detection *)

Lemma fillValueOf_categorical (vals : list value) :
  ~ Forall (fun v => parseNumber (toString v) <> None) vals ->
  fillValueOf vals = mode vals.
Proof.
  intros H. unfold fillValueOf.
  destruct (_ =? _) eqn:E; [|reflexivity].
  exfalso. apply H. apply Nat.eqb_eq in E.
  rewrite <- (length_map (fun v => parseNumber (toString v)) vals) in E.
  apply keepNumbers_all in E. rewrite Forall_map in E. exact E.
Qed.

Lemma trimmed_text_present (t : string) :
  JsString.isEmpty (JsString.trim t) = false ->
  isMissing (Some (VStr (JsString.trim t))) = false.
Proof.
  intros H. simpl. now rewrite trim_idempotent, H.
Qed.

(** X15: when a column flagged as missing is categorical at imputation
    time (it has a non-empty value that [parseFloat] rejects), no cell of
    the column is missing after cleaning, and the gaps hold the mode of the
    non-empty values. *)
Theorem categorical_column_has_no_gap
        (st : AppState) (h : heap) (report : Issues) (c : string)
        (index : nat) :
  issues st = Some report ->
  readTable h (csvData st) <> [] ->
  distinctKeys (missing report) ->
  In c (JsObject.ownKeys (missing report)) ->
  nth_error (headers st) index = Some c ->
  let objectData := toObjects (headers st) (loadTable h (csvData st)) in
  let before := column c (beforeFill report objectData) in
  let after := tableColumn index (cleanedTable (cleanData st h)) in
  ~ Forall (fun v => parseNumber (toString v) <> None) (nonEmpty before) ->
  Forall (fun x => isMissing x = false) after
  /\ (forall k x, nth_error before k = Some x -> isMissing x = true ->
                  nth_error after k = Some (Some (mode (nonEmpty before)))).
Proof.
  intros Hrep Hrows Hkeys Hin Hc objectData before after Hcat.
  assert (Hne : nonEmpty before <> []).
  { intros E. apply Hcat. rewrite E. constructor. }
  assert (Hafter : after
                   = map (fun x => Some (filled (mode (nonEmpty before)) x))
                         before).
  { unfold after.
    rewrite (cleaned_filled_column st h report c index) by assumption.
    fold objectData. fold before.
    now rewrite fillValueOf_categorical. }
  destruct (mode_of_nonEmpty before Hne) as (v0 & Hv0 & Hmode).
  destruct (nonEmpty_In before v0 Hv0) as (_ & _ & Hv0t).
  assert (Hfill : isMissing (Some (mode (nonEmpty before))) = false).
  { rewrite Hmode. simpl.
    rewrite (nonEmpty_text before v0 Hv0), Hv0t. reflexivity. }
  split.
  - rewrite Hafter. apply Forall_map. apply Forall_forall. intros x _.
    destruct (isMissing x) eqn:E.
    + now rewrite filled_missing.
    + destruct (filled_present (mode (nonEmpty before)) x E) as (v & -> & ->).
      apply trimmed_text_present.
      simpl in E. apply orb_false_iff in E. exact (proj2 E).
  - intros k x Hk Hx. rewrite Hafter, nth_error_map, Hk. simpl.
    now rewrite filled_missing.
Qed.

(** *** Leading zeros and imputation *)

Lemma endsWithWhiteSpace_append (a s : string) :
  s <> EmptyString ->
  JsString.endsWithWhiteSpace (String.append a s)
  = JsString.endsWithWhiteSpace s.
Proof.
  intros Hs. induction a as [|x a IH]; [reflexivity|].
  simpl String.append. cbn [JsString.endsWithWhiteSpace].
  destruct (String.append a s) eqn:E; [|exact IH].
  destruct a; simpl in E; [congruence|discriminate].
Qed.

Lemma zeros_endsWithWhiteSpace (n : nat) :
  JsString.endsWithWhiteSpace (JsString.repeat JsString.zero n) = false.
Proof.
  induction n as [|n IH]; [reflexivity|].
  simpl JsString.repeat. cbn [JsString.endsWithWhiteSpace].
  destruct (JsString.repeat JsString.zero n); [reflexivity|exact IH].
Qed.

Lemma append_empty (s : string) : String.append s EmptyString = s.
Proof. induction s as [|x s IH]; simpl; [reflexivity|now rewrite IH]. Qed.

Lemma trim_fixed (s : string) :
  JsString.trim s = s
  <-> JsString.startsWithWhiteSpace s = false
      /\ JsString.endsWithWhiteSpace s = false.
Proof.
  pose proof (trim_differs s) as H. split.
  - intros E. rewrite E, String.eqb_refl in H. simpl in H.
    symmetry in H. now apply orb_false_iff in H.
  - intros [H1 H2]. now apply trim_id.
Qed.

(** Padding with zeros on the left leaves trimmed text trimmed. *)
Lemma padStart_trimmed (width : nat) (s : string) :
  JsString.trim s = s ->
  JsString.trim (JsString.padStart width s) = JsString.padStart width s.
Proof.
  rewrite !trim_fixed. intros [H1 H2]. unfold JsString.padStart.
  set (n := width - String.length s). clearbody n. split.
  - destruct n; [exact H1|reflexivity].
  - destruct s as [|x s].
    + rewrite append_empty. apply zeros_endsWithWhiteSpace.
    + rewrite endsWithWhiteSpace_append by discriminate. exact H2.
Qed.

Lemma normalized_trimmed (x : cell) : trimmedCell (Some (normalized x)).
Proof.
  unfold trimmedCell. destruct x as [v|]; simpl; [|reflexivity].
  apply trim_idempotent.
Qed.

Lemma padded_trimmed (width : nat) (x : cell) :
  trimmedCell x -> trimmedCell (Some (padded width x)).
Proof.
  unfold trimmedCell. destruct x as [v|]; simpl; [|reflexivity].
  apply padStart_trimmed.
Qed.

Lemma clean_trimmed (x : cell) :
  hasWhitespaceIssue x = false -> trimmedCell x.
Proof.
  unfold hasWhitespaceIssue, trimmedCell. intros H.
  apply orb_false_iff in H. destruct H as [H _].
  apply negb_false_iff, String.eqb_eq in H. now symmetry.
Qed.

Lemma normalized_text (x : cell) : textCell (Some (normalized x)).
Proof. destruct x; simpl; eexists; reflexivity. Qed.

Lemma padded_text (width : nat) (x : cell) : textCell (Some (padded width x)).
Proof. destruct x; simpl; eexists; reflexivity. Qed.

(** A property of the cells of a column that the fixes of the column
    preserve holds after the whitespace and the leading-zero step. *)
Section ColumnInvariant.

Variable I : cell -> Prop.

Lemma setColumn_invariant c c' f od :
  (forall x, I x -> I (Some (f x))) ->
  Forall I (column c od) -> Forall I (column c (setColumn c' f od)).
Proof.
  intros Hf H. destruct (string_dec c c') as [<-|Hne].
  - rewrite column_setColumn_same. apply Forall_map.
    revert H. apply Forall_impl. exact Hf.
  - now rewrite column_setColumn_other.
Qed.

Lemma whitespaceData_invariant c cols od :
  (forall x, I x -> I (Some (normalized x))) ->
  Forall I (column c od) -> Forall I (column c (whitespaceData cols od)).
Proof.
  intros Hf. revert od. induction cols as [|c' cols IH]; intros od H; simpl;
    [exact H|].
  apply IH. now apply setColumn_invariant.
Qed.

Lemma zerosData_invariant c cols od :
  (forall width x, I x -> I (Some (padded width x))) ->
  Forall I (column c od) -> Forall I (column c (zerosData cols od)).
Proof.
  intros Hf. revert od. induction cols as [|c' cols IH]; intros od H; simpl;
    [exact H|].
  apply IH. apply setColumn_invariant; [apply Hf|exact H].
Qed.

End ColumnInvariant.

Lemma whitespaceData_trimmed c cols od :
  In c cols ->
  Forall (fun x => textCell x /\ trimmedCell x)
         (column c (whitespaceData cols od)).
Proof.
  revert od; induction cols as [|c' cols IH]; intros od Hin; simpl;
    [contradiction|].
  destruct (in_dec string_dec c cols) as [Hrest|Hrest].
  - now apply IH.
  - destruct Hin as [->|Hin]; [|contradiction].
    fold (whitespaceData cols (setColumn c normalized od)).
    rewrite column_whitespaceData_other by assumption.
    rewrite column_setColumn_same. apply Forall_map.
    apply Forall_forall. intros x _.
    split; [apply normalized_text|apply normalized_trimmed].
Qed.

(** The report of detection has no entry for the name [__proto__], and
    the keys of each of its maps are distinct. *)
Lemma fold_assign_distinct {V : Type} (keep : string -> bool)
      (val : string -> V) (hs : list string) (acc : JsObject.t V) :
  distinctKeys acc ->
  distinctKeys
    (fold_left (fun acc h => if keep h then JsObject.assign h (val h) acc
                             else acc)
               hs acc).
Proof.
  revert acc; induction hs as [|h0 rest IH]; intros acc H; simpl; [exact H|].
  apply IH. destruct (keep h0); [now apply keys_assign_NoDup|exact H].
Qed.

Lemma detectIssues_distinct data hs :
  distinctKeys (missing (detectIssues data hs))
  /\ distinctKeys (whitespace (detectIssues data hs))
  /\ distinctKeys (leadingZeros (detectIssues data hs)).
Proof.
  unfold detectIssues. cbn [missing whitespace leadingZeros].
  split; [|split].
  - apply (fold_assign_distinct
             (fun h => 0 <? missingCount h (toObjects hs data))
             (fun h => missingCount h (toObjects hs data))).
    constructor.
  - apply (fold_assign_distinct
             (fun h => existsb hasWhitespaceIssue
                               (column h (toObjects hs data)))
             (fun _ => "leading_or_trailing_space")).
    constructor.
  - apply (fold_assign_distinct
             (fun h => existsb hasLeadingZero (column h (toObjects hs data)))
             (fun _ => "leading_zeros_lost")).
    constructor.
Qed.

Lemma detectIssues_proto data hs :
  ~ In "__proto__" (JsObject.ownKeys (missing (detectIssues data hs)))
  /\ ~ In "__proto__" (JsObject.ownKeys (whitespace (detectIssues data hs)))
  /\ ~ In "__proto__"
          (JsObject.ownKeys (leadingZeros (detectIssues data hs))).
Proof.
  rewrite !ownKeys_In. unfold detectIssues.
  cbn [missing whitespace leadingZeros].
  rewrite get_detectMissing, get_detectWhitespace, get_detectLeadingZeros.
  rewrite String.eqb_refl, andb_false_r. simpl. tauto.
Qed.

(** Under the report of detection, the cells of a column are trimmed
    text when the leading-zero step starts: either the whitespace step
    has normalised the column, or no cell of it had surrounding white
    space. *)
Lemma detected_trimmed c hs data :
  In c hs ->
  Forall trimmedCell
         (column c (beforeZeros (detectIssues data hs) (toObjects hs data))).
Proof.
  intros Hin. unfold beforeZeros.
  set (report := detectIssues data hs).
  destruct (in_dec string_dec c (JsObject.ownKeys (whitespace report)))
    as [Hw|Hw].
  - eapply Forall_impl; [|apply whitespaceData_trimmed; exact Hw].
    intros x [_ H]. exact H.
  - rewrite column_whitespaceData_other by assumption.
    rewrite column_Forall. intros row Hrow. apply dedupData_In in Hrow.
    apply clean_trimmed.
    destruct (hasWhitespaceIssue (property c row)) eqn:E; [|reflexivity].
    exfalso. apply Hw. apply ownKeys_In.
    unfold report, detectIssues. cbn [whitespace].
    rewrite get_detectWhitespace.
    replace (_ && existsb hasWhitespaceIssue _) with true; [discriminate|].
    symmetry. apply (flagged_iff hasWhitespaceIssue c hs data eq_refl).
    split; [exact Hin|]. exists row. split; assumption.
Qed.

Lemma detected_text c hs data :
  textTable data -> In c hs -> c <> "__proto__" ->
  Forall textCell
         (column c (beforeZeros (detectIssues data hs) (toObjects hs data))).
Proof.
  intros Ht Hin Hp. unfold beforeZeros.
  apply whitespaceData_invariant; [intros x _; apply normalized_text|].
  rewrite column_Forall. intros row Hrow. apply dedupData_In in Hrow.
  unfold toObjects in Hrow. apply in_map_iff in Hrow.
  destruct Hrow as (cells & <- & Hcells).
  rewrite property_ordinary by assumption.
  apply toObject_text; [assumption| |assumption].
  unfold textTable in Ht. rewrite Forall_forall in Ht. now apply Ht.
Qed.

Lemma filled_trimmed (fillValue : value) (s : string) :
  JsString.trim s = s -> s <> EmptyString ->
  filled fillValue (Some (VStr s)) = VStr s.
Proof.
  intros Ht Hs. simpl. rewrite Ht.
  destruct s; [congruence|reflexivity].
Qed.

(** Imputation leaves a padded column of trimmed cells as it is. *)
Lemma fillCells_padCells (cells : list cell) :
  Forall trimmedCell cells ->
  Forall (fun x => x <> None) cells ->
  fillCells (padCells cells) = padCells cells.
Proof.
  intros Ht Hs. unfold fillCells.
  destruct (0 <? List.length (nonEmpty (padCells cells))) eqn:E;
    [|reflexivity].
  assert (Hw : 0 < widest cells).
  { destruct (nonEmpty (padCells cells)) as [|v r] eqn:N;
      [discriminate|].
    assert (Hv : In v (nonEmpty (padCells cells)))
      by (rewrite N; now left).
    pose proof (nonEmpty_text _ _ Hv) as Hne.
    destruct (nonEmpty_In _ _ Hv) as (Hin & _ & _).
    unfold padCells in Hin. apply in_map_iff in Hin.
    destruct Hin as (x & Hx & Hin). injection Hx as <-.
    pose proof (widest_bound cells x Hin) as Hb.
    rewrite Forall_forall in Hs. specialize (Hs x Hin).
    destruct x as [w|]; [|congruence]. simpl in *.
    assert (L : 0 < String.length
                      (JsString.padStart (widest cells) (toString w))).
    { destruct (JsString.padStart (widest cells) (toString w));
        [discriminate|simpl; lia]. }
    rewrite padStart_length in L. lia. }
  unfold padCells at 2 3. rewrite map_map. apply map_ext_in.
  intros x Hx. f_equal.
  rewrite Forall_forall in Ht, Hs.
  specialize (Ht x Hx). specialize (Hs x Hx).
  destruct x as [w|]; [|congruence]. unfold padded.
  apply filled_trimmed.
  - now apply padStart_trimmed.
  - intros Z.
    pose proof (padStart_length (widest cells) (toString w)) as L.
    rewrite Z in L. simpl in L. lia.
Qed.

(** C5 (as amended). For a column that the report flags in
    [leadingZeros], every value of the column in the cleaned table is the
    value the column had when the leading-zero step started (after
    deduplication and whitespace normalisation), padded on the left with
    ['0'] to the greatest text length the column had at that moment; so
    every value has that length.  This holds under the report that
    detection computes for the table, whether or not it flags the column
    as missing; under another report it holds when the column is not
    flagged as missing, or when no value of the column has white space at
    its ends when the step starts.  For a table of text and a column that
    the report does not flag for whitespace, that length is the greatest
    text length of the column before cleaning. *)
Theorem leading_zero_column_width
        (st : AppState) (h : heap) (report : Issues) (c : string)
        (index : nat) :
  issues st = Some report ->
  readTable h (csvData st) <> [] ->
  distinctKeys (leadingZeros report) ->
  In c (JsObject.ownKeys (leadingZeros report)) ->
  nth_error (headers st) index = Some c ->
  let objectData := toObjects (headers st) (loadTable h (csvData st)) in
  let before := column c (beforeZeros report objectData) in
  let after := tableColumn index (cleanedTable (cleanData st h)) in
  report = detectIssues (loadTable h (csvData st)) (headers st)
  \/ ~ In c (JsObject.ownKeys (missing report))
  \/ (distinctKeys (missing report) /\ Forall trimmedCell before) ->
  after = map (fun x => Some (padded (widest before) x)) before
  /\ (forall k x, nth_error before k = Some x ->
                  exists v, x = Some v
                            /\ nth_error after k
                               = Some (Some (VStr (JsString.padStart
                                                     (widest before)
                                                     (toString v)))))
  /\ Forall (fun x => String.length (textOf x) = widest before) after
  /\ (~ In c (JsObject.ownKeys (whitespace report)) ->
      before = column c (dedupData report objectData))
  /\ (~ In c (JsObject.ownKeys (whitespace report)) ->
      textTable (loadTable h (csvData st)) ->
      widest before = widest (column c objectData)).
Proof.
  intros Hrep Hrows Hkeys Hin Hc objectData before after Hcase.
  assert (Hhs : In c (headers st)) by (eapply nth_error_In; eauto).
  assert (Hsome : Forall (fun x => x <> None) before)
    by (now apply beforeZeros_present).
  assert (Hfill : ~ In c (JsObject.ownKeys (missing report))
                  \/ (distinctKeys (missing report)
                      /\ Forall trimmedCell before)).
  { destruct Hcase as [E|[H|H]]; [|now left|now right].
    right. split.
    - rewrite E. apply detectIssues_distinct.
    - unfold before, objectData. rewrite E. now apply detected_trimmed. }
  assert (Hafter : after = map (fun x => Some (padded (widest before) x))
                               before).
  { unfold after. rewrite (cleanData_table st h report Hrep Hrows).
    rewrite (tableColumn_toArrays _ _ c) by assumption.
    unfold stepsData, beforeFill.
    destruct (in_dec string_dec c (JsObject.ownKeys (missing report)))
      as [Hm|Hm].
    - destruct Hfill as [Hn|[Hd Ht]]; [contradiction|].
      rewrite column_fillData_same by (auto using ownKeys_NoDup).
      rewrite column_zerosData_same by (auto using ownKeys_NoDup).
      now apply fillCells_padCells.
    - rewrite column_fillData_other by assumption.
      rewrite column_zerosData_same by (auto using ownKeys_NoDup).
      reflexivity. }
  assert (Hbefore : ~ In c (JsObject.ownKeys (whitespace report)) ->
                    before = column c (dedupData report objectData)).
  { intros Hw. unfold before, beforeZeros.
    now rewrite column_whitespaceData_other. }
  split; [exact Hafter|]. split; [|split; [|split; [exact Hbefore|]]].
  - intros k x Hk.
    assert (Hx : x <> None).
    { rewrite Forall_forall in Hsome. apply Hsome.
      eapply nth_error_In; eauto. }
    destruct x as [v|]; [|congruence].
    exists v. split; [reflexivity|].
    now rewrite Hafter, nth_error_map, Hk.
  - rewrite Hafter. apply Forall_map. apply Forall_forall.
    intros x Hx. rewrite Forall_forall in Hsome.
    specialize (Hsome x Hx). destruct x as [v|]; [|congruence].
    simpl. rewrite padStart_length.
    pose proof (widest_bound before (Some v) Hx) as Hb. simpl in Hb. lia.
  - intros Hw Htext. rewrite (Hbefore Hw). unfold dedupData.
    destruct (0 <? duplicates report); [|reflexivity].
    now apply widest_uniqueRows.
Qed.

(** C10 (as amended). For a column that the report flags as missing and
    that has a non-empty value when imputation starts, [cleanData]
    rewrites every cell of the column: a cell that is not missing becomes
    the trimmed text of its value, and a missing cell (empty or white
    space only) becomes the fill value, which is the median of the
    non-empty values when [parseFloat] accepts them all and the most
    frequent text among them otherwise.  This does not depend on the
    [whitespace] report: for a column flagged neither there nor in
    [leadingZeros], the cells rewritten are the ones of the deduplicated
    input.  Under the report that detection computes for a table of text,
    a cell that is not missing is trimmed text already when imputation
    starts, so imputation leaves it as it is and alters the missing cells
    only. *)
Theorem imputation_rewrites_column
        (st : AppState) (h : heap) (report : Issues) (c : string)
        (index : nat) :
  issues st = Some report ->
  readTable h (csvData st) <> [] ->
  distinctKeys (missing report) ->
  In c (JsObject.ownKeys (missing report)) ->
  nth_error (headers st) index = Some c ->
  let objectData := toObjects (headers st) (loadTable h (csvData st)) in
  let before := column c (beforeFill report objectData) in
  let numbers :=
    keepNumbers (map (fun v => parseNumber (toString v)) (nonEmpty before)) in
  let fillValue := fillValueOf (nonEmpty before) in
  let after := tableColumn index (cleanedTable (cleanData st h)) in
  nonEmpty before <> [] ->
  after = map (fun x => Some (filled fillValue x)) before
  /\ (forall k x,
         nth_error before k = Some x ->
         (isMissing x = false ->
          exists v, x = Some v
                    /\ nth_error after k
                       = Some (Some (VStr (JsString.trim (toString v)))))
         /\ (isMissing x = true ->
             nth_error after k = Some (Some fillValue))
         /\ (blankCell x = true -> isMissing x = true))
  /\ (Forall (fun v => parseNumber (toString v) <> None) (nonEmpty before) ->
      fillValue = VNum (Stats.median numbers))
  /\ (~ Forall (fun v => parseNumber (toString v) <> None)
               (nonEmpty before) ->
      fillValue = mode (nonEmpty before))
  /\ (~ In c (JsObject.ownKeys (whitespace report)) ->
      ~ In c (JsObject.ownKeys (leadingZeros report)) ->
      before = column c (dedupData report objectData))
  /\ (report = detectIssues (loadTable h (csvData st)) (headers st) ->
      textTable (loadTable h (csvData st)) ->
      forall k x, nth_error before k = Some x -> isMissing x = false ->
                  nth_error after k = Some x).
Proof.
  intros Hrep Hrows Hkeys Hin Hc objectData before numbers fillValue after
         Hne.
  assert (Hafter : after = map (fun x => Some (filled fillValue x)) before).
  { unfold after, fillValue, before, objectData.
    now apply (cleaned_filled_column st h report c index). }
  split; [exact Hafter|]. split; [|split; [|split; [|split]]].
  - intros k x Hk. rewrite Hafter, nth_error_map, Hk. simpl.
    split; [|split].
    + intros Hx. destruct (filled_present fillValue x Hx) as (v & -> & Hv).
      exists v. split; [reflexivity|]. now rewrite Hv.
    + intros Hx. now rewrite filled_missing.
    + unfold blankCell. destruct x as [v|]; simpl; [|reflexivity].
      intros ->. apply orb_true_r.
  - intros Hnum. unfold fillValue. now apply fillValueOf_numeric.
  - intros Hcat. unfold fillValue. now apply fillValueOf_categorical.
  - intros Hw Hz. unfold before, beforeFill.
    rewrite column_zerosData_other by assumption.
    now rewrite column_whitespaceData_other.
  - intros E Htext k x Hk Hx.
    assert (Hhs : In c (headers st)) by (eapply nth_error_In; eauto).
    assert (Hp : c <> "__proto__").
    { intros ->. rewrite E in Hin.
      now apply (proj1 (detectIssues_proto _ _)) in Hin. }
    assert (Hcells : Forall (fun x => textCell x /\ trimmedCell x) before).
    { unfold before, beforeFill.
      apply zerosData_invariant.
      - intros width y [_ Hy].
        split; [apply padded_text|now apply padded_trimmed].
      - apply Forall_and.
        + unfold objectData. rewrite E. now apply detected_text.
        + unfold objectData. rewrite E. now apply detected_trimmed. }
    rewrite Forall_forall in Hcells.
    destruct (Hcells x (nth_error_In _ _ Hk)) as [[s ->] Ht].
    rewrite Hafter, nth_error_map, Hk. cbn [option_map].
    rewrite (filled_trimmed fillValue s); [reflexivity|exact Ht|].
    intros ->. discriminate.
Qed.

(** *** The column [__proto__] *)

Lemma repeat_append (c : ascii) (a b : nat) (s : string) :
  String.append (JsString.repeat c a) (String.append (JsString.repeat c b) s)
  = String.append (JsString.repeat c (a + b)) s.
Proof. induction a as [|a IH]; simpl; [reflexivity|now rewrite IH]. Qed.

Lemma zeros_prototype_trim (n : nat) :
  let s := String.append (JsString.repeat JsString.zero n)
                         "[object Object]" in
  JsString.replaceNbsp s = s
  /\ JsString.trim s = s
  /\ JsString.isEmpty s = false.
Proof.
  cbv zeta. split; [|split].
  - induction n as [|n IH]; simpl; [reflexivity|]. now rewrite IH.
  - apply trim_id.
    + destruct n; reflexivity.
    + induction n as [|n IH]; [reflexivity|].
      simpl JsString.repeat. simpl String.append.
      cbn [JsString.endsWithWhiteSpace].
      destruct (String.append (JsString.repeat JsString.zero n)
                              "[object Object]") eqn:E; [|exact IH].
      destruct n; discriminate.
  - destruct n; reflexivity.
Qed.

Lemma inheritedCell_text (x : cell) :
  inheritedCell x ->
  exists n, textOf x = String.append (JsString.repeat JsString.zero n)
                                     "[object Object]"
            /\ exists v, x = Some v /\ truthy v = true.
Proof.
  intros [->|[n ->]].
  - exists 0. split; [reflexivity|]. exists VProto. split; reflexivity.
  - exists n. split; [reflexivity|]. eexists. split; [reflexivity|].
    simpl. now rewrite (proj2 (proj2 (zeros_prototype_trim n))).
Qed.

Lemma inheritedCell_present (x : cell) :
  inheritedCell x -> isMissing x = false.
Proof.
  intros H. destruct (inheritedCell_text x H) as (n & Ht & v & -> & Hv).
  simpl in *. rewrite Hv, Ht.
  destruct (zeros_prototype_trim n) as (_ & -> & ->). reflexivity.
Qed.

Lemma inheritedCell_normalized (x : cell) :
  inheritedCell x -> inheritedCell (Some (normalized x)).
Proof.
  intros H. destruct (inheritedCell_text x H) as (n & Ht & v & -> & _).
  right. exists n. simpl in *. rewrite Ht.
  destruct (zeros_prototype_trim n) as (-> & -> & _). reflexivity.
Qed.

Lemma inheritedCell_padded (width : nat) (x : cell) :
  inheritedCell x -> inheritedCell (Some (padded width x)).
Proof.
  intros H. destruct (inheritedCell_text x H) as (n & Ht & v & -> & _).
  right. simpl in *. rewrite Ht. unfold JsString.padStart.
  rewrite repeat_append. eexists. reflexivity.
Qed.

Lemma setColumn_inherited c f od :
  (forall x, inheritedCell x -> inheritedCell (Some (f x))) ->
  Forall inheritedCell (column "__proto__" od) ->
  Forall inheritedCell (column "__proto__" (setColumn c f od)).
Proof.
  intros Hf H. destruct (string_dec "__proto__" c) as [<-|Hne].
  - rewrite column_setColumn_same. apply Forall_map.
    revert H. apply Forall_impl. exact Hf.
  - now rewrite column_setColumn_other.
Qed.

(** Whatever the report flags, the column [__proto__] holds the
    prototype of the row object, or its text padded with zeros, when
    imputation starts: none of its cells is missing. *)
Lemma beforeFill_inherited report hs data :
  Forall inheritedCell
         (column "__proto__" (beforeFill report (toObjects hs data))).
Proof.
  unfold beforeFill.
  assert (H0 : Forall inheritedCell
                      (column "__proto__"
                              (dedupData report (toObjects hs data)))).
  { rewrite column_Forall. intros row Hrow.
    apply dedupData_In in Hrow. unfold toObjects in Hrow.
    apply in_map_iff in Hrow. destruct Hrow as (cells & <- & _).
    left. apply property_toObject_proto. }
  set (od1 := dedupData _ _) in *. clearbody od1.
  assert (H1 : Forall inheritedCell
                      (column "__proto__"
                              (whitespaceData
                                 (JsObject.ownKeys (whitespace report))
                                 od1))).
  { revert od1 H0.
    induction (JsObject.ownKeys (whitespace report)) as [|c' cols IH];
      intros od1 H0; simpl; [exact H0|].
    apply IH. apply setColumn_inherited; [|exact H0].
    apply inheritedCell_normalized. }
  set (od2 := whitespaceData _ _) in *. clearbody od2.
  revert od2 H1.
  induction (JsObject.ownKeys (leadingZeros report)) as [|c' cols IH];
    intros od2 H1; simpl; [exact H1|].
  apply IH. apply setColumn_inherited; [|exact H1].
  apply inheritedCell_padded.
Qed.

(** X16: when a numeric column flagged as missing has median 0, the gaps
    are filled with the number 0, which detection's own test
    ([!row[header]]) still counts as missing: detection on the cleaned
    table flags the column again. *)
Theorem zero_median_stays_missing
        (st : AppState) (h : heap) (report : Issues) (c : string)
        (index k : nat) (x : cell) :
  issues st = Some report ->
  readTable h (csvData st) <> [] ->
  distinctKeys (missing report) ->
  In c (JsObject.ownKeys (missing report)) ->
  nth_error (headers st) index = Some c ->
  let objectData := toObjects (headers st) (loadTable h (csvData st)) in
  let before := column c (beforeFill report objectData) in
  let numbers :=
    keepNumbers (map (fun v => parseNumber (toString v)) (nonEmpty before)) in
  let after := tableColumn index (cleanedTable (cleanData st h)) in
  nonEmpty before <> [] ->
  Forall (fun v => parseNumber (toString v) <> None) (nonEmpty before) ->
  PrimFloat.is_zero (Stats.median numbers) = true ->
  nth_error before k = Some x -> isMissing x = true ->
  (nth_error after k = Some (Some (VNum (Stats.median numbers)))
   /\ isMissing (Some (VNum (Stats.median numbers))) = true)
  /\ exists n,
       JsObject.get c (missing (detectIssues (cleanedTable (cleanData st h))
                                             (headers st))) = Some n
       /\ 0 < n.
Proof.
  intros Hrep Hrows Hkeys Hin Hc objectData before numbers after
         Hne Hnum Hzero Hk Hx.
  assert (Hafter : after
                   = map (fun x => Some (filled (VNum (Stats.median numbers)) x))
                         before).
  { unfold after.
    rewrite (cleaned_filled_column st h report c index) by assumption.
    fold objectData. fold before. now rewrite fillValueOf_numeric. }
  assert (Hy : nth_error after k = Some (Some (VNum (Stats.median numbers)))).
  { rewrite Hafter, nth_error_map, Hk. simpl. now rewrite filled_missing. }
  assert (Hm : isMissing (Some (VNum (Stats.median numbers))) = true).
  { simpl. now rewrite Hzero. }
  split; [split; assumption|].
  assert (Hhs : In c (headers st)) by (eapply nth_error_In; eauto).
  assert (Hp : c <> "__proto__").
  { intros ->.
    pose proof (beforeFill_inherited report (headers st)
                  (loadTable h (csvData st))) as Hi.
    rewrite Forall_forall in Hi.
    rewrite (inheritedCell_present x) in Hx; [discriminate|].
    apply Hi. eapply nth_error_In; eauto. }
  unfold detectIssues. cbn [missing]. rewrite get_detectMissing.
  replace (existsb (String.eqb c) (headers st)) with true
    by (symmetry; now apply existsb_eqb_In).
  replace (String.eqb c "__proto__") with false
    by (symmetry; now apply String.eqb_neq).
  assert (Hpos : 0 < missingCount c
                       (toObjects (headers st)
                                  (cleanedTable (cleanData st h)))).
  { unfold missingCount.
    rewrite (cleanData_table st h report Hrep Hrows).
    rewrite column_toObjects_toArrays by assumption.
    fold objectData.
    assert (Hcol : column c (stepsData report objectData) = after).
    { unfold after. rewrite (cleanData_table st h report Hrep Hrows).
      now rewrite (tableColumn_toArrays _ _ c). }
    rewrite Hcol.
    assert (Hin' : In (Some (orElse (Some (VNum (Stats.median numbers)))
                                    (VStr "")))
                      (filter isMissing
                              (map (fun x => Some (orElse x (VStr "")))
                                   after))).
    { apply filter_In. split.
      - apply in_map_iff. exists (Some (VNum (Stats.median numbers))).
        split; [reflexivity|]. eapply nth_error_In; eauto.
      - now rewrite isMissing_orElse. }
    destruct (filter isMissing _); [contradiction|simpl; lia]. }
  simpl. replace (0 <? _) with true by (symmetry; now apply Nat.ltb_lt).
  eauto.
Qed.

(** *** The exported text *)

Lemma append_assoc3 (a b c : string) :
  String.append (String.append a b) c = String.append a (String.append b c).
Proof. induction a as [|x a IH]; simpl; [reflexivity|now rewrite IH]. Qed.

Lemma split_at_quote (q : ascii) (a b x y : string) :
  hasChar q a = false -> hasChar q b = false ->
  String.append a (String q x) = String.append b (String q y) ->
  a = b /\ x = y.
Proof.
  revert b; induction a as [|c a IH]; intros [|d b] Ha Hb E; simpl in *.
  - injection E as ->. auto.
  - injection E as <- _. apply orb_false_iff in Hb.
    rewrite Ascii.eqb_refl in Hb. destruct Hb; discriminate.
  - injection E as -> _. apply orb_false_iff in Ha.
    rewrite Ascii.eqb_refl in Ha. destruct Ha; discriminate.
  - injection E as -> E. apply orb_false_iff in Ha, Hb.
    destruct (IH b (proj2 Ha) (proj2 Hb) E) as [-> ->]. auto.
Qed.

Lemma quoted_append (c : cell) (t : string) :
  String.append (quoted c) t
  = String (ascii_of_nat 34)
           (String.append (textOf c) (String (ascii_of_nat 34) t)).
Proof.
  unfold quoted, quote. cbn [String.append].
  rewrite append_assoc3. reflexivity.
Qed.

Lemma csvLine_cons (c : cell) (r : list cell) (t : string) :
  String.append (csvLine (c :: r)) t
  = String (ascii_of_nat 34)
           (String.append (textOf c)
              (String (ascii_of_nat 34) (String.append (afterCell r) t))).
Proof.
  destruct r as [|d r].
  - change (csvLine [c]) with (quoted c). apply quoted_append.
  - change (csvLine (c :: d :: r))
      with (String.append (quoted c)
              (String.append comma (csvLine (d :: r)))).
    rewrite append_assoc3, quoted_append. reflexivity.
Qed.

Lemma lines_cons (r : list cell) (rs : list (list cell)) :
  join lineFeed (map csvLine (r :: rs))
  = String.append (csvLine r) (afterLine rs).
Proof.
  unfold afterLine. destruct rs as [|r' rs]; simpl.
  - clear. induction (csvLine r); simpl; [reflexivity|]. now f_equal.
  - reflexivity.
Qed.

Lemma csvLine_unique (r1 r2 : list cell) (t1 t2 : string) :
  quoteFreeRow r1 -> quoteFreeRow r2 -> lineEnd t1 -> lineEnd t2 ->
  String.append (csvLine r1) t1 = String.append (csvLine r2) t2 ->
  map textOf r1 = map textOf r2 /\ t1 = t2.
Proof.
  revert r2; induction r1 as [|c1 r1 IH]; intros [|c2 r2] Q1 Q2 E1 E2 E.
  - simpl in E. auto.
  - rewrite csvLine_cons in E. simpl in E.
    destruct E1 as [->|[t' ->]]; discriminate.
  - rewrite csvLine_cons in E. simpl in E.
    destruct E2 as [->|[t' ->]]; discriminate.
  - rewrite !csvLine_cons in E. injection E as E.
    inversion Q1 as [|? ? Hc1 Q1']; subst.
    inversion Q2 as [|? ? Hc2 Q2']; subst.
    apply split_at_quote in E; [|assumption..].
    destruct E as [Et E]. simpl. rewrite Et.
    destruct r1 as [|d1 r1], r2 as [|d2 r2]; simpl in E.
    + auto.
    + destruct E1 as [->|[t' ->]]; discriminate.
    + destruct E2 as [->|[t' ->]]; discriminate.
    + injection E as E.
      destruct (IH (d2 :: r2) Q1' Q2' E1 E2 E) as [Hm ->].
      rewrite Hm. auto.
Qed.

Lemma afterLine_end (rs : list (list cell)) : lineEnd (afterLine rs).
Proof.
  destruct rs; [now left|right; eexists; reflexivity].
Qed.

Lemma lines_unique (rows1 rows2 : list (list cell)) :
  rows1 <> [] -> rows2 <> [] ->
  quoteFreeTable rows1 -> quoteFreeTable rows2 ->
  join lineFeed (map csvLine rows1) = join lineFeed (map csvLine rows2) ->
  map (map textOf) rows1 = map (map textOf) rows2.
Proof.
  revert rows2; induction rows1 as [|r1 rs1 IH]; intros rows2 N1 N2 Q1 Q2 E;
    [congruence|].
  destruct rows2 as [|r2 rs2]; [congruence|].
  rewrite !lines_cons in E.
  inversion Q1 as [|? ? Hr1 Q1']; subst.
  inversion Q2 as [|? ? Hr2 Q2']; subst.
  destruct (csvLine_unique r1 r2 _ _ Hr1 Hr2 (afterLine_end rs1)
                           (afterLine_end rs2) E) as [Hrow Htail].
  simpl. rewrite Hrow. f_equal.
  destruct rs1 as [|a rs1], rs2 as [|b rs2]; simpl in Htail;
    try discriminate; [reflexivity|].
  injection Htail as Htail.
  apply IH; [discriminate|discriminate|assumption..].
Qed.

Lemma texts_textOf (hs : list string) : map textOf (texts hs) = hs.
Proof.
  unfold texts. rewrite map_map. simpl. apply map_id.
Qed.

(** X17: on tables whose headers and cells contain no double quote, the
    exported text determines the headers and the text of every cell: two
    exports are equal only for the same headers and the same cell texts.
    ([downloadCSV] does not escape quotes, and an [undefined] cell exports
    like an empty one.) *)
Theorem csv_export_injective (hs1 hs2 : list string)
        (cleaned1 cleaned2 : list (list cell)) :
  quoteFreeTable (texts hs1 :: cleaned1) ->
  quoteFreeTable (texts hs2 :: cleaned2) ->
  csvContent hs1 cleaned1 = csvContent hs2 cleaned2 ->
  hs1 = hs2 /\ map (map textOf) cleaned1 = map (map textOf) cleaned2.
Proof.
  intros Q1 Q2 E. unfold csvContent in E.
  apply lines_unique in E; [|discriminate|discriminate|assumption..].
  simpl in E. injection E as Eh Ec.
  rewrite !texts_textOf in Eh. auto.
Qed.

(** *** The report pages *)

Lemma logLines_printed (yPos : nat) (log : list CleaningLog) :
  printedLog (logLines yPos log) = map text log.
Proof.
  revert yPos; induction log as [|e r IH]; intros yPos; simpl; [reflexivity|].
  destruct (270 <? yPos); simpl; now rewrite IH.
Qed.

Lemma logLines_within (yPos : nat) (log : list CleaningLog) :
  20 <= yPos -> Forall withinPage (logLines yPos log).
Proof.
  revert yPos; induction log as [|e r IH]; intros yPos Hy; simpl;
    [constructor|].
  destruct (270 <? yPos) eqn:E.
  - constructor; [exact I|]. constructor; [simpl; lia|]. apply IH. lia.
  - apply Nat.ltb_ge in E.
    constructor; [simpl; lia|]. apply IH. lia.
Qed.

Lemma logLines_break (yPos : nat) (log : list CleaningLog) :
  In AddPage (logLines yPos log)
  <-> log <> [] /\ 278 < yPos + 8 * List.length log.
Proof.
  revert yPos; induction log as [|e r IH]; intros yPos; simpl.
  - split; [contradiction|intros [H _]; congruence].
  - destruct (270 <? yPos) eqn:E.
    + apply Nat.ltb_lt in E. split; [intros _|intros _; now left].
      split; [discriminate|lia].
    + apply Nat.ltb_ge in E. split.
      * intros [H|H]; [discriminate|]. apply IH in H.
        destruct H as [_ H]. split; [discriminate|lia].
      * intros [_ H]. right. apply IH. split; [|lia].
        intros ->. simpl in H. lia.
Qed.

(** X18: the report prints every entry of the cleaning log once and in
    order; every text is placed between the lines 20 and 270; and a page
    is added exactly when the log has more than 19 entries. *)
Theorem pdf_report_layout (date : string) (st : AppState) (h : heap) :
  printedLog (generatePDF date st h)
  = map text (readLog h (cleaningLog st))
  /\ Forall withinPage (generatePDF date st h)
  /\ (In AddPage (generatePDF date st h)
      <-> 19 < List.length (readLog h (cleaningLog st))).
Proof.
  unfold generatePDF. split; [|split].
  - unfold printedLog. rewrite !flat_map_app. simpl.
    rewrite app_nil_r. apply logLines_printed.
  - apply Forall_app. split.
    + repeat constructor; simpl; lia.
    + apply Forall_app. split; [apply logLines_within; lia|].
      repeat constructor.
  - rewrite !in_app_iff, logLines_break. simpl. split.
    + intros [H|[[_ H]|H]].
      * repeat (destruct H as [H|H]; [discriminate|]). contradiction.
      * lia.
      * destruct H as [H|[]]. discriminate.
    + intros H. right; left. split; [|lia].
      intros E. rewrite E in H. simpl in H. lia.
Qed.

(** *** The analysis page *)

Lemma loadTable_length (h : heap) (a : addr) :
  List.length (loadTable h a) = List.length (readTable h a).
Proof. apply length_map. Qed.

(** X19: before any cleaning the analysis page works on the row objects of
    the uploaded table; once [cleanData] has run it works on the cleaned
    table, whose column of a header it reads back with [row[index] || '']:
    a cell filled with the number 0 is read as the empty string.  For a
    column named [__proto__] this needs a report that does not flag the
    column, as is the report of detection: the page reads the prototype
    of the row object, which is what the cleaned table then holds. *)
Theorem analysis_data_source (st : AppState) (h : heap) :
  (readTable h (cleanedData st) = [] ->
   getDataForAnalysis st h
   = toObjects (headers st) (loadTable h (csvData st)))
  /\ (forall report,
         issues st = Some report -> readTable h (csvData st) <> [] ->
         getDataForAnalysis (fst (cleanData st h)) (snd (cleanData st h))
         = toObjects (headers st) (cleanedTable (cleanData st h))
         /\ (forall c index,
                nth_error (headers st) index = Some c ->
                (c = "__proto__" ->
                 report = detectIssues (loadTable h (csvData st)) (headers st)
                 \/ (~ In c (JsObject.ownKeys (whitespace report))
                     /\ ~ In c (JsObject.ownKeys (leadingZeros report))
                     /\ ~ In c (JsObject.ownKeys (missing report)))) ->
                column c (getDataForAnalysis (fst (cleanData st h))
                                             (snd (cleanData st h)))
                = map (fun x => Some (orElse x (VStr "")))
                      (tableColumn index (cleanedTable (cleanData st h))))
         /\ column "__proto__"
                   (getDataForAnalysis (fst (cleanData st h))
                                       (snd (cleanData st h)))
            = map (fun _ => Some VProto) (cleanedTable (cleanData st h))).
Proof.
  split.
  - intros E. unfold getDataForAnalysis. now rewrite E.
  - intros report Hrep Hrows.
    pose proof (cleanData_table st h report Hrep Hrows) as T.
    assert (Hh : headers (fst (cleanData st h)) = headers st)
      by (now rewrite (cleanData_eq st h report Hrep Hrows)).
    assert (Hpos : 0 < List.length (cleanedTable (cleanData st h))).
    { rewrite T, toArrays_length, stepsData_length.
      apply (proj1 (proj2 (dedupData_length report _))).
      unfold toObjects, loadTable. intros E.
      apply map_eq_nil in E. apply map_eq_nil in E. contradiction. }
    assert (G : getDataForAnalysis (fst (cleanData st h)) (snd (cleanData st h))
                = toObjects (headers st) (cleanedTable (cleanData st h))).
    { unfold getDataForAnalysis. rewrite Hh.
      unfold cleanedTable in Hpos. rewrite loadTable_length in Hpos.
      replace (0 <? _) with true by (symmetry; now apply Nat.ltb_lt).
      reflexivity. }
    assert (P : column "__proto__"
                       (toObjects (headers st)
                                  (cleanedTable (cleanData st h)))
                = map (fun _ => Some VProto)
                      (cleanedTable (cleanData st h))).
    { unfold column, toObjects. rewrite map_map. apply map_ext.
      intros row. apply property_toObject_proto. }
    split; [exact G|]. split; [|now rewrite G].
    intros c index Hc Hproto. rewrite G.
    destruct (string_dec c "__proto__") as [E|E].
    + assert (U : ~ In c (JsObject.ownKeys (whitespace report))
                  /\ ~ In c (JsObject.ownKeys (leadingZeros report))
                  /\ ~ In c (JsObject.ownKeys (missing report))).
      { destruct (Hproto E) as [R|U]; [|exact U].
        rewrite R, E.
        destruct (detectIssues_proto (loadTable h (csvData st))
                                     (headers st)) as (A & B & C).
        auto. }
      destruct U as (Hw & Hz & Hm).
      assert (C : tableColumn index (cleanedTable (cleanData st h))
                  = column c (dedupData report
                                (toObjects (headers st)
                                           (loadTable h (csvData st))))).
      { rewrite T. rewrite (tableColumn_toArrays _ _ c) by assumption.
        unfold stepsData, beforeFill.
        rewrite column_fillData_other by assumption.
        rewrite column_zerosData_other by assumption.
        now rewrite column_whitespaceData_other. }
      assert (F : Forall (fun x => x = Some VProto)
                         (tableColumn index
                                      (cleanedTable (cleanData st h)))).
      { rewrite C, column_Forall. intros row Hrow.
        apply dedupData_In in Hrow. unfold toObjects in Hrow.
        apply in_map_iff in Hrow. destruct Hrow as (cells & <- & _).
        rewrite E. apply property_toObject_proto. }
      rewrite Forall_forall in F.
      rewrite E, P. unfold tableColumn. rewrite map_map.
      apply map_ext_in. intros row Hrow.
      rewrite (F (cellAt row index)); [reflexivity|].
      exact (in_map (fun r => cellAt r index) _ row Hrow).
    + rewrite T.
      rewrite column_toObjects_toArrays
        by (try assumption; eapply nth_error_In; eauto).
      now rewrite (tableColumn_toArrays _ _ c).
Qed.

Lemma insertByCount_perm x l : Permutation (insertByCount x l) (x :: l).
Proof.
  induction l as [|y r IH]; simpl; [reflexivity|].
  destruct (snd y <=? snd x); [reflexivity|].
  rewrite IH. apply perm_swap.
Qed.

Lemma sortByCount_perm l : Permutation (sortByCount l) l.
Proof.
  induction l as [|x r IH]; simpl; [reflexivity|].
  rewrite insertByCount_perm. now constructor.
Qed.

Lemma insertByCount_sorted x l :
  StronglySorted byCount l -> StronglySorted byCount (insertByCount x l).
Proof.
  induction l as [|y r IH]; intros Hs; simpl.
  - constructor; constructor.
  - inversion Hs as [|? ? Hr Hy]; subst.
    destruct (snd y <=? snd x) eqn:E.
    + apply Nat.leb_le in E. constructor; [exact Hs|].
      constructor; [exact E|].
      eapply Forall_impl; [|exact Hy]. unfold byCount. intros; lia.
    + apply Nat.leb_gt in E. constructor; [now apply IH|].
      apply Forall_forall. intros z Hz.
      apply (Permutation_in _ (insertByCount_perm x r)) in Hz.
      destruct Hz as [<-|Hz]; [unfold byCount; lia|].
      rewrite Forall_forall in Hy. now apply Hy.
Qed.

Lemma sortByCount_sorted l : StronglySorted byCount (sortByCount l).
Proof.
  induction l as [|x r IH]; simpl; [constructor|].
  now apply insertByCount_sorted.
Qed.

Lemma sorted_app_inv (l1 l2 : list (string * nat)) :
  StronglySorted byCount (l1 ++ l2) ->
  StronglySorted byCount l1
  /\ forall a b, In a l1 -> In b l2 -> byCount a b.
Proof.
  induction l1 as [|x r IH]; simpl; intros Hs.
  - split; [constructor|]. intros a b [].
  - inversion Hs as [|? ? Hr Hx]; subst.
    destruct (IH Hr) as [S1 S2]. rewrite Forall_forall in Hx. split.
    + constructor; [exact S1|]. apply Forall_forall. intros z Hz.
      apply Hx. apply in_or_app. now left.
    + intros a b [<-|Ha] Hb; [|now apply S2].
      apply Hx. apply in_or_app. now right.
Qed.

Lemma countFrom_distinct (l : list string) (acc : JsObject.t nat) :
  distinctKeys acc -> distinctKeys (Lodash.countFrom acc l).
Proof.
  revert acc; induction l as [|k r IH]; intros acc H; simpl; [exact H|].
  apply IH. now apply keys_set_NoDup.
Qed.

Lemma entriesOf_keys (o : JsObject.t nat) :
  map fst (entriesOf o) = JsObject.ownKeys o.
Proof.
  unfold entriesOf.
  assert (G : forall ks, (forall k, In k ks -> In k (JsObject.ownKeys o)) ->
                         map fst (flat_map
                                    (fun k => match JsObject.get k o with
                                              | Some n => [(k, n)]
                                              | None => []
                                              end) ks) = ks).
  { induction ks as [|k r IH]; intros Hin; simpl; [reflexivity|].
    pose proof (Hin k (or_introl eq_refl)) as Hk.
    apply ownKeys_In in Hk.
    destruct (JsObject.get k o) as [n|]; [|contradiction].
    simpl. f_equal. apply IH. intros k' Hk'. apply Hin. now right. }
  apply G. auto.
Qed.

Lemma entriesOf_In (o : JsObject.t nat) (k : string) (n : nat) :
  In (k, n) (entriesOf o) <-> JsObject.get k o = Some n.
Proof.
  unfold entriesOf. rewrite in_flat_map. split.
  - intros (k' & _ & H). destruct (JsObject.get k' o) as [m|] eqn:E;
      [|destruct H]. destruct H as [H|[]]. now injection H as <- <-.
  - intros H. exists k. split.
    + apply ownKeys_In. rewrite H. discriminate.
    + rewrite H. now left.
Qed.


(** X21: when no value of the selected column parses as a number the page
    lists at most five values, each once and with the number of its
    occurrences among the truthy values, in descending order of count; a
    value that is left out occurs no more often than any listed one, and
    only when five are listed. *)
Theorem top_values_most_frequent (selectedColumn : string)
        (analysisData : list rowObject) (top : list (string * nat)) :
  analyzeColumn selectedColumn analysisData = TopValues top ->
  let columnData := truthyValues (column selectedColumn analysisData) in
  let texts := map toString columnData in
  Forall (fun v => parseNumber (toString v) = None) columnData
  /\ List.length top <= 5
  /\ NoDup (map fst top)
  /\ StronglySorted byCount top
  /\ (forall k n, In (k, n) top ->
                  In k texts /\ n = count_occ string_dec texts k)
  /\ (forall k, In k texts -> ~ In k (map fst top) ->
                List.length top = 5
                /\ forall e, In e top ->
                             count_occ string_dec texts k <= snd e).
Proof.
  intros H columnData texts. unfold analyzeColumn in H.
  cbv zeta in H. fold columnData in H.
  destruct (0 <? _) eqn:E; [discriminate|].
  apply Nat.ltb_ge in E. fold texts in H.
  set (entries := entriesOf (Lodash.countBy texts)) in H.
  set (sorted := sortByCount entries) in H.
  assert (Htop : top = firstn 5 sorted) by congruence.
  clear H. rewrite Htop. clear Htop top.
  assert (Hin : forall k n, In (k, n) sorted <->
                            In k texts /\ n = count_occ string_dec texts k).
  { intros k n. unfold sorted.
    split.
    - intros Hk. apply (Permutation_in _ (sortByCount_perm entries)) in Hk.
      apply entriesOf_In in Hk. rewrite countBy_get in Hk.
      destruct (count_occ string_dec texts k =? 0) eqn:E0; [discriminate|].
      apply Nat.eqb_neq in E0. injection Hk as <-. split; [|reflexivity].
      apply (count_occ_In string_dec). lia.
    - intros [Hk ->].
      apply (Permutation_in _ (Permutation_sym (sortByCount_perm entries))).
      apply entriesOf_In. rewrite countBy_get.
      apply (count_occ_In string_dec) in Hk.
      destruct (count_occ string_dec texts k =? 0) eqn:E0; [|reflexivity].
      apply Nat.eqb_eq in E0. lia. }
  assert (Hnd : NoDup (map fst sorted)).
  { eapply Permutation_NoDup.
    - apply Permutation_map, Permutation_sym, sortByCount_perm.
    - unfold entries. rewrite entriesOf_keys. apply ownKeys_NoDup.
      apply countFrom_distinct. constructor. }
  pose proof (sortByCount_sorted entries) as Hs. fold sorted in Hs.
  rewrite <- (firstn_skipn 5 sorted) in Hs, Hnd.
  apply sorted_app_inv in Hs. destruct Hs as [Hs1 Hs2].
  rewrite map_app in Hnd.
  split.
  { clear -E. induction columnData as [|v r IH]; [constructor|].
    simpl in E. destruct (parseNumber (toString v)) eqn:P; simpl in E;
      [lia|]. constructor; [exact P|now apply IH]. }
  split; [rewrite length_firstn; lia|].
  split; [eapply NoDup_app_remove_r; exact Hnd|].
  split; [exact Hs1|]. split.
  - intros k n Hk. apply Hin.
    rewrite <- (firstn_skipn 5 sorted). apply in_or_app. now left.
  - intros k Hk Hnot.
    assert (Hsk : In (k, count_occ string_dec texts k) (skipn 5 sorted)).
    { pose proof (proj2 (Hin k _) (conj Hk eq_refl)) as Hi.
      rewrite <- (firstn_skipn 5 sorted) in Hi.
      apply in_app_or in Hi. destruct Hi as [Hi|Hi]; [|exact Hi].
      exfalso. apply Hnot.
      apply (in_map fst) in Hi. exact Hi. }
    split.
    + rewrite length_firstn.
      assert (5 < List.length sorted \/ List.length sorted <= 5) as [L|L]
          by lia; [lia|].
      rewrite skipn_all2 in Hsk by exact L. destruct Hsk.
    + intros e He. apply (Hs2 e _ He Hsk).
Qed.


(** *** Cleaning again *)

(** X22: [cleanData] always starts from the uploaded table and the stored
    report, never from an earlier result: a second run builds the same
    cleaned table and the same log as the first, so repeated clicks do not
    accumulate log entries or clean the table further. *)
Theorem cleanData_again (st : AppState) (h : heap) (report : Issues) :
  validTable h (csvData st) ->
  issues st = Some report ->
  readTable h (csvData st) <> [] ->
  let first := cleanData st h in
  let second := cleanData (fst first) (snd first) in
  cleanedTable second = cleanedTable first
  /\ logOf second = logOf first
  /\ csvData (fst second) = csvData st
  /\ loadTable (snd second) (csvData st) = loadTable h (csvData st).
Proof.
  intros [Hv Hrows] Hrep Hne first second.
  pose proof (cleanData_eq st h report Hrep Hne) as E.
  assert (Hcsv : csvData (fst first) = csvData st)
    by (unfold first; now rewrite E).
  assert (Hhs : headers (fst first) = headers st)
    by (unfold first; now rewrite E).
  assert (Hiss : issues (fst first) = Some report)
    by (unfold first; now rewrite E).
  assert (Hframe : forall a, a < List.length h ->
                             nth_error (snd first) a = nth_error h a)
    by (intros a Ha; now apply (cleanData_frame st h report)).
  assert (Htable : readTable (snd first) (csvData st)
                   = readTable h (csvData st))
    by (unfold readTable; now rewrite Hframe).
  assert (Hload : loadTable (snd first) (csvData st)
                  = loadTable h (csvData st)).
  { unfold loadTable. rewrite Htable. apply map_ext_in.
    intros a Ha. unfold readRow. rewrite Hframe; [reflexivity|].
    rewrite Forall_forall in Hrows. now apply Hrows. }
  assert (Hne2 : readTable (snd first) (csvData (fst first)) <> [])
    by (now rewrite Hcsv, Htable).
  assert (Hlen : List.length h <= List.length (snd first)).
  { destruct (Nat.le_gt_cases (List.length h) (List.length (snd first)))
      as [L|L]; [exact L|].
    destruct h as [|b h']; [simpl; lia|].
    assert (Hl : List.length h' < List.length (b :: h')) by (simpl; lia).
    pose proof (Hframe _ Hl) as F.
    assert (nth_error (b :: h') (List.length h') <> None)
      by (apply nth_error_Some; simpl; lia).
    assert (nth_error (snd first) (List.length h') = None)
      by (apply nth_error_None; simpl in L; lia).
    congruence. }
  split; [|split; [|split]].
  - unfold second.
    rewrite (cleanData_table (fst first) (snd first) report Hiss Hne2).
    pose proof (cleanData_table st h report Hrep Hne) as T.
    fold first in T. rewrite T.
    now rewrite Hhs, Hcsv, Hload.
  - unfold second.
    rewrite (cleanData_log (fst first) (snd first) report Hiss Hne2).
    pose proof (cleanData_log st h report Hrep Hne) as T.
    fold first in T. rewrite T.
    now rewrite Hhs, Hcsv, Hload.
  - unfold second.
    rewrite (cleanData_eq (fst first) (snd first) report Hiss Hne2).
    exact Hcsv.
  - assert (Hframe2 : forall a, a < List.length h ->
                                nth_error (snd second) a = nth_error h a).
    { intros a Ha. unfold second.
      rewrite (cleanData_frame (fst first) (snd first) report Hiss Hne2)
        by lia.
      now apply Hframe. }
    unfold loadTable.
    assert (Ht2 : readTable (snd second) (csvData st)
                  = readTable h (csvData st))
      by (unfold readTable; now rewrite Hframe2).
    rewrite Ht2. apply map_ext_in.
    intros a Ha. unfold readRow. rewrite Hframe2; [reflexivity|].
    rewrite Forall_forall in Hrows. now apply Hrows.
Qed.

End Engine.

Import PrimFloat.
Set Warnings "-inexact-float".

(** ** The engine on the host instance

    Detection, the page (detection followed by cleaning), the component
    after an upload with a given report, and the result of cleaning it. *)

Local Abbreviation detect :=
  (detectIssues Host.parseFloat Host.numToString).

Local Abbreviation page :=
  (clean Host.parseFloat Host.numToString).

Local Abbreviation uploaded data hs report :=
  (mount data hs (Some report)).

Local Abbreviation cleaned data hs report :=
  (cleanData Host.parseFloat Host.numToString
             (fst (mount data hs (Some report)))
             (snd (mount data hs (Some report)))).




(** Ten samples -1e308 and three samples 1e308: the third quartile is
    [NaN], no comparison with a fence holds, and no entry is recorded. *)
Lemma extreme_samples_are_not_flagged :
  Stats.quantile
    (numericValues Host.parseFloat Host.numToString "v"
                   (toObjects readingsHeaders extremesTable))
    JsNumber.threeQuarters = Some nan
  /\ outliers (detect extremesTable readingsHeaders) = [].
Proof. split; reflexivity. Qed.



(** The orders table is read the same before and after cleaning. *)
Lemma cleanData_preserves_input_witness :
  validTable (snd (uploaded ordersTable ordersHeaders
                            (detect ordersTable ordersHeaders)))
             (csvData (fst (uploaded ordersTable ordersHeaders
                                     (detect ordersTable ordersHeaders))))
  /\ loadTable (snd (cleaned ordersTable ordersHeaders
                             (detect ordersTable ordersHeaders)))
               (csvData (fst (uploaded ordersTable ordersHeaders
                                       (detect ordersTable ordersHeaders))))
     = ordersTable.
Proof.
  assert (H : validTable
                (snd (uploaded ordersTable ordersHeaders
                               (detect ordersTable ordersHeaders)))
                (csvData (fst (uploaded ordersTable ordersHeaders
                                        (detect ordersTable ordersHeaders)))))
    by (split; [vm_compute; lia|vm_compute; repeat constructor]).
  split; [exact H|].
  rewrite (proj1 (proj2 (proj2 (proj2
             (cleanData_preserves_input Host.parseFloat Host.numToString
                _ _ H))))).
  reflexivity.
Defined.

(** C3, counterexample: cleaning a table without issues leaves a log
    that is not empty, and its final entry has severity [success], not
    [info]. *)
Lemma clean_table_log_not_empty :
  noIssues (detect cleanTable cleanHeaders)
  /\ logOf (page cleanTable cleanHeaders) = [entry CleaningComplete success]
  /\ logOf (page cleanTable cleanHeaders) <> []
  /\ type (last (logOf (page cleanTable cleanHeaders))
                (entry CleaningComplete info)) <> info.
Proof.
  split; [repeat split|]. split; [reflexivity|].
  split; vm_compute; discriminate.
Qed.

Lemma cleanData_log_shape_witness :
  issues (fst (uploaded cleanTable cleanHeaders
                        (detect cleanTable cleanHeaders)))
  = Some (detect cleanTable cleanHeaders)
  /\ readTable (snd (uploaded cleanTable cleanHeaders
                              (detect cleanTable cleanHeaders)))
               (csvData (fst (uploaded cleanTable cleanHeaders
                                       (detect cleanTable cleanHeaders))))
     <> []
  /\ logOf (cleaned cleanTable cleanHeaders (detect cleanTable cleanHeaders))
     = [entry CleaningComplete success].
Proof.
  assert (H1 : issues (fst (uploaded cleanTable cleanHeaders
                                     (detect cleanTable cleanHeaders)))
               = Some (detect cleanTable cleanHeaders)) by reflexivity.
  assert (H2 : readTable (snd (uploaded cleanTable cleanHeaders
                                        (detect cleanTable cleanHeaders)))
                 (csvData (fst (uploaded cleanTable cleanHeaders
                                         (detect cleanTable cleanHeaders))))
               <> []) by (vm_compute; discriminate).
  split; [exact H1|]. split; [exact H2|].
  apply (cleanData_log_shape Host.parseFloat Host.numToString _ _ _ H1 H2).
  repeat split.
Defined.

(** C1, counterexample: the [note] column is flagged as missing and has
    no value; after cleaning its cells are still empty, none is
    [Unknown], and the log has no entry for the column. *)
Lemma empty_column_not_filled :
  JsObject.get "note" (missing (detect notesTable notesHeaders)) = Some 2
  /\ nonEmpty Host.numToString (column "note" (toObjects notesHeaders notesTable))
     = []
  /\ tableColumn 1 (cleanedTable (page notesTable notesHeaders))
     = [Some (VStr ""); Some (VStr "")]
  /\ logOf (page notesTable notesHeaders) = [entry CleaningComplete success].
Proof. repeat split. Qed.

Lemma empty_column_is_skipped_witness :
  Forall (fun x => isMissing Host.numToString x = true)
         (column "note" (toObjects notesHeaders notesTable))
  /\ Forall (fun x => isMissing Host.numToString x = true
                      /\ x <> Some (VStr "Unknown"))
            (tableColumn 1 (cleanedTable
                              (cleaned notesTable notesHeaders
                                       (detect notesTable notesHeaders)))).
Proof.
  assert (H : Forall (fun x => isMissing Host.numToString x = true)
                     (column "note" (toObjects notesHeaders notesTable)))
    by (repeat constructor).
  split; [exact H|].
  refine (proj1 (empty_column_is_skipped Host.parseFloat Host.numToString
                   (fst (uploaded notesTable notesHeaders
                                  (detect notesTable notesHeaders)))
                   (snd (uploaded notesTable notesHeaders
                                  (detect notesTable notesHeaders)))
                   (detect notesTable notesHeaders) "note"
                   _ _ _ _) 1 _).
  - reflexivity.
  - vm_compute; discriminate.
  - vm_compute; tauto.
  - exact H.
  - reflexivity.
Defined.

(** C2, counterexample: one duplicate is reported and removed, then
    whitespace normalisation turns [" a"] into ["a"]; detection on the
    cleaned table reports a duplicate again. *)
Lemma normalisation_recreates_duplicates :
  duplicates (detect tagsTable tagsHeaders) = 1
  /\ List.length (cleanedTable (page tagsTable tagsHeaders)) = 2
  /\ duplicates (detect (cleanedTable (page tagsTable tagsHeaders))
                        tagsHeaders) = 1.
Proof. repeat split. Qed.

Lemma deduplication_row_count_witness :
  duplicates (detect plainTagsTable tagsHeaders) = 1
  /\ 0 < 1
  /\ List.length (cleanedTable (cleaned plainTagsTable tagsHeaders
                                        (detect plainTagsTable tagsHeaders)))
     = 3 - 1
  /\ duplicates (detect (cleanedTable
                           (cleaned plainTagsTable tagsHeaders
                                    (detect plainTagsTable tagsHeaders)))
                        tagsHeaders) = 0.
Proof.
  assert (H1 : duplicates (detect plainTagsTable tagsHeaders) = 1)
    by reflexivity.
  assert (H2 : 0 < 1) by lia.
  split; [exact H1|]. split; [exact H2|].
  pose proof (deduplication_row_count Host.parseFloat Host.numToString
                (fst (uploaded plainTagsTable tagsHeaders
                               (detect plainTagsTable tagsHeaders)))
                (snd (uploaded plainTagsTable tagsHeaders
                               (detect plainTagsTable tagsHeaders)))
                (detect plainTagsTable tagsHeaders) 1
                eq_refl eq_refl H1 H2) as [W1 W2].
  split; [exact W1|].
  exact (W2 eq_refl eq_refl eq_refl).
Defined.

(** C4, counterexample.  In [zipWithGap] the column is flagged as missing
    and as having leading zeros; its non-empty values 007 and 012 parse
    as 7 and 12, whose median is 9.5; the cell that was missing is
    ["000"] after cleaning.  In [notesTable] the [note] column has no
    non-empty value, so that all of them parse; its cells stay empty
    instead of holding the median of no sample, 0.  In [hugeTable] the
    two values are both the number 1e308; their sum overflows, and the
    gap is filled with [Infinity], which is not their mean. *)
Lemma padded_gap_is_not_the_median :
  (JsObject.get "zip" (missing (detect zipWithGap zipHeaders)) = Some 1
   /\ map (fun v => Host.parseFloat (toString Host.numToString v))
          (nonEmpty Host.numToString
                    (column "zip" (toObjects zipHeaders zipWithGap)))
      = [7; 12]%float
   /\ Stats.median [7; 12]%float = 9.5%float
   /\ tableColumn 0 (cleanedTable (page zipWithGap zipHeaders))
      = [Some (VStr "007"); Some (VStr "000"); Some (VStr "012")])
  /\ (JsObject.get "note" (missing (detect notesTable notesHeaders)) = Some 2
      /\ nonEmpty Host.numToString
                  (column "note" (toObjects notesHeaders notesTable)) = []
      /\ Stats.median [] = 0%float
      /\ tableColumn 1 (cleanedTable (page notesTable notesHeaders))
         = [Some (VStr ""); Some (VStr "")])
  /\ (JsObject.get "v" (missing (detect hugeTable readingsHeaders)) = Some 1
      /\ map (fun v => Host.parseFloat (toString Host.numToString v))
             (nonEmpty Host.numToString
                       (column "v" (toObjects readingsHeaders hugeTable)))
         = [1e308; 1e308]%float
      /\ Stats.median [1e308; 1e308]%float = infinity
      /\ tableColumn 0 (cleanedTable (page hugeTable readingsHeaders))
         = [Some (VStr "1e308"); Some (VNum infinity);
            Some (VStr "1.0e308")]).
Proof. repeat split. Qed.

(** The orders table: the empty [val] is filled with the median of 10
    and 30. *)
Lemma numeric_column_filled_with_median_witness :
  distinctKeys (missing (detect ordersTable ordersHeaders))
  /\ In "val" (JsObject.ownKeys (missing (detect ordersTable ordersHeaders)))
  /\ nth_error
       (tableColumn 1 (cleanedTable
                         (cleaned ordersTable ordersHeaders
                                  (detect ordersTable ordersHeaders)))) 1
     = Some (Some (VNum 20)).
Proof.
  assert (H1 : distinctKeys (missing (detect ordersTable ordersHeaders)))
    by (repeat constructor; vm_compute; tauto).
  assert (H2 : In "val" (JsObject.ownKeys
                           (missing (detect ordersTable ordersHeaders))))
    by (vm_compute; auto).
  split; [exact H1|]. split; [exact H2|].
  refine (proj1 (numeric_column_filled_with_median
                   Host.parseFloat Host.numToString
                   (fst (uploaded ordersTable ordersHeaders
                                  (detect ordersTable ordersHeaders)))
                   (snd (uploaded ordersTable ordersHeaders
                                  (detect ordersTable ordersHeaders)))
                   (detect ordersTable ordersHeaders) "val" 1
                   _ _ H1 H2 _ _ _) 1 (Some (VStr "")) _ _).
  - reflexivity.
  - vm_compute; discriminate.
  - reflexivity.
  - vm_compute; discriminate.
  - apply Forall_forall. intros v Hv. vm_compute in Hv.
    destruct Hv as [<-|[<-|[]]]; vm_compute; discriminate.
  - reflexivity.
  - reflexivity.
Defined.

(** C5, counterexample: before cleaning the longest text of the column
    has 7 characters; whitespace normalisation runs first, and the
    cleaned values have 5. *)
Lemma trimmed_width_is_shorter :
  In "zip" (JsObject.ownKeys (leadingZeros (detect zipWithSpaces zipHeaders)))
  /\ widest Host.numToString (column "zip" (toObjects zipHeaders zipWithSpaces))
     = 7
  /\ tableColumn 0 (cleanedTable (page zipWithSpaces zipHeaders))
     = [Some (VStr "00007"); Some (VStr "12345")]
  /\ map (fun x => String.length (textOf Host.numToString x))
         (tableColumn 0 (cleanedTable (page zipWithSpaces zipHeaders)))
     = [5; 5].
Proof. split; [vm_compute; auto|repeat split]. Qed.

(** The codes 007 and 012 around a gap: the report of detection flags
    the column for leading zeros and as missing, and all three cells get
    three characters. *)
Lemma leading_zero_column_width_witness :
  distinctKeys (leadingZeros (detect zipWithGap zipHeaders))
  /\ In "zip" (JsObject.ownKeys (leadingZeros (detect zipWithGap zipHeaders)))
  /\ In "zip" (JsObject.ownKeys (missing (detect zipWithGap zipHeaders)))
  /\ tableColumn 0 (cleanedTable
                      (cleaned zipWithGap zipHeaders
                               (detect zipWithGap zipHeaders)))
     = [Some (VStr "007"); Some (VStr "000"); Some (VStr "012")].
Proof.
  assert (H1 : distinctKeys (leadingZeros (detect zipWithGap zipHeaders)))
    by (repeat constructor; vm_compute; tauto).
  assert (H2 : In "zip" (JsObject.ownKeys
                           (leadingZeros (detect zipWithGap zipHeaders))))
    by (vm_compute; auto).
  assert (H3 : In "zip" (JsObject.ownKeys
                           (missing (detect zipWithGap zipHeaders))))
    by (vm_compute; auto).
  split; [exact H1|]. split; [exact H2|]. split; [exact H3|].
  etransitivity.
  - refine (proj1
              (leading_zero_column_width Host.parseFloat Host.numToString
                 (fst (uploaded zipWithGap zipHeaders
                                (detect zipWithGap zipHeaders)))
                 (snd (uploaded zipWithGap zipHeaders
                                (detect zipWithGap zipHeaders)))
                 (detect zipWithGap zipHeaders) "zip" 0
                 _ _ H1 H2 _ _)).
    + reflexivity.
    + vm_compute; discriminate.
    + reflexivity.
    + left. vm_compute. reflexivity.
  - vm_compute. reflexivity.
Defined.

(** C10, counterexample.  In the names table the name [" x"] is not
    missing; the report of detection flags the column as missing and,
    because of that very name, for whitespace: the name is ["x"] when
    imputation starts, and imputation leaves it as it is.  In the cities
    table the column is flagged as missing and not for whitespace, and
    imputation leaves the two city names as they are. *)
Lemma imputation_keeps_detected_text :
  (In "name" (JsObject.ownKeys (missing (detect namesTable namesHeaders)))
   /\ In "name" (JsObject.ownKeys
                   (whitespace (detect namesTable namesHeaders)))
   /\ column "name"
              (beforeFill Host.numToString (detect namesTable namesHeaders)
                          (toObjects namesHeaders namesTable))
      = [Some (VStr "x"); Some (VStr "")]
   /\ tableColumn 0 (cleanedTable (page namesTable namesHeaders))
      = [Some (VStr "x"); Some (VStr "x")])
  /\ (In "city" (JsObject.ownKeys (missing (detect citiesTable citiesHeaders)))
      /\ whitespace (detect citiesTable citiesHeaders) = []
      /\ column "city"
                (beforeFill Host.numToString
                            (detect citiesTable citiesHeaders)
                            (toObjects citiesHeaders citiesTable))
         = [Some (VStr "Oslo"); Some (VStr ""); Some (VStr "Rome")]
      /\ tableColumn 0 (cleanedTable (page citiesTable citiesHeaders))
         = [Some (VStr "Oslo"); Some (VStr "Oslo"); Some (VStr "Rome")]).
Proof. repeat split; vm_compute; auto. Qed.

(** The scores 10 and 30 around a cell of one space: the report of
    detection flags the column as missing; the two scores keep their
    text and the cell between them gets their median, the number 20. *)
Lemma imputation_rewrites_column_witness :
  distinctKeys (missing (detect scoresTable scoresHeaders))
  /\ In "score" (JsObject.ownKeys (missing (detect scoresTable scoresHeaders)))
  /\ tableColumn 0 (cleanedTable
                      (cleaned scoresTable scoresHeaders
                               (detect scoresTable scoresHeaders)))
     = [Some (VStr "10"); Some (VNum 20); Some (VStr "30")].
Proof.
  assert (H1 : distinctKeys (missing (detect scoresTable scoresHeaders)))
    by (repeat constructor; vm_compute; tauto).
  assert (H2 : In "score" (JsObject.ownKeys
                             (missing (detect scoresTable scoresHeaders))))
    by (vm_compute; auto).
  split; [exact H1|]. split; [exact H2|].
  etransitivity.
  - refine (proj1
              (imputation_rewrites_column Host.parseFloat Host.numToString
                 (fst (uploaded scoresTable scoresHeaders
                                (detect scoresTable scoresHeaders)))
                 (snd (uploaded scoresTable scoresHeaders
                                (detect scoresTable scoresHeaders)))
                 (detect scoresTable scoresHeaders) "score" 0
                 _ _ H1 H2 _ _)).
    + reflexivity.
    + vm_compute; discriminate.
    + reflexivity.
    + vm_compute; discriminate.
  - vm_compute. reflexivity.
Defined.

(** ** Instances of the further properties *)

(** The row 1, 2 under the headers a, b. *)
Lemma toObject_last_header_witness :
  property "b" (toObject ["a"; "b"] (texts ["1"; "2"])) = Some (VStr "2")
  /\ NoDup (map fst (toObject ["a"; "b"] (texts ["1"; "2"]))).
Proof.
  refine (let H := toObject_last_header Host.parseFloat Host.numToString
                     ["a"; "b"] (texts ["1"; "2"]) "b" 1 _ _ _ in
          conj (proj1 H) (proj1 (proj2 H))).
  - discriminate.
  - reflexivity.
  - intros k Hk. destruct k as [|[|k]]; [lia|lia|].
    simpl. destruct k; discriminate.
Defined.

(** The most frequent of a, b, a. *)
Lemma mode_is_most_frequent_witness :
  exists v,
    In v (nonEmpty Host.numToString (texts ["a"; "b"; "a"]))
    /\ mode Host.numToString
            (nonEmpty Host.numToString (texts ["a"; "b"; "a"]))
       = VStr (toString Host.numToString v)
    /\ forall t,
         count_occ string_dec
                   (map (toString Host.numToString)
                        (nonEmpty Host.numToString (texts ["a"; "b"; "a"]))) t
         <= count_occ string_dec
                      (map (toString Host.numToString)
                           (nonEmpty Host.numToString
                                     (texts ["a"; "b"; "a"])))
                      (toString Host.numToString v).
Proof.
  apply (mode_is_most_frequent Host.parseFloat Host.numToString
                                (texts ["a"; "b"; "a"])).
  vm_compute; discriminate.
Defined.

(** A table is recovered from its export. *)
Lemma csv_export_injective_witness :
  quoteFreeTable Host.numToString (texts zipHeaders :: zipCodes)
  /\ zipHeaders = zipHeaders
  /\ map (map (textOf Host.numToString)) zipCodes
     = map (map (textOf Host.numToString)) zipCodes.
Proof.
  assert (H : quoteFreeTable Host.numToString (texts zipHeaders :: zipCodes))
    by (repeat constructor).
  split; [exact H|].
  apply (csv_export_injective Host.numToString
           zipHeaders zipHeaders zipCodes zipCodes H H).
  reflexivity.
Defined.

(** The tags a, b, a on the analysis page. *)
Lemma top_values_most_frequent_witness :
  analyzeColumn Host.parseFloat Host.numToString "tag"
                (toObjects tagsHeaders plainTagsTable)
  = TopValues [("a", 2); ("b", 1)]
  /\ StronglySorted byCount [("a", 2); ("b", 1)]
  /\ NoDup (map fst [("a", 2); ("b", 1)]).
Proof.
  assert (H : analyzeColumn Host.parseFloat Host.numToString "tag"
                            (toObjects tagsHeaders plainTagsTable)
              = TopValues [("a", 2); ("b", 1)])
    by (vm_compute; reflexivity).
  split; [exact H|].
  destruct (top_values_most_frequent Host.parseFloat Host.numToString _ _ _ H)
    as (_ & _ & H1 & H2 & _).
  split; [exact H2|exact H1].
Defined.

(** The table free of issues keeps its one row of one cell. *)
Lemma cleaned_table_shape_witness :
  Forall (fun row => List.length row = List.length cleanHeaders
                     /\ Forall (fun x => x <> None) row)
         (cleanedTable (cleaned cleanTable cleanHeaders
                                (detect cleanTable cleanHeaders)))
  /\ List.length (cleanedTable (cleaned cleanTable cleanHeaders
                                        (detect cleanTable cleanHeaders)))
     = 1.
Proof.
  destruct (cleaned_table_shape
              Host.parseFloat Host.numToString
              (fst (uploaded cleanTable cleanHeaders
                             (detect cleanTable cleanHeaders)))
              (snd (uploaded cleanTable cleanHeaders
                             (detect cleanTable cleanHeaders)))
              (detect cleanTable cleanHeaders)
              eq_refl ltac:(vm_compute; discriminate))
    as (H1 & _ & _ & H4).
  split; [exact H1|]. exact (H4 eq_refl).
Defined.

(** The first column of the ragged table is flagged nowhere and comes out
    as it was uploaded. *)
Lemma unflagged_column_unchanged_witness :
  ~ In "a" (JsObject.ownKeys (whitespace (detect raggedTable raggedHeaders)))
  /\ ~ In "a" (JsObject.ownKeys
                 (leadingZeros (detect raggedTable raggedHeaders)))
  /\ ~ In "a" (JsObject.ownKeys (missing (detect raggedTable raggedHeaders)))
  /\ tableColumn 0 (cleanedTable (cleaned raggedTable raggedHeaders
                                          (detect raggedTable raggedHeaders)))
     = [Some (VStr "1"); Some (VStr "2")].
Proof.
  assert (H1 : ~ In "a" (JsObject.ownKeys
                           (whitespace (detect raggedTable raggedHeaders))))
    by (vm_compute; tauto).
  assert (H2 : ~ In "a" (JsObject.ownKeys
                           (leadingZeros (detect raggedTable raggedHeaders))))
    by (vm_compute; tauto).
  assert (H3 : ~ In "a" (JsObject.ownKeys
                           (missing (detect raggedTable raggedHeaders))))
    by (vm_compute; intros [H|[]]; discriminate).
  split; [exact H1|]. split; [exact H2|]. split; [exact H3|].
  refine (proj1 (proj2 (unflagged_column_unchanged
                   Host.parseFloat Host.numToString
                   (fst (uploaded raggedTable raggedHeaders
                                  (detect raggedTable raggedHeaders)))
                   (snd (uploaded raggedTable raggedHeaders
                                  (detect raggedTable raggedHeaders)))
                   (detect raggedTable raggedHeaders) "a" 0
                   eq_refl ltac:(vm_compute; discriminate) eq_refl
                   H1 H2 H3)) eq_refl _ _).
  - discriminate.
  - intros k Hk. destruct k as [|[|k]]; [lia|vm_compute; discriminate|].
    simpl. destruct k; discriminate.
Defined.

(** The tags a, " a", a have no surrounding space after cleaning. *)
Lemma whitespace_column_normalized_witness :
  In "tag" (JsObject.ownKeys (whitespace (detect tagsTable tagsHeaders)))
  /\ JsObject.get "tag"
       (whitespace
          (detect (cleanedTable (cleaned tagsTable tagsHeaders
                                         (detect tagsTable tagsHeaders)))
                  tagsHeaders))
     = None.
Proof.
  assert (H : In "tag" (JsObject.ownKeys
                          (whitespace (detect tagsTable tagsHeaders))))
    by (vm_compute; auto).
  split; [exact H|].
  refine (proj2 (whitespace_column_normalized
                   Host.parseFloat Host.numToString
                   (fst (uploaded tagsTable tagsHeaders
                                  (detect tagsTable tagsHeaders)))
                   (snd (uploaded tagsTable tagsHeaders
                                  (detect tagsTable tagsHeaders)))
                   (detect tagsTable tagsHeaders) "tag" 0
                   eq_refl ltac:(vm_compute; discriminate) eq_refl H
                   ltac:(vm_compute; tauto) ltac:(vm_compute; tauto))).
Defined.

(** The log of the orders: duplicates, whitespace, missing values, end. *)
Lemma cleaning_log_order_witness :
  distinctKeys (missing (detect ordersTable ordersHeaders))
  /\ logOf (cleaned ordersTable ordersHeaders
                    (detect ordersTable ordersHeaders))
     = [entry (RemovedDuplicateRows 1) success;
        entry (FixedWhitespace "id") success;
        entry (FilledMissingValues (Some 1) "val") success;
        entry CleaningComplete success].
Proof.
  assert (H : distinctKeys (missing (detect ordersTable ordersHeaders)))
    by (repeat constructor; vm_compute; tauto).
  split; [exact H|].
  etransitivity.
  - exact (cleaning_log_order
             Host.parseFloat Host.numToString
             (fst (uploaded ordersTable ordersHeaders
                            (detect ordersTable ordersHeaders)))
             (snd (uploaded ordersTable ordersHeaders
                            (detect ordersTable ordersHeaders)))
             (detect ordersTable ordersHeaders)
             eq_refl ltac:(vm_compute; discriminate) H).
  - vm_compute. reflexivity.
Defined.

(** The gap among the city names gets a city name. *)
Lemma categorical_column_has_no_gap_witness :
  distinctKeys (missing (detect citiesTable citiesHeaders))
  /\ In "city" (JsObject.ownKeys (missing (detect citiesTable citiesHeaders)))
  /\ Forall (fun x => isMissing Host.numToString x = false)
            (tableColumn 0 (cleanedTable
                              (cleaned citiesTable citiesHeaders
                                       (detect citiesTable citiesHeaders)))).
Proof.
  assert (H1 : distinctKeys (missing (detect citiesTable citiesHeaders)))
    by (repeat constructor; vm_compute; tauto).
  assert (H2 : In "city" (JsObject.ownKeys
                            (missing (detect citiesTable citiesHeaders))))
    by (vm_compute; auto).
  split; [exact H1|]. split; [exact H2|].
  refine (proj1 (categorical_column_has_no_gap
                   Host.parseFloat Host.numToString
                   (fst (uploaded citiesTable citiesHeaders
                                  (detect citiesTable citiesHeaders)))
                   (snd (uploaded citiesTable citiesHeaders
                                  (detect citiesTable citiesHeaders)))
                   (detect citiesTable citiesHeaders) "city" 0
                   eq_refl ltac:(vm_compute; discriminate) H1 H2 eq_refl _)).
  intros HF. rewrite Forall_forall in HF.
  apply (HF (VStr "Oslo")).
  - vm_compute. auto.
  - vm_compute. reflexivity.
Defined.

(** The gap between the balances -1 and 1 is filled with their median 0
    and is reported as missing again. *)
Lemma zero_median_stays_missing_witness :
  distinctKeys (missing (detect balanceTable balanceHeaders))
  /\ In "balance"
        (JsObject.ownKeys (missing (detect balanceTable balanceHeaders)))
  /\ (nth_error
         (tableColumn 0 (cleanedTable
                           (cleaned balanceTable balanceHeaders
                                    (detect balanceTable balanceHeaders))))
         1 = Some (Some (VNum 0))
       /\ isMissing Host.numToString (Some (VNum 0)) = true)
  /\ exists n,
       JsObject.get "balance"
         (missing
            (detect (cleanedTable
                       (cleaned balanceTable balanceHeaders
                                (detect balanceTable balanceHeaders)))
                    balanceHeaders)) = Some n
       /\ 0 < n.
Proof.
  assert (H1 : distinctKeys (missing (detect balanceTable balanceHeaders)))
    by (repeat constructor; vm_compute; tauto).
  assert (H2 : In "balance"
                  (JsObject.ownKeys
                     (missing (detect balanceTable balanceHeaders))))
    by (vm_compute; auto).
  split; [exact H1|]. split; [exact H2|].
  refine (zero_median_stays_missing
            Host.parseFloat Host.numToString
            (fst (uploaded balanceTable balanceHeaders
                           (detect balanceTable balanceHeaders)))
            (snd (uploaded balanceTable balanceHeaders
                           (detect balanceTable balanceHeaders)))
            (detect balanceTable balanceHeaders) "balance" 0
            1 (Some (VStr ""))
            eq_refl ltac:(vm_compute; discriminate) H1 H2 eq_refl
            ltac:(vm_compute; discriminate) _
            ltac:(vm_compute; reflexivity) eq_refl eq_refl).
  apply Forall_forall. intros v Hv. vm_compute in Hv.
  destruct Hv as [<-|[<-|[]]]; vm_compute; discriminate.
Defined.

(** A second run on the table free of issues gives the same table and the
    same one-line log. *)
Lemma cleanData_again_witness :
  validTable (snd (uploaded cleanTable cleanHeaders
                            (detect cleanTable cleanHeaders)))
             (csvData (fst (uploaded cleanTable cleanHeaders
                                     (detect cleanTable cleanHeaders))))
  /\ logOf (cleanData Host.parseFloat Host.numToString
                      (fst (cleaned cleanTable cleanHeaders
                                    (detect cleanTable cleanHeaders)))
                      (snd (cleaned cleanTable cleanHeaders
                                    (detect cleanTable cleanHeaders))))
     = logOf (cleaned cleanTable cleanHeaders
                      (detect cleanTable cleanHeaders)).
Proof.
  assert (H : validTable
                (snd (uploaded cleanTable cleanHeaders
                               (detect cleanTable cleanHeaders)))
                (csvData (fst (uploaded cleanTable cleanHeaders
                                        (detect cleanTable cleanHeaders))))).
  { split; [vm_compute; lia|]. vm_compute. repeat constructor. }
  split; [exact H|].
  refine (proj1 (proj2 (cleanData_again
                          Host.parseFloat Host.numToString
                          (fst (uploaded cleanTable cleanHeaders
                                         (detect cleanTable cleanHeaders)))
                          (snd (uploaded cleanTable cleanHeaders
                                         (detect cleanTable cleanHeaders)))
                          (detect cleanTable cleanHeaders)
                          H eq_refl ltac:(vm_compute; discriminate)))).
Defined.
